(** * go-face-recognition-api: the acquisition-and-annotation pipeline

    A shallow embedding of the Go services ([internal/services]), the models
    and the HTTP handlers of the face recognition API, and the properties of
    the specification established on it; then the configuration, the
    middleware and the routes of [main], with further properties of the
    code.

    Conventions of the embedding.
    - Go's [int] and [int64] are 64-bit two's complement integers: a value
      is a [Z], and every arithmetic operation wraps ([GoInt]).
    - Go's [float32] and [float64] are IEEE 754 binary32 and binary64 values,
      as [spec_float] with the operations of [SpecFloat] at the matching
      precision ([GoFloat]).
    - A Go [string] is a sequence of bytes: a [string] of [ascii] bytes.
    - Functions of libraries that are not part of the repository (net/url,
      unicode, the image codecs, pigo) are fields of the class [GoLibs] or of
      the record [pigo.Pigo]; the code of the repository is defined on top
      of them and the theorems hold for every implementation of them.
    - Logging has no effect on any result and is left out of the services
      and the handlers; the entries that the middleware logs are part of
      its runs ([server.prog]). *)

From Stdlib Require Import ZArith List String Ascii Bool Lia DecimalString.
From Stdlib Require Import Floats.SpecFloat.
From stdpp Require Import gmap.
Import ListNotations.

Local Open Scope string_scope.
Local Open Scope Z_scope.

(* ===================================================================== *)
(** * Go integers                                                          *)
(* ===================================================================== *)

Module GoInt.

Definition MinInt : Z := - 2 ^ 63.
Definition MaxInt : Z := 2 ^ 63 - 1.

(** The value of a mathematical integer once stored in an [int]. *)
Definition wrap (z : Z) : Z := (z + 2 ^ 63) mod 2 ^ 64 - 2 ^ 63.

Definition in_range (z : Z) : Prop := MinInt <= z <= MaxInt.

Definition add (a b : Z) : Z := wrap (a + b).
Definition sub (a b : Z) : Z := wrap (a - b).
Definition mul (a b : Z) : Z := wrap (a * b).

(** [a / b] of Go truncates toward zero; the divisors of this program are
    non-zero constants. *)
Definition quot (a b : Z) : Z := wrap (Z.quot a b).

(** [%d] of [fmt.Sprintf]. *)
Definition fmt_d (z : Z) : string := NilZero.string_of_int (Z.to_int z).

End GoInt.

(* ===================================================================== *)
(** * Go floating point numbers                                            *)
(* ===================================================================== *)

Module GoFloat.

Definition float32 : Type := spec_float.
Definition float64 : Type := spec_float.

Definition prec32 : Z := 24.
Definition emax32 : Z := 128.
Definition prec64 : Z := 53.
Definition emax64 : Z := 1024.

(** The zero value of a float variable. *)
Definition zero : spec_float := S754_zero false.

(** [float32(n)] and [float64(n)] for an integer [n]: round to nearest,
    ties to even. *)
Definition float32_of_int (n : Z) : float32 := binary_normalize prec32 emax32 n 0 false.
Definition float64_of_int (n : Z) : float64 := binary_normalize prec64 emax64 n 0 false.

(** [float64(x)] for a [float32] [x]: exact. *)
Definition float64_of_float32 (x : float32) : float64 :=
  match x with
  | S754_finite s m e => binary_normalize prec64 emax64 (cond_Zopp s (Zpos m)) e s
  | _ => x
  end.

Definition add32 (x y : float32) : float32 := SFadd prec32 emax32 x y.
Definition div32 (x y : float32) : float32 := SFdiv prec32 emax32 x y.
Definition div64 (x y : float64) : float64 := SFdiv prec64 emax64 x y.

(** The comparisons of IEEE 754: every comparison with a NaN is false. *)
Definition ltb (x y : spec_float) : bool := SFltb x y.
Definition geb (x y : spec_float) : bool :=
  match SFcompare x y with
  | Some Gt | Some Eq => true
  | _ => false
  end.
Definition gtb (x y : spec_float) : bool :=
  match SFcompare x y with
  | Some Gt => true
  | _ => false
  end.
Definition eqb (x y : spec_float) : bool := SFeqb x y.

Definition is_nan (x : spec_float) : bool :=
  match x with S754_nan => true | _ => false end.
Definition is_pos_inf (x : spec_float) : bool :=
  match x with S754_infinity false => true | _ => false end.
Definition signbit (x : spec_float) : bool :=
  match x with
  | S754_zero s | S754_infinity s | S754_finite s _ _ => s
  | S754_nan => false
  end.

(** [math.Max]. *)
Definition math_Max (x y : float64) : float64 :=
  if is_pos_inf x || is_pos_inf y then S754_infinity false
  else if is_nan x || is_nan y then S754_nan
  else if eqb x zero && eqb x y then (if signbit x then y else x)
  else if gtb x y then x else y.

(** [int(x)] for a [float64] [x]: the fraction is discarded (truncation
    toward zero). Go leaves the result open when the value does not fit
    an [int]; amd64 yields the smallest [int] then, and so does this
    definition. *)
Definition int_of_float64 (x : float64) : Z :=
  match x with
  | S754_zero _ => 0
  | S754_finite s m e =>
      let a := if 0 <=? e then Zpos m * 2 ^ e else Zpos m / 2 ^ (- e) in
      let v := cond_Zopp s a in
      if (GoInt.MinInt <=? v) && (v <=? GoInt.MaxInt) then v else GoInt.MinInt
  | _ => GoInt.MinInt
  end.

End GoFloat.

(* ===================================================================== *)
(** * Package image: rectangles, colours and pixel buffers                 *)
(* ===================================================================== *)

Module image.

Record Point := { PX : Z; PY : Z }.

Record Rectangle := { Min : Point; Max : Point }.

(** [color.RGBA]: four bytes. *)
Record RGBA := { R : Z; G : Z; B : Z; A : Z }.

Definition transparent : RGBA := {| R := 0; G := 0; B := 0; A := 0 |}.

(** A decoded image: its bounds and the colour (as [color.RGBA]) stored
    for each point. *)
Record Image := { Rect : Rectangle; Pix : Z -> Z -> RGBA }.

Definition Dx (r : Rectangle) : Z := GoInt.sub (PX (Max r)) (PX (Min r)).
Definition Dy (r : Rectangle) : Z := GoInt.sub (PY (Max r)) (PY (Min r)).

(** [Point{x, y}.In(r)]. *)
Definition In (x y : Z) (r : Rectangle) : bool :=
  (PX (Min r) <=? x) && (x <? PX (Max r)) && (PY (Min r) <=? y) && (y <? PY (Max r)).

(** [img.At(x, y)]: the zero colour outside the bounds. *)
Definition At (img : Image) (x y : Z) : RGBA :=
  if In x y (Rect img) then Pix img x y else transparent.

End image.

(* ===================================================================== *)
(** * Package models                                                       *)
(* ===================================================================== *)

(** The fields of the records of a module share one name space: where a
    struct repeats the name of a field of an earlier struct of the package,
    or the name of a type, its field carries a prefix ([Metadata_],
    [Detection_], [Validation_], [Visual_]). *)
Module models.

Record Face := {
  X : Z;
  Y : Z;
  Width : Z;
  Height : Z;
  Confidence : GoFloat.float32
}.

Record ImageMetadata := {
  Metadata_Width : Z;
  Metadata_Height : Z;
  Format : string;
  SizeBytes : Z;
  URL : string
}.

Record FaceDetectionResponse := {
  Faces : list Face;
  Count : Z;
  Detection_ImageMetadata : ImageMetadata;
  ProcessingTimeMs : GoFloat.float64
}.

Record SelfieValidationResponse := {
  IsValid : bool;
  Issues : list string;
  Validation_Confidence : GoFloat.float32;
  FaceCount : Z
}.

Record VisualDetectionResponse := {
  ImageBase64 : string;
  Visual_Faces : list Face;
  Visual_Count : Z;
  Visual_ImageMetadata : ImageMetadata;
  Visual_ProcessingTimeMs : GoFloat.float64
}.

Record APIError := { Code : string; Message : string; Status : Z }.

(** The predefined API errors. *)
Definition ErrInvalidURL : APIError :=
  {| Code := "INVALID_URL"; Message := "Invalid image URL"; Status := 400 |}.
Definition ErrImageDownload : APIError :=
  {| Code := "IMAGE_DOWNLOAD_ERROR"; Message := "Failed to download image"; Status := 400 |}.
Definition ErrImageFormat : APIError :=
  {| Code := "INVALID_IMAGE_FORMAT"; Message := "Unsupported image format"; Status := 400 |}.
Definition ErrFaceDetection : APIError :=
  {| Code := "FACE_DETECTION_ERROR"; Message := "Face detection failed"; Status := 500 |}.
Definition ErrImageTooLarge : APIError :=
  {| Code := "IMAGE_TOO_LARGE"; Message := "Image size exceeds maximum limit"; Status := 400 |}.
Definition ErrInvalidRequest : APIError :=
  {| Code := "INVALID_REQUEST"; Message := "Invalid JSON request"; Status := 400 |}.

Record FaceDetectionRequest := { ImageURL : string }.

Record SelfieValidationRequest := {
  Validation_ImageURL : string;
  MinFaces : Z;
  MaxFaces : Z
}.

Record VisualDetectionRequest := {
  Visual_ImageURL : string;
  CircleColor : string;
  LineWidth : Z
}.

End models.

(* ===================================================================== *)
(** * Package config                                                       *)
(* ===================================================================== *)

Module config.

Record PigoConfig := {
  MinSize : Z;
  MaxSize : Z;
  ShiftFactor : GoFloat.float32;
  ScaleFactor : GoFloat.float32;
  IoUThreshold : GoFloat.float32;
  MinConfidence : GoFloat.float32
}.

Record LimitsConfig := {
  MaxImageSize : Z;
  MaxWidth : Z;
  MaxHeight : Z;
  RateLimit : Z;
  RateBurst : Z
}.

End config.

(* ===================================================================== *)
(** * The pigo classifier, as the services see it                          *)
(* ===================================================================== *)

Module pigo.

Record Detection := {
  Row : Z;
  Col : Z;
  Scale : Z;
  Q : GoFloat.float32
}.

Record ImageParams := {
  Pixels : list Z;
  Rows : Z;
  Cols : Z;
  Dim : Z
}.

Record CascadeParams := {
  MinSize : Z;
  MaxSize : Z;
  ShiftFactor : GoFloat.float64;
  ScaleFactor : GoFloat.float64;
  Cascade_ImageParams : ImageParams
}.

(** The unpacked classifier: its two methods. Their code belongs to the
    pigo library. *)
Record Pigo := {
  RunCascade : CascadeParams -> GoFloat.float64 -> list Detection;
  ClusterDetections : list Detection -> GoFloat.float64 -> list Detection
}.

End pigo.

(* ===================================================================== *)
(** * Library functions the services call                                  *)
(* ===================================================================== *)

Module url.

(** The two fields of [url.URL] that the services read. *)
Record URL := { Scheme : string; Host : string }.

End url.

(** A returned value or a returned error. *)
Inductive result (T E : Type) : Type :=
| Ok (v : T)
| Err (e : E).

Arguments Ok {T E} v.
Arguments Err {T E} e.

(** The functions of Go's standard library and of pigo that the services
    call and whose code is not part of the repository. [None] stands for a
    returned error. *)
Class GoLibs := {
  (** [url.Parse]. *)
  url_Parse : string -> option url.URL;
  (** [strings.Map(unicode.ToLower, s)] and [strings.Map(unicode.ToUpper, s)],
      which [strings.ToLower] and [strings.ToUpper] fall back to when [s] has
      a byte outside ASCII. *)
  unicode_MapToLower : string -> string;
  unicode_MapToUpper : string -> string;
  (** [jpeg.Decode] and [png.Decode] on the bytes of a body. *)
  jpeg_Decode : string -> option image.Image;
  png_Decode : string -> option image.Image;
  (** [jpeg.Encode] of an image at a quality: the bytes written to the
      buffer, or the error. *)
  jpeg_Encode : image.Image -> Z -> result string string;
  (** [base64.StdEncoding.EncodeToString]. *)
  base64_EncodeToString : string -> string;
  (** [pigo.RgbToGrayscale]. *)
  pigo_RgbToGrayscale : image.Image -> list Z
}.

(* ===================================================================== *)
(** * Package strings                                                      *)
(* ===================================================================== *)

Module strings.

Definition byte_val (c : ascii) : Z := Z.of_N (N_of_ascii c).

Definition is_ascii_byte (c : ascii) : bool := byte_val c <? 128.

Fixpoint isASCII (s : string) : bool :=
  match s with
  | EmptyString => true
  | String c s' => is_ascii_byte c && isASCII s'
  end.

Definition lower_byte (c : ascii) : ascii :=
  if (65 <=? byte_val c) && (byte_val c <=? 90)
  then ascii_of_N (N_of_ascii c + 32) else c.

Definition upper_byte (c : ascii) : ascii :=
  if (97 <=? byte_val c) && (byte_val c <=? 122)
  then ascii_of_N (N_of_ascii c - 32) else c.

Fixpoint map_bytes (f : ascii -> ascii) (s : string) : string :=
  match s with
  | EmptyString => EmptyString
  | String c s' => String (f c) (map_bytes f s')
  end.

(** [strings.ToLower]: byte-wise on an ASCII string, through the Unicode
    tables otherwise. *)
Definition ToLower `{GoLibs} (s : string) : string :=
  if isASCII s then map_bytes lower_byte s else unicode_MapToLower s.

(** [strings.ToUpper]. *)
Definition ToUpper `{GoLibs} (s : string) : string :=
  if isASCII s then map_bytes upper_byte s else unicode_MapToUpper s.

(** [strings.HasPrefix]. *)
Fixpoint HasPrefix (s prefix : string) : bool :=
  match prefix, s with
  | EmptyString, _ => true
  | String p prefix', String c s' => Ascii.eqb c p && HasPrefix s' prefix'
  | String _ _, EmptyString => false
  end.

(** [strings.Contains]: [substr] occurs in [s] at some offset. *)
Fixpoint Contains (s substr : string) : bool :=
  HasPrefix s substr ||
  match s with
  | EmptyString => false
  | String _ s' => Contains s' substr
  end.

(** [strings.Split(s, sep)] for a non-empty [sep]: [cur] holds the bytes of
    the piece being read and [skip] the bytes of a separator still to pass
    over. *)
Fixpoint split_from (sep s cur : string) (skip : nat) : list string :=
  match s with
  | EmptyString => [cur]
  | String c s' =>
      match skip with
      | S k => split_from sep s' cur k
      | O =>
          if HasPrefix s sep
          then cur :: split_from sep s' EmptyString (Nat.pred (String.length sep))
          else split_from sep s' (cur ++ String c EmptyString) O
      end
  end.

Definition Split (s sep : string) : list string := split_from sep s EmptyString O.

End strings.

(* ===================================================================== *)
(** * Package services: face_detector.go                                   *)
(* ===================================================================== *)

Module face_detector.

Import models.

Record FaceDetector := {
  classifier : pigo.Pigo;
  config : config.PigoConfig
}.

(** The cascade parameters that [DetectFaces] builds for an image. *)
Definition cascadeParams `{GoLibs} (fd : FaceDetector) (img : image.Image) : pigo.CascadeParams :=
  let pixels := pigo_RgbToGrayscale img in
  let bounds := image.Rect img in
  let width := image.PX (image.Max bounds) in
  let height := image.PY (image.Max bounds) in
  {| pigo.MinSize := config.MinSize (config fd);
     pigo.MaxSize := config.MaxSize (config fd);
     pigo.ShiftFactor := GoFloat.float64_of_float32 (config.ShiftFactor (config fd));
     pigo.ScaleFactor := GoFloat.float64_of_float32 (config.ScaleFactor (config fd));
     pigo.Cascade_ImageParams :=
       {| pigo.Pixels := pixels; pigo.Rows := height; pigo.Cols := width; pigo.Dim := width |} |}.

(** The detections after the cascade run (angle 0) and the clustering. *)
Definition clustered `{GoLibs} (fd : FaceDetector) (img : image.Image) : list pigo.Detection :=
  let angle := GoFloat.zero in
  let detections := pigo.RunCascade (classifier fd) (cascadeParams fd img) angle in
  pigo.ClusterDetections (classifier fd) detections
    (GoFloat.float64_of_float32 (config.IoUThreshold (config fd))).

(** The condition of the filtering loop. *)
Definition keeps (fd : FaceDetector) (det : pigo.Detection) : bool :=
  GoFloat.geb (pigo.Q det) (config.MinConfidence (config fd)).

(** The body of the conversion loop. *)
Definition toFace (det : pigo.Detection) : Face :=
  {| X := GoInt.sub (pigo.Col det) (GoInt.quot (pigo.Scale det) 2);
     Y := GoInt.sub (pigo.Row det) (GoInt.quot (pigo.Scale det) 2);
     Width := pigo.Scale det;
     Height := pigo.Scale det;
     Confidence := pigo.Q det |}.

(** [DetectFaces]: the faces and the error ([None] is [nil]). *)
Definition DetectFaces `{GoLibs} (fd : FaceDetector) (img : image.Image)
  : list Face * option string :=
  let detections := clustered fd img in
  let filteredDetections := List.filter (keeps fd) detections in
  let faces := List.map toFace filteredDetections in
  (faces, None).

Definition issue_no_faces : string := "No faces detected in image".
Definition issue_dark_or_blurry : string := "Image may be too dark or blurry".
Definition issue_low_confidence : string := "Low confidence score for detected face(s)".

Definition issue_too_few (faceCount minFaces : Z) : string :=
  "Too few faces detected (" ++ GoInt.fmt_d faceCount ++ " found, expected at least "
    ++ GoInt.fmt_d minFaces ++ ")".

Definition issue_multiple (faceCount maxFaces : Z) : string :=
  "Multiple faces detected (" ++ GoInt.fmt_d faceCount ++ " found, expected "
    ++ GoInt.fmt_d maxFaces ++ ")".

(** The constant [10.0] as a [float32]. *)
Definition confidence_threshold : GoFloat.float32 := GoFloat.float32_of_int 10.

(** The accumulation loop of [ValidateSelfie]. *)
Definition totalConfidence (faces : list Face) : GoFloat.float32 :=
  fold_left (fun total face => GoFloat.add32 total (Confidence face)) faces GoFloat.zero.

(** [ValidateSelfie]. *)
Definition ValidateSelfie (fd : FaceDetector) (faces : list Face) (minFaces maxFaces : Z)
  : SelfieValidationResponse :=
  let faceCount := Z.of_nat (List.length faces) in
  let issues : list string := [] in
  let isValid := true in
  let confidence := GoFloat.zero in
  let '(isValid, issues) :=
    if faceCount <? minFaces then
      if faceCount =? 0
      then (false, ((issues ++ [issue_no_faces]) ++ [issue_dark_or_blurry])%list)
      else (false, (issues ++ [issue_too_few faceCount minFaces])%list)
    else if maxFaces <? faceCount
    then (false, (issues ++ [issue_multiple faceCount maxFaces])%list)
    else (isValid, issues) in
  let '(isValid, issues, confidence) :=
    if 0 <? faceCount then
      let confidence := GoFloat.div32 (totalConfidence faces) (GoFloat.float32_of_int faceCount) in
      if GoFloat.ltb confidence confidence_threshold
      then (false, (issues ++ [issue_low_confidence])%list, confidence)
      else (isValid, issues, confidence)
    else (isValid, issues, confidence) in
  {| IsValid := isValid;
     Issues := issues;
     Validation_Confidence := confidence;
     FaceCount := faceCount |}.

End face_detector.

(* ===================================================================== *)
(** * HTTP responses and the format registry of package image               *)
(* ===================================================================== *)

Module http.

Definition StatusOK : Z := 200.
Definition StatusBadRequest : Z := 400.
Definition StatusInternalServerError : Z := 500.

Record Request := {
  Method : string;
  ReqURL : string;
  Header : list (string * string)
}.

(** What [DownloadImage] reads of a response: [ContentType] is
    [Header.Get("Content-Type")], [ContentLength] is -1 when the length is
    unknown, [Body] holds all the bytes that the body delivers. *)
Record Response := {
  StatusCode : Z;
  Status : string;
  ContentType : string;
  ContentLength : Z;
  Body : string
}.

(** [client.Do]: the network's answer to a request, or the error. *)
Definition Client : Type := Request -> result Response string.

(** [http.NewRequestWithContext] with a valid method and context: fails
    when the URL does not parse. *)
Definition NewRequest `{GoLibs} (method u : string) : option Request :=
  match url_Parse u with
  | None => None
  | Some _ => Some {| Method := method; ReqURL := u; Header := [] |}
  end.

(** [req.Header.Set]. *)
Definition HeaderSet (req : Request) (key value : string) : Request :=
  {| Method := Method req;
     ReqURL := ReqURL req;
     Header := (List.filter (fun kv => negb (String.eqb (fst kv) key)) (Header req)
                ++ [(key, value)])%list |}.

End http.

Module imagefmt.

(** A format registered with [image.RegisterFormat]. *)
Record format := {
  name : string;
  magic : string;
  decode : string -> option image.Image
}.

Inductive DecodeError :=
| ErrFormat                      (* image: unknown format *)
| ErrDecoder (format : string).  (* the error of the format's decoder *)

(** [r.Peek(n)]: the first [n] bytes, when there are that many. *)
Fixpoint Peek (n : nat) (s : string) : option string :=
  match n, s with
  | O, _ => Some EmptyString
  | S k, String c s' =>
      match Peek k s' with
      | Some p => Some (String c p)
      | None => None
      end
  | S _, EmptyString => None
  end.

(** [match]: equal lengths, and each byte equal to the magic's byte unless
    that is a question mark. *)
Fixpoint match_magic (magic b : string) : bool :=
  match magic, b with
  | EmptyString, EmptyString => true
  | String m magic', String c b' =>
      (Ascii.eqb m c || Ascii.eqb m "?"%char) && match_magic magic' b'
  | _, _ => false
  end.

(** [sniff]: the first registered format whose magic matches. *)
Definition sniff (formats : list format) (body : string) : option format :=
  List.find (fun f =>
    match Peek (String.length (magic f)) body with
    | Some b => match_magic (magic f) b
    | None => false
    end) formats.

(** [image.Decode]. *)
Definition Decode (formats : list format) (body : string)
  : result (image.Image * string) DecodeError :=
  match sniff formats body with
  | None => Err ErrFormat
  | Some f =>
      match decode f body with
      | Some m => Ok (m, name f)
      | None => Err (ErrDecoder (name f))
      end
  end.

(** The magic strings that image/jpeg and image/png register. *)
Definition jpeg_magic : string := String "255" (String "216" EmptyString).
Definition png_magic : string :=
  String "137" (String "P" (String "N" (String "G"
    (String "013" (String "010" (String "026" (String "010" EmptyString))))))).

End imagefmt.

(* ===================================================================== *)
(** * Package services: image_downloader.go                                *)
(* ===================================================================== *)

Module image_downloader.

Import models.

Record ImageDownloader := {
  client : http.Client;
  config : config.LimitsConfig
}.

(** The formats registered by the blank imports of image/jpeg and
    image/png. *)
Definition registered_formats `{GoLibs} : list imagefmt.format :=
  [ {| imagefmt.name := "jpeg"; imagefmt.magic := imagefmt.jpeg_magic;
       imagefmt.decode := jpeg_Decode |};
    {| imagefmt.name := "png"; imagefmt.magic := imagefmt.png_magic;
       imagefmt.decode := png_Decode |} ].

Inductive ValidateError :=
| ErrEmptyURL                    (* URL cannot be empty *)
| ErrURLFormat                   (* invalid URL format *)
| ErrScheme (scheme : string)    (* unsupported URL scheme *)
| ErrMissingHost                 (* missing host in URL *)
| ErrPrivateIP.                  (* access to private IP ranges is not allowed *)

Inductive DownloadError :=
| ErrInvalidURL (e : ValidateError)                      (* invalid URL *)
| ErrCreateRequest                                       (* failed to create request *)
| ErrDownload (e : string)                               (* failed to download image *)
| ErrHTTPStatus (code : Z) (status : string)             (* HTTP code: status *)
| ErrContentType (contentType : string)                  (* unsupported content type *)
| ErrImageTooLarge (length max : Z)                      (* image too large *)
| ErrDecodeImage (e : imagefmt.DecodeError)              (* failed to decode image *)
| ErrDimensions (width height maxWidth maxHeight : Z).   (* image dimensions too large *)

Definition privateHosts : list string :=
  ["localhost"; "127.0.0.1"; "0.0.0.0"; "::1"].

(** [isPrivateIP]. *)
Definition isPrivateIP `{GoLibs} (id : ImageDownloader) (host : string) : bool :=
  let host := strings.ToLower host in
  if List.existsb (fun privateHost => strings.Contains host privateHost) privateHosts
  then true
  else if strings.HasPrefix host "10."
          || strings.HasPrefix host "192.168."
          || strings.HasPrefix host "172."
  then true
  else false.

(** [validateURL]: [None] is [nil]. *)
Definition validateURL `{GoLibs} (id : ImageDownloader) (imageURL : string)
  : option ValidateError :=
  if String.eqb imageURL EmptyString then Some ErrEmptyURL
  else
    match url_Parse imageURL with
    | None => Some ErrURLFormat
    | Some parsedURL =>
        if negb (String.eqb (url.Scheme parsedURL) "http")
           && negb (String.eqb (url.Scheme parsedURL) "https")
        then Some (ErrScheme (url.Scheme parsedURL))
        else if String.eqb (url.Host parsedURL) EmptyString then Some ErrMissingHost
        else if isPrivateIP id (url.Host parsedURL) then Some ErrPrivateIP
        else None
    end.

Definition validTypes : list string :=
  ["image/jpeg"; "image/jpg"; "image/png"; "image/gif"; "image/webp"].

(** [isValidImageType]. *)
Definition isValidImageType `{GoLibs} (id : ImageDownloader) (contentType : string) : bool :=
  let contentType := strings.ToLower (List.nth 0 (strings.Split contentType ";") EmptyString) in
  List.existsb (fun validType => String.eqb contentType validType) validTypes.

(** [DownloadImage]. *)
Definition DownloadImage `{GoLibs} (id : ImageDownloader) (imageURL : string)
  : result (image.Image * ImageMetadata) DownloadError :=
  match validateURL id imageURL with
  | Some err => Err (ErrInvalidURL err)
  | None =>
  match http.NewRequest "GET" imageURL with
  | None => Err ErrCreateRequest
  | Some req =>
  let req := http.HeaderSet req "User-Agent" "Face-Recognition-API/1.0" in
  let req := http.HeaderSet req "Accept" "image/jpeg,image/png,image/*" in
  match client id req with
  | Err err => Err (ErrDownload err)
  | Ok resp =>
  if negb (http.StatusCode resp =? http.StatusOK)
  then Err (ErrHTTPStatus (http.StatusCode resp) (http.Status resp))
  else
  let contentType := http.ContentType resp in
  if negb (isValidImageType id contentType)
  then Err (ErrContentType contentType)
  else
  if config.MaxImageSize (config id) <? http.ContentLength resp
  then Err (ErrImageTooLarge (http.ContentLength resp) (config.MaxImageSize (config id)))
  else
  match imagefmt.Decode registered_formats (http.Body resp) with
  | Err err => Err (ErrDecodeImage err)
  | Ok (img, format) =>
  let bounds := image.Rect img in
  let width := image.Dx bounds in
  let height := image.Dy bounds in
  if (config.MaxWidth (config id) <? width) || (config.MaxHeight (config id) <? height)
  then Err (ErrDimensions width height
              (config.MaxWidth (config id)) (config.MaxHeight (config id)))
  else
  let metadata :=
    {| Metadata_Width := width;
       Metadata_Height := height;
       Format := strings.ToUpper format;
       SizeBytes := http.ContentLength resp;
       URL := imageURL |} in
  Ok (img, metadata)
  end
  end
  end
  end.

End image_downloader.

(* ===================================================================== *)
(** * The store of pixel buffers                                           *)
(* ===================================================================== *)

(** Images are handled through pointers: the store maps each allocated
    location to the buffer it holds. A computation on the store returns a
    value and the new store, panics (a nil or dangling pointer), or runs out
    of the fuel given to a loop. *)
Module store.

Abbreviation loc := positive (only parsing).
Abbreviation heap := (gmap positive image.Image) (only parsing).

Inductive outcome (T : Type) : Type :=
| Returns (v : T) (h : heap)
| Panics
| OutOfFuel.

Arguments Returns {T} v h.
Arguments Panics {T}.
Arguments OutOfFuel {T}.

Definition M (T : Type) : Type := heap -> outcome T.

Definition ret {T} (v : T) : M T := fun h => Returns v h.

Definition bind {T U} (m : M T) (k : T -> M U) : M U :=
  fun h =>
    match m h with
    | Returns v h' => k v h'
    | Panics => Panics
    | OutOfFuel => OutOfFuel
    end.

Definition out_of_fuel {T} : M T := fun _ => OutOfFuel.

(** Allocation of a buffer at a location that is not in use. *)
Definition alloc (m : image.Image) : M loc :=
  fun h => let l := fresh (dom h) in Returns l (<[l := m]> h).

Definition load (l : loc) : M image.Image :=
  fun h =>
    match h !! l with
    | Some m => Returns m h
    | None => Panics
    end.

Definition store (l : loc) (m : image.Image) : M unit :=
  fun h =>
    match h !! l with
    | Some _ => Returns tt (<[l := m]> h)
    | None => Panics
    end.

End store.

Notation "'do' x <- m ;;; k" := (store.bind m (fun x => k))
  (at level 10, x name, m at level 99, k at level 200).
Notation "'run' m ;;; k" := (store.bind m (fun _ => k))
  (at level 10, m at level 99, k at level 200).

Module imageops.

Import image store.

(** [img.Bounds()]. *)
Definition Bounds (img : loc) : M Rectangle :=
  do m <- load img ;;; ret (Rect m).

(** [image.NewRGBA(r)]: a new buffer of zero pixels. *)
Definition NewRGBA (r : Rectangle) : M loc :=
  alloc {| Rect := r; Pix := fun _ _ => transparent |}.

(** The method [Set] of an RGBA buffer: nothing happens outside the
    rectangle. *)
Definition RGBA_Set (img : loc) (x y : Z) (c : RGBA) : M unit :=
  do m <- load img ;;;
  if In x y (Rect m)
  then store img {| Rect := Rect m;
                    Pix := fun x' y' => if (x' =? x) && (y' =? y) then c else Pix m x' y' |}
  else ret tt.

(** [draw.Draw(dst, r, src, sp, draw.Src)]: [r] is clipped to the bounds of
    [dst] and to those of [src] moved by [r.Min - sp]; each point of what is
    left receives the colour of its source point. *)
Definition draw_Draw (dst : loc) (r : Rectangle) (src : loc) (sp : Point) : M unit :=
  do d <- load dst ;;;
  do s <- load src ;;;
  store dst
    {| Rect := Rect d;
       Pix := fun x y =>
         let sx := GoInt.add (PX sp) (GoInt.sub x (PX (Min r))) in
         let sy := GoInt.add (PY sp) (GoInt.sub y (PY (Min r))) in
         if In x y r && In x y (Rect d) && In sx sy (Rect s)
         then Pix s sx sy else Pix d x y |}.

End imageops.

(* ===================================================================== *)
(** * Package services: image_processor.go                                 *)
(* ===================================================================== *)

Module image_processor.

Import models image store imageops.

Record CircleOptions := {
  Color : RGBA;
  LineWidth : Z
}.

(** [setPixelSafe]. *)
Definition setPixelSafe (img : loc) (x y : Z) (col : RGBA) : M unit :=
  do bounds <- Bounds img ;;;
  if (PX (Min bounds) <=? x) && (x <? PX (Max bounds))
     && (PY (Min bounds) <=? y) && (y <? PY (Max bounds))
  then RGBA_Set img x y col
  else ret tt.

(** The eight symmetric points drawn in one round of the inner loop. *)
Definition drawEight (img : loc) (centerX centerY x y : Z) (col : RGBA) : M unit :=
  run setPixelSafe img (GoInt.add centerX x) (GoInt.add centerY y) col ;;;
  run setPixelSafe img (GoInt.sub centerX x) (GoInt.add centerY y) col ;;;
  run setPixelSafe img (GoInt.add centerX x) (GoInt.sub centerY y) col ;;;
  run setPixelSafe img (GoInt.sub centerX x) (GoInt.sub centerY y) col ;;;
  run setPixelSafe img (GoInt.add centerX y) (GoInt.add centerY x) col ;;;
  run setPixelSafe img (GoInt.sub centerX y) (GoInt.add centerY x) col ;;;
  run setPixelSafe img (GoInt.add centerX y) (GoInt.sub centerY x) col ;;;
  setPixelSafe img (GoInt.sub centerX y) (GoInt.sub centerY x) col.

(** The loop [for x <= y] of [drawCircle]; [fuel] bounds its rounds. *)
Fixpoint circleLoop (fuel : nat) (img : loc) (centerX centerY : Z) (col : RGBA)
    (x y d : Z) : M unit :=
  if x <=? y then
    match fuel with
    | O => out_of_fuel
    | S fuel' =>
        run drawEight img centerX centerY x y col ;;;
        if d <? 0
        then circleLoop fuel' img centerX centerY col
               (GoInt.add x 1) y (GoInt.add (GoInt.add d (GoInt.mul 4 x)) 6)
        else circleLoop fuel' img centerX centerY col
               (GoInt.add x 1) (GoInt.sub y 1)
               (GoInt.add (GoInt.add d (GoInt.mul 4 (GoInt.sub x y))) 10)
    end
  else ret tt.

(** The radius of the stroke at offset [w]. *)
Definition strokeRadius (radius w lineWidth : Z) : Z :=
  GoInt.sub (GoInt.add radius w) (GoInt.quot lineWidth 2).

(** One round of the loop over [w]. *)
Definition drawStroke (img : loc) (centerX centerY radius : Z) (col : RGBA)
    (lineWidth w : Z) : M unit :=
  let r := strokeRadius radius w lineWidth in
  if r <=? 0 then ret tt
  else
    let x := 0 in
    let y := r in
    let d := GoInt.sub 3 (GoInt.mul 2 r) in
    circleLoop (S (Z.to_nat r)) img centerX centerY col x y d.

(** The loop [for w := 0; w < lineWidth; w++], with [remaining] rounds to
    go from [w]. *)
Fixpoint strokeLoop (remaining : nat) (img : loc) (centerX centerY radius : Z)
    (col : RGBA) (lineWidth w : Z) : M unit :=
  match remaining with
  | O => ret tt
  | S n =>
      run drawStroke img centerX centerY radius col lineWidth w ;;;
      strokeLoop n img centerX centerY radius col lineWidth (GoInt.add w 1)
  end.

(** [drawCircle]. *)
Definition drawCircle (img : loc) (centerX centerY radius : Z) (col : RGBA)
    (lineWidth : Z) : M unit :=
  strokeLoop (Z.to_nat lineWidth) img centerX centerY radius col lineWidth 0.

(** The radius that [DrawFaceCircles] computes for a face. *)
Definition faceRadius (face : Face) : Z :=
  GoFloat.int_of_float64
    (GoFloat.div64
       (GoFloat.math_Max (GoFloat.float64_of_int (Width face))
                         (GoFloat.float64_of_int (Height face)))
       (GoFloat.float64_of_int 2)).

(** The body of the loop over the faces. *)
Definition drawFace (rgba : loc) (opts : CircleOptions) (face : Face) : M unit :=
  let centerX := GoInt.add (X face) (GoInt.quot (Width face) 2) in
  let centerY := GoInt.add (Y face) (GoInt.quot (Height face) 2) in
  let radius := faceRadius face in
  drawCircle rgba centerX centerY radius (Color opts) (LineWidth opts).

Fixpoint drawFaces (rgba : loc) (opts : CircleOptions) (faces : list Face) : M unit :=
  match faces with
  | [] => ret tt
  | face :: faces' => run drawFace rgba opts face ;;; drawFaces rgba opts faces'
  end.

(** [encodeToBase64]: the data URL, or the error of the encoder. *)
Definition encodeToBase64 `{GoLibs} (img : loc) : M (result string string) :=
  do m <- load img ;;;
  match jpeg_Encode m 90 with
  | Err err => ret (Err err)
  | Ok buf => ret (Ok ("data:image/jpeg;base64," ++ base64_EncodeToString buf))
  end.

(** [DrawFaceCircles]: the data URL of the annotated copy, or the error of
    the encoder. *)
Definition DrawFaceCircles `{GoLibs} (img : loc) (faces : list Face) (opts : CircleOptions)
  : M (result string string) :=
  do bounds <- Bounds img ;;;
  do rgba <- NewRGBA bounds ;;;
  run draw_Draw rgba bounds img (Min bounds) ;;;
  run drawFaces rgba opts faces ;;;
  do encoded <- encodeToBase64 rgba ;;;
  ret encoded.

Definition rgba (r g b a : Z) : RGBA := {| R := r; G := g; B := b; A := a |}.

(** [ParseColor]. *)
Definition ParseColor (colorName : string) : RGBA :=
  if String.eqb colorName "red" then rgba 255 0 0 255
  else if String.eqb colorName "green" then rgba 0 255 0 255
  else if String.eqb colorName "blue" then rgba 0 0 255 255
  else if String.eqb colorName "yellow" then rgba 255 255 0 255
  else if String.eqb colorName "white" then rgba 255 255 255 255
  else if String.eqb colorName "black" then rgba 0 0 0 255
  else if String.eqb colorName "orange" then rgba 255 165 0 255
  else if String.eqb colorName "purple" then rgba 128 0 128 255
  else if String.eqb colorName "pink" then rgba 255 192 203 255
  else if String.eqb colorName "cyan" then rgba 0 255 255 255
  else rgba 255 0 0 255.

End image_processor.

(* ===================================================================== *)
(** * Package handlers                                                     *)
(* ===================================================================== *)

Module handlers.

Import models store.

Record FaceHandler := {
  faceDetector : face_detector.FaceDetector;
  imageDownloader : image_downloader.ImageDownloader
}.

(** What a handler writes to the response: an error body with its status,
    or one of the three success bodies (status 200). *)
Inductive Written :=
| ErrorResponse (status : Z) (code message : string)
| DetectionResponse (r : FaceDetectionResponse)
| ValidationResponse (r : SelfieValidationResponse)
| VisualResponse (r : VisualDetectionResponse).

(** [writeErrorResponse]: the error itself is only logged. *)
Definition writeErrorResponse {E : Type} (status : Z) (code message : string)
    (err : option E) : Written :=
  ErrorResponse status code message.

(** [DetectHandler]: [body] is the decoded JSON body ([None] when decoding
    fails), [processingTime] the time measured at the end. *)
Definition DetectHandler `{GoLibs} (h : FaceHandler) (body : option FaceDetectionRequest)
    (processingTime : GoFloat.float64) : Written :=
  match body with
  | None =>
      writeErrorResponse http.StatusBadRequest "INVALID_REQUEST" "Invalid JSON request"
        (Some tt)
  | Some req =>
  if String.eqb (ImageURL req) EmptyString
  then writeErrorResponse (E := unit) http.StatusBadRequest "MISSING_IMAGE_URL"
         "Image URL is required" None
  else
  match image_downloader.DownloadImage (imageDownloader h) (ImageURL req) with
  | Err err =>
      writeErrorResponse http.StatusBadRequest "IMAGE_DOWNLOAD_FAILED"
        "Failed to download image" (Some err)
  | Ok (img, metadata) =>
  match face_detector.DetectFaces (faceDetector h) img with
  | (_, Some err) =>
      writeErrorResponse http.StatusInternalServerError "FACE_DETECTION_FAILED"
        "Face detection failed" (Some err)
  | (faces, None) =>
      DetectionResponse
        {| Faces := faces;
           Count := Z.of_nat (List.length faces);
           Detection_ImageMetadata := metadata;
           ProcessingTimeMs := processingTime |}
  end
  end
  end.

(** [ValidateHandler]. *)
Definition ValidateHandler `{GoLibs} (h : FaceHandler) (body : option SelfieValidationRequest)
    : Written :=
  match body with
  | None =>
      writeErrorResponse http.StatusBadRequest "INVALID_REQUEST" "Invalid JSON request"
        (Some tt)
  | Some req =>
  if String.eqb (Validation_ImageURL req) EmptyString
  then writeErrorResponse (E := unit) http.StatusBadRequest "MISSING_IMAGE_URL"
         "Image URL is required" None
  else
  let minFaces := if MinFaces req =? 0 then 1 else MinFaces req in
  let maxFaces := if MaxFaces req =? 0 then 1 else MaxFaces req in
  match image_downloader.DownloadImage (imageDownloader h) (Validation_ImageURL req) with
  | Err err =>
      writeErrorResponse http.StatusBadRequest "IMAGE_DOWNLOAD_FAILED"
        "Failed to download image" (Some err)
  | Ok (img, _) =>
  match face_detector.DetectFaces (faceDetector h) img with
  | (_, Some err) =>
      writeErrorResponse http.StatusInternalServerError "FACE_DETECTION_FAILED"
        "Face detection failed" (Some err)
  | (faces, None) =>
      ValidationResponse
        (face_detector.ValidateSelfie (faceDetector h) faces minFaces maxFaces)
  end
  end
  end.

(** [DetectVisualHandler]: the decoded image is a buffer of the store. *)
Definition DetectVisualHandler `{GoLibs} (h : FaceHandler)
    (body : option VisualDetectionRequest) (processingTime : GoFloat.float64) : M Written :=
  match body with
  | None =>
      ret (writeErrorResponse http.StatusBadRequest "INVALID_REQUEST" "Invalid JSON request"
             (Some tt))
  | Some req =>
  if String.eqb (Visual_ImageURL req) EmptyString
  then ret (writeErrorResponse (E := unit) http.StatusBadRequest "MISSING_IMAGE_URL"
              "Image URL is required" None)
  else
  let circleColorName :=
    if String.eqb (CircleColor req) EmptyString then "red" else CircleColor req in
  let lineWidth := if LineWidth req =? 0 then 3 else LineWidth req in
  match image_downloader.DownloadImage (imageDownloader h) (Visual_ImageURL req) with
  | Err err =>
      ret (writeErrorResponse http.StatusBadRequest "IMAGE_DOWNLOAD_FAILED"
             "Failed to download image" (Some err))
  | Ok (decoded, metadata) =>
  do img <- alloc decoded ;;;
  match face_detector.DetectFaces (faceDetector h) decoded with
  | (_, Some err) =>
      ret (writeErrorResponse http.StatusInternalServerError "FACE_DETECTION_FAILED"
             "Face detection failed" (Some err))
  | (faces, None) =>
  let circleColor := image_processor.ParseColor circleColorName in
  let circleOpts :=
    {| image_processor.Color := circleColor; image_processor.LineWidth := lineWidth |} in
  do drawn <- image_processor.DrawFaceCircles img faces circleOpts ;;;
  match drawn with
  | Err err =>
      ret (writeErrorResponse http.StatusInternalServerError "IMAGE_PROCESSING_FAILED"
             "Failed to process image" (Some err))
  | Ok imageBase64 =>
      ret (VisualResponse
             {| ImageBase64 := imageBase64;
                Visual_Faces := faces;
                Visual_Count := Z.of_nat (List.length faces);
                Visual_ImageMetadata := metadata;
                Visual_ProcessingTimeMs := processingTime |})
  end
  end
  end
  end.

End handlers.

(* ===================================================================== *)
(** * A small environment to run the services on concrete inputs           *)
(* ===================================================================== *)

(** The theorems below hold for every implementation of the library
    functions. To evaluate the services on concrete requests, this module
    provides one: a URL parser for references of the shape
    [scheme://host/path], case mappings that change ASCII letters only,
    codecs for a two-byte picture format behind the JPEG and PNG magic
    strings, and a classifier that returns a given list of detections and
    clusters nothing. *)
Module sample.

(** [s] without its first [n] bytes. *)
Fixpoint drop (n : nat) (s : string) : string :=
  match n, s with
  | O, _ => s
  | S k, String _ s' => drop k s'
  | S _, EmptyString => EmptyString
  end.

(** [s] cut at the first occurrence of [sep]. *)
Fixpoint cut (sep s cur : string) : option (string * string) :=
  if strings.HasPrefix s sep then Some (cur, drop (String.length sep) s)
  else match s with
       | EmptyString => None
       | String c s' => cut sep s' (cur ++ String c EmptyString)
       end.

Definition parse (s : string) : option url.URL :=
  match cut "://" s EmptyString with
  | Some (scheme, rest) =>
      Some {| url.Scheme := strings.map_bytes strings.lower_byte scheme;
              url.Host := List.nth 0 (strings.Split rest "/") EmptyString |}
  | None => Some {| url.Scheme := EmptyString; url.Host := EmptyString |}
  end.

(** A picture of [w] by [h] zero pixels. *)
Definition blank (w h : Z) : image.Image :=
  {| image.Rect := {| image.Min := {| image.PX := 0; image.PY := 0 |};
                      image.Max := {| image.PX := w; image.PY := h |} |};
     image.Pix := fun _ _ => image.transparent |}.

(** After the magic string, one byte for the width and one for the
    height. *)
Definition decode_after (magic body : string) : option image.Image :=
  match drop (String.length magic) body with
  | String w (String h _) => Some (blank (strings.byte_val w) (strings.byte_val h))
  | _ => None
  end.

Definition libs : GoLibs := {|
  url_Parse := parse;
  unicode_MapToLower := strings.map_bytes strings.lower_byte;
  unicode_MapToUpper := strings.map_bytes strings.upper_byte;
  jpeg_Decode := decode_after imagefmt.jpeg_magic;
  png_Decode := decode_after imagefmt.png_magic;
  jpeg_Encode := fun _ _ => Ok EmptyString;
  base64_EncodeToString := fun s => s;
  pigo_RgbToGrayscale := fun _ => []
|}.

Definition classifier (detections : list pigo.Detection) : pigo.Pigo :=
  {| pigo.RunCascade := fun _ _ => detections;
     pigo.ClusterDetections := fun dets _ => dets |}.

(** The default configuration of [config.Load]: 0.2, 1.1 and 0.6 rounded
    to [float32], and 12. *)
Definition pigoConfig : config.PigoConfig :=
  {| config.MinSize := 25;
     config.MaxSize := 1000;
     config.ShiftFactor := S754_finite false 13421773 (-26);
     config.ScaleFactor := S754_finite false 9227469 (-23);
     config.IoUThreshold := S754_finite false 10066330 (-24);
     config.MinConfidence := GoFloat.float32_of_int 12 |}.

Definition limits : config.LimitsConfig :=
  {| config.MaxImageSize := 5242880;
     config.MaxWidth := 2000;
     config.MaxHeight := 2000;
     config.RateLimit := 100;
     config.RateBurst := 10 |}.

Definition detector (detections : list pigo.Detection) : face_detector.FaceDetector :=
  {| face_detector.classifier := classifier detections;
     face_detector.config := pigoConfig |}.

(** A network that answers every request with [resp]. *)
Definition downloader (resp : http.Response) : image_downloader.ImageDownloader :=
  {| image_downloader.client := fun _ => Ok resp;
     image_downloader.config := limits |}.

(** A response with status 200. *)
Definition response (contentType : string) (contentLength : Z) (body : string)
  : http.Response :=
  {| http.StatusCode := 200;
     http.Status := "200 OK";
     http.ContentType := contentType;
     http.ContentLength := contentLength;
     http.Body := body |}.

(** A body of the JPEG stand-in: 64 by 48 pixels. *)
Definition jpeg_body : string :=
  imagefmt.jpeg_magic ++ String "064" (String "048" EmptyString).

(** The first bytes of a GIF file. *)
Definition gif_body : string := "GIF89a" ++ String "064" (String "048" EmptyString).

End sample.

(* ===================================================================== *)
(** * Notions used to state the properties                                 *)
(* ===================================================================== *)

Module notions.

Import models.

(** ** Detection *)

(** The score comparison [q >= min] of IEEE 754, on the result of the
    comparison. *)
Definition score_at_least (q min : GoFloat.float32) : bool :=
  match SFcompare q min with
  | Some Eq | Some Gt => true
  | _ => false
  end.

(** [face] is the record of the detection [det]: a square of side
    [Scale det] whose corner is half a side, in truncating integer
    division, before the detection's centre, with the detection's score.
    The corner is the value of [col - scale/2] as an [int]. *)
Definition face_matches (det : pigo.Detection) (face : Face) : Prop :=
  Width face = pigo.Scale det
  /\ Height face = pigo.Scale det
  /\ X face = GoInt.wrap (pigo.Col det - Z.quot (pigo.Scale det) 2)
  /\ Y face = GoInt.wrap (pigo.Row det - Z.quot (pigo.Scale det) 2)
  /\ Confidence face = pigo.Q det.

(** The detection and the face of the end-to-end example. *)
Definition example_detection : pigo.Detection :=
  {| pigo.Row := 200; pigo.Col := 300; pigo.Scale := 80;
     pigo.Q := GoFloat.float32_of_int 20 |}.

Definition example_face : Face :=
  {| X := 260; Y := 160; Width := 80; Height := 80;
     Confidence := GoFloat.float32_of_int 20 |}.

(** ** Selfie validation *)

(** The arithmetic mean of a list of [float32] values, computed in
    [float32]: the values are summed from the left, starting from zero,
    and the sum is divided by the number of values. *)
Definition mean32 (values : list GoFloat.float32) : GoFloat.float32 :=
  GoFloat.div32 (List.fold_left GoFloat.add32 values GoFloat.zero)
    (GoFloat.float32_of_int (Z.of_nat (List.length values))).

(** The decimal numeral of an integer, as the verb [%d] prints it. *)
Definition decimal (z : Z) : string := NilZero.string_of_int (Z.to_int z).

(** The value of a finite [float32] in units of 2^-149, the distance
    between the smallest values of the type: an integer. [None] for an
    infinity and for a NaN. *)
Definition units (f : GoFloat.float32) : option Z :=
  match f with
  | S754_zero _ => Some 0
  | S754_finite s m e =>
      if -149 <=? e then Some (cond_Zopp s (Zpos m * 2 ^ (e + 149))) else None
  | _ => None
  end.

(** The sum of the values of a list, in these units and in exact
    arithmetic. *)
Fixpoint total_units (values : list GoFloat.float32) : option Z :=
  match values with
  | [] => Some 0
  | v :: rest =>
      match units v, total_units rest with
      | Some u, Some t => Some (u + t)
      | _, _ => None
      end
  end.

(** [q] is the arithmetic mean of the values, in exact arithmetic: [q]
    times the number of the values is their sum. *)
Definition arithmetic_mean (values : list GoFloat.float32) (q : GoFloat.float32) : Prop :=
  exists u total : Z,
    units q = Some u
    /\ total_units values = Some total
    /\ u * Z.of_nat (List.length values) = total.

(** The [float32] sum of [a] and [b] is their sum: the addition does not
    round. *)
Definition exact_add32 (a b : GoFloat.float32) : Prop :=
  exists ua ub : Z,
    units a = Some ua /\ units b = Some ub
    /\ units (GoFloat.add32 a b) = Some (ua + ub).

(** The [float32] quotient of [a] by the count [n] is their quotient: the
    division does not round. *)
Definition exact_div32 (a : GoFloat.float32) (n : Z) : Prop :=
  exists ua uq : Z,
    units a = Some ua
    /\ units (GoFloat.div32 a (GoFloat.float32_of_int n)) = Some uq
    /\ uq * n = ua.

(** No addition rounds when the values are added to [acc] one after the
    other. *)
Fixpoint adds_exactly (acc : GoFloat.float32) (values : list GoFloat.float32) : Prop :=
  match values with
  | [] => True
  | v :: rest => exact_add32 acc v /\ adds_exactly (GoFloat.add32 acc v) rest
  end.

(** No operation rounds when the mean of the values is computed in
    [float32]: not an addition of the sum from the left, and not the
    division by the number of the values. *)
Definition mean32_exact (values : list GoFloat.float32) : Prop :=
  adds_exactly GoFloat.zero values
  /\ exact_div32 (List.fold_left GoFloat.add32 values GoFloat.zero)
       (Z.of_nat (List.length values)).

(** The issues that a face count [n] raises against the bounds, and
    whether the count is within the bounds. *)
Definition countIssues (n minFaces maxFaces : Z) : list string :=
  if n <? minFaces then
    if n =? 0
    then [face_detector.issue_no_faces; face_detector.issue_dark_or_blurry]
    else [face_detector.issue_too_few n minFaces]
  else if maxFaces <? n then [face_detector.issue_multiple n maxFaces]
  else [].

Definition countOk (n minFaces maxFaces : Z) : bool :=
  negb (n <? minFaces) && negb (maxFaces <? n).

(** ** Hosts *)

(** What the theorems on hosts need of [strings.Map(unicode.ToLower, s)]:
    the empty string stays empty, and a non-empty run [v] of ASCII bytes is
    mapped on its own, byte by byte, wherever it stands. (Runes are decoded
    one after the other, an ASCII byte is a rune by itself and is never
    part of the encoding of another rune.) *)
Definition unicode_lower_law (L : GoLibs) : Prop :=
  unicode_MapToLower EmptyString = EmptyString
  /\ forall a v b : string,
       v <> EmptyString -> strings.isASCII v = true ->
       unicode_MapToLower (a ++ v ++ b)
       = unicode_MapToLower a ++ strings.map_bytes strings.lower_byte v
         ++ unicode_MapToLower b.

(** [s] contains [sub]. *)
Definition contains (s sub : string) : Prop :=
  exists a b : string, s = a ++ sub ++ b.

(** [s] contains [sub] when the case of ASCII letters is ignored: it
    contains a run of bytes that differs from [sub] by the case of ASCII
    letters only. *)
Definition contains_ignoring_case (s sub : string) : Prop :=
  exists a v b : string, s = a ++ v ++ b /\ strings.map_bytes strings.lower_byte v = sub.

(** [s] starts with [prefix]. *)
Definition starts_with (s prefix : string) : Prop :=
  exists rest : string, s = prefix ++ rest.

(** The names and the prefixes of the private or loopback policy. *)
Definition privateNames : list string := ["localhost"; "127.0.0.1"; "0.0.0.0"; "::1"].

Definition privatePrefixes : list string := ["10."; "192.168."; "172."].

(** The private or loopback rules, on a host in lower case: the host
    contains one of the four names or starts with one of the three
    prefixes. *)
Definition private_rule (lowered : string) : Prop :=
  (exists p, List.In p privateNames /\ contains lowered p)
  \/ (exists p, List.In p privatePrefixes /\ starts_with lowered p).

(** ** Formats *)

(** A magic string without a question mark matches only itself. *)
Fixpoint no_wildcard (magic : string) : bool :=
  match magic with
  | EmptyString => true
  | String m magic' => negb (Ascii.eqb m "?"%char) && no_wildcard magic'
  end.

(** ** Buffers *)

(** The coordinates of a rectangle are [int] values. *)
Definition rect_in_range (r : image.Rectangle) : Prop :=
  GoInt.in_range (image.PX (image.Min r)) /\ GoInt.in_range (image.PY (image.Min r))
  /\ GoInt.in_range (image.PX (image.Max r)) /\ GoInt.in_range (image.PY (image.Max r)).

(** The colour at a point of the buffer at a location. *)
Definition pixel (h : gmap positive image.Image) (img : positive) (x y : Z)
  : option image.RGBA :=
  match h !! img with
  | Some m => Some (image.At m x y)
  | None => None
  end.

(** Whether the point [(x, y)] is in a list of points. *)
Definition mem_point (x y : Z) (points : list (Z * Z)) : bool :=
  List.existsb (fun p => (fst p =? x) && (snd p =? y)) points.

(** The store [h'] is [h] with the buffer at [img] painted in colour
    [col] at the points of the list that lie within the bounds of the
    buffer: nothing else differs between the two stores. *)
Definition painted (h : gmap positive image.Image) (img : positive)
    (points : list (Z * Z)) (col : image.RGBA) (h' : gmap positive image.Image) : Prop :=
  exists m m' : image.Image,
    h !! img = Some m
    /\ h' = <[img := m']> h
    /\ image.Rect m' = image.Rect m
    /\ forall x y,
         image.Pix m' x y
         = if image.In x y (image.Rect m) && mem_point x y points
           then col else image.Pix m x y.

(** ** Circle outlines

    The outline of a circle by the integer midpoint algorithm with 8-way
    reflection, as the list of the points it visits. *)

Definition eightPoints (centerX centerY x y : Z) : list (Z * Z) :=
  [ (GoInt.add centerX x, GoInt.add centerY y);
    (GoInt.sub centerX x, GoInt.add centerY y);
    (GoInt.add centerX x, GoInt.sub centerY y);
    (GoInt.sub centerX x, GoInt.sub centerY y);
    (GoInt.add centerX y, GoInt.add centerY x);
    (GoInt.sub centerX y, GoInt.add centerY x);
    (GoInt.add centerX y, GoInt.sub centerY x);
    (GoInt.sub centerX y, GoInt.sub centerY x) ].

(** The points from the step [(x, y)] with decision value [d] on, while
    [x <= y]. *)
Fixpoint circlePoints (fuel : nat) (centerX centerY x y d : Z) : list (Z * Z) :=
  if x <=? y then
    match fuel with
    | O => []
    | S fuel' =>
        (eightPoints centerX centerY x y
         ++ (if d <? 0
             then circlePoints fuel' centerX centerY
                    (GoInt.add x 1) y (GoInt.add (GoInt.add d (GoInt.mul 4 x)) 6)
             else circlePoints fuel' centerX centerY
                    (GoInt.add x 1) (GoInt.sub y 1)
                    (GoInt.add (GoInt.add d (GoInt.mul 4 (GoInt.sub x y))) 10)))%list
    end
  else [].

(** The outline of radius [r > 0]; nothing for [r <= 0]. *)
Definition outlinePoints (centerX centerY r : Z) : list (Z * Z) :=
  if r <=? 0 then []
  else circlePoints (S (Z.to_nat r)) centerX centerY 0 r (GoInt.sub 3 (GoInt.mul 2 r)).

(** The outlines of the strokes at the offsets [w], [w + 1], ... of a
    circle drawn with a line width. *)
Fixpoint strokesPoints (remaining : nat) (centerX centerY radius lineWidth w : Z)
  : list (Z * Z) :=
  match remaining with
  | O => []
  | S n =>
      (outlinePoints centerX centerY (image_processor.strokeRadius radius w lineWidth)
       ++ strokesPoints n centerX centerY radius lineWidth (GoInt.add w 1))%list
  end.

(** The centre that [DrawFaceCircles] computes for a face. *)
Definition faceCenterX (face : Face) : Z := GoInt.add (X face) (GoInt.quot (Width face) 2).
Definition faceCenterY (face : Face) : Z := GoInt.add (Y face) (GoInt.quot (Height face) 2).

(** The points of the circle around a face. *)
Definition faceOutline (opts : image_processor.CircleOptions) (face : Face) : list (Z * Z) :=
  strokesPoints (Z.to_nat (image_processor.LineWidth opts))
    (faceCenterX face) (faceCenterY face) (image_processor.faceRadius face)
    (image_processor.LineWidth opts) 0.

Definition outlines (opts : image_processor.CircleOptions) (faces : list Face)
  : list (Z * Z) :=
  List.flat_map (faceOutline opts) faces.

(** ** Circles

    The offsets [(a, b)] from the centre, with [0 <= a <= b], are within one
    pixel of the circle of radius [r]: the circle crosses the line at
    distance [a] strictly between the distances [b - 1] and [b + 1]. *)
Definition near_circle (r a b : Z) : Prop :=
  a * a + (b - 1) * (b - 1) < r * r < a * a + (b + 1) * (b + 1).

(** The point [(px, py)] is one of the eight reflections of such offsets
    around the centre [(cx, cy)]. *)
Definition on_circle (cx cy r px py : Z) : Prop :=
  exists a b : Z,
    0 <= a <= b /\ b <= r /\ near_circle r a b
    /\ (((px = cx + a \/ px = cx - a) /\ (py = cy + b \/ py = cy - b))
        \/ ((px = cx + b \/ px = cx - b) /\ (py = cy + a \/ py = cy - a))).

(** ** Handlers *)

(** The response of the handlers to a request whose download fails. *)
Definition downloadFailed : handlers.Written :=
  handlers.ErrorResponse 400 "IMAGE_DOWNLOAD_FAILED" "Failed to download image".

(** The codes and messages of the errors with status 400. *)
Definition requestErrors : list (string * string) :=
  [ ("INVALID_REQUEST", "Invalid JSON request");
    ("MISSING_IMAGE_URL", "Image URL is required");
    ("IMAGE_DOWNLOAD_FAILED", "Failed to download image") ].

End notions.

(* ===================================================================== *)
(** * Package config: Load                                                 *)
(* ===================================================================== *)

Module settings.

(** The functions of strconv and time that parse the value of a variable:
    [strconv.Atoi], [strconv.ParseInt(s, 10, 64)],
    [float32(strconv.ParseFloat(s, 32))] and [time.ParseDuration], a
    duration being a number of nanoseconds. [None] stands for a returned
    error. *)
Class ParseLib := {
  Atoi : string -> option Z;
  ParseInt64 : string -> option Z;
  ParseFloat32 : string -> option GoFloat.float32;
  ParseDuration : string -> option Z
}.

(** The environment of the process: [os.Getenv] gives the empty string for
    a variable that is not set. *)
Definition Environ : Type := gmap string string.

Definition Getenv (env : Environ) (key : string) : string :=
  default EmptyString (env !! key).

Record ServerConfig := {
  Port : string;
  ReadTimeout : Z;
  WriteTimeout : Z;
  IdleTimeout : Z
}.

Record Config := {
  Server : ServerConfig;
  Pigo : config.PigoConfig;
  Limits : config.LimitsConfig
}.

(** [time.Second], in nanoseconds. *)
Definition Second : Z := 1000000000.

Section Helpers.

Context `{ParseLib}.

Variable env : Environ.

(** [getEnv]. *)
Definition getEnv (key defaultValue : string) : string :=
  let value := Getenv env key in
  if negb (String.eqb value EmptyString) then value else defaultValue.

(** [getIntEnv]. *)
Definition getIntEnv (key : string) (defaultValue : Z) : Z :=
  let value := Getenv env key in
  if negb (String.eqb value EmptyString) then
    match Atoi value with
    | Some intValue => intValue
    | None => defaultValue
    end
  else defaultValue.

(** [getInt64Env]. *)
Definition getInt64Env (key : string) (defaultValue : Z) : Z :=
  let value := Getenv env key in
  if negb (String.eqb value EmptyString) then
    match ParseInt64 value with
    | Some intValue => intValue
    | None => defaultValue
    end
  else defaultValue.

(** [getFloat32Env]. *)
Definition getFloat32Env (key : string) (defaultValue : GoFloat.float32) : GoFloat.float32 :=
  let value := Getenv env key in
  if negb (String.eqb value EmptyString) then
    match ParseFloat32 value with
    | Some floatValue => floatValue
    | None => defaultValue
    end
  else defaultValue.

(** [getDurationEnv]. *)
Definition getDurationEnv (key : string) (defaultValue : Z) : Z :=
  let value := Getenv env key in
  if negb (String.eqb value EmptyString) then
    match ParseDuration value with
    | Some duration => duration
    | None => defaultValue
    end
  else defaultValue.

(** [Load]; the constants 0.2, 1.1 and 0.6 are rounded to [float32]. *)
Definition Load : Config :=
  {| Server :=
       {| Port := getEnv "PORT" ":8080";
          ReadTimeout := getDurationEnv "READ_TIMEOUT" (GoInt.mul 30 Second);
          WriteTimeout := getDurationEnv "WRITE_TIMEOUT" (GoInt.mul 30 Second);
          IdleTimeout := getDurationEnv "IDLE_TIMEOUT" (GoInt.mul 120 Second) |};
     Pigo :=
       {| config.MinSize := getIntEnv "PIGO_MIN_SIZE" 25;
          config.MaxSize := getIntEnv "PIGO_MAX_SIZE" 1000;
          config.ShiftFactor :=
            getFloat32Env "PIGO_SHIFT_FACTOR" (S754_finite false 13421773 (-26));
          config.ScaleFactor :=
            getFloat32Env "PIGO_SCALE_FACTOR" (S754_finite false 9227469 (-23));
          config.IoUThreshold :=
            getFloat32Env "PIGO_IOU_THRESHOLD" (S754_finite false 10066330 (-24));
          config.MinConfidence :=
            getFloat32Env "PIGO_MIN_CONFIDENCE" (GoFloat.float32_of_int 12) |};
     Limits :=
       {| config.MaxImageSize := getInt64Env "MAX_IMAGE_SIZE" 5242880;
          config.MaxWidth := getIntEnv "MAX_WIDTH" 2000;
          config.MaxHeight := getIntEnv "MAX_HEIGHT" 2000;
          config.RateLimit := getIntEnv "RATE_LIMIT" 100;
          config.RateBurst := getIntEnv "RATE_BURST" 10 |} |}.

End Helpers.

End settings.

(* ===================================================================== *)
(** * The server side of net/http                                          *)
(* ===================================================================== *)

Module server.

(** What the handlers and the middleware read of an incoming request.
    [Header] is [r.Header.Get]: the value of a header, the empty string when
    the request does not carry it. *)
Record Request := {
  Method : string;
  Path : string;
  RawQuery : string;
  Header : string -> string;
  RemoteAddr : string;
  Body : string
}.

(** [r.UserAgent()]. *)
Definition UserAgent (r : Request) : string := Header r "User-Agent".

(** The value of a field of a log entry. *)
Inductive field :=
| Str (s : string)
| Int (z : Z).

(** An entry of the logger: level, message and fields. *)
Record Entry := {
  Level : string;
  Message : string;
  Fields : list (string * field)
}.

(** The interface [http.ResponseWriter], on the state of the writer:
    [Header().Set], [WriteHeader], and [Write] with the number of bytes
    written and the error it returns. The methods of the writer return:
    none of them panics. *)
Class ResponseWriter (W : Type) := {
  Header_Set : string -> string -> W -> W;
  WriteHeader : Z -> W -> W;
  Write : string -> W -> (Z * option string) * W
}.

(** The run of a handler: its calls on the response writer and on the
    logger, in order, until it returns or panics. What follows a [Write]
    may depend on what the writer returned. The value of a panic is given
    as the string that the logger prints for it. *)
Inductive prog (A : Type) : Type :=
| Done (a : A)
| Panic (v : string)
| CallHeaderSet (key value : string) (next : prog A)
| CallWriteHeader (code : Z) (next : prog A)
| CallWrite (b : string) (next : Z -> option string -> prog A)
| CallLog (e : Entry) (next : prog A).

Arguments Done {A} a.
Arguments Panic {A} v.
Arguments CallHeaderSet {A} key value next.
Arguments CallWriteHeader {A} code next.
Arguments CallWrite {A} b next.
Arguments CallLog {A} e next.

Fixpoint bind {A B : Type} (p : prog A) (k : A -> prog B) : prog B :=
  match p with
  | Done a => k a
  | Panic v => Panic v
  | CallHeaderSet key value next => CallHeaderSet key value (bind next k)
  | CallWriteHeader code next => CallWriteHeader code (bind next k)
  | CallWrite b next => CallWrite b (fun n err => bind (next n err) k)
  | CallLog e next => CallLog e (bind next k)
  end.

(** [defer func() { if err := recover(); err != nil { ... } }()] around a
    run: when the run panics, the deferred function runs on the recovered
    value and the surrounding function returns. *)
Fixpoint recover {A : Type} (p : prog A) (deferred : string -> prog A) : prog A :=
  match p with
  | Done a => Done a
  | Panic v => deferred v
  | CallHeaderSet key value next => CallHeaderSet key value (recover next deferred)
  | CallWriteHeader code next => CallWriteHeader code (recover next deferred)
  | CallWrite b next => CallWrite b (fun n err => recover (next n err) deferred)
  | CallLog e next => CallLog e (recover next deferred)
  end.

(** How a run ends on a writer: the state of the writer and the log,
    after a return or at a panic. *)
Inductive outcome (A W : Type) : Type :=
| Returned (a : A) (w : W) (log : list Entry)
| Panicked (v : string) (w : W) (log : list Entry).

Arguments Returned {A W} a w log.
Arguments Panicked {A W} v w log.

Fixpoint exec {A W : Type} `{ResponseWriter W} (p : prog A) (w : W) (log : list Entry)
  : outcome A W :=
  match p with
  | Done a => Returned a w log
  | Panic v => Panicked v w log
  | CallHeaderSet key value next => exec next (Header_Set key value w) log
  | CallWriteHeader code next => exec next (WriteHeader code w) log
  | CallWrite b next =>
      let '(n, err, w') := Write b w in exec (next n err) w' log
  | CallLog e next => exec next w (log ++ [e])%list
  end.

Definition StatusTooManyRequests : Z := 429.

(** [http.Handler]. *)
Definition Handler : Type := Request -> prog unit.

(** The response of net/http to the calls of a handler: the header map
    that [Header()] returns, whether the header has been written, and then
    the status, the headers of the map that are sent and the bytes of the
    body. The first [WriteHeader] fixes the status and the headers, a later
    one changes nothing, and a [Write] before any [WriteHeader] writes the
    header with status 200 first. This is the response to a request other
    than HEAD on a connection that takes every byte, for a handler that
    sets no header but Content-Type and writes only status codes with which
    a response carries a body ([terms.plain]); to the headers sent net/http
    adds its own. *)
Record response := {
  header : gmap string string;
  wroteHeader : bool;
  status : Z;
  sent : gmap string string;
  body : string
}.

Definition response_WriteHeader (code : Z) (w : response) : response :=
  if wroteHeader w then w
  else {| header := header w; wroteHeader := true; status := code;
          sent := header w; body := body w |}.

#[global] Instance response_writer : ResponseWriter response := {|
  Header_Set key value w :=
    {| header := <[key := value]> (header w); wroteHeader := wroteHeader w;
       status := status w; sent := sent w; body := body w |};
  WriteHeader := response_WriteHeader;
  Write b w :=
    let w := response_WriteHeader 200 w in
    (Z.of_nat (String.length b), None,
     {| header := header w; wroteHeader := wroteHeader w; status := status w;
        sent := sent w; body := body w ++ b |})
|}.

(** The response before the handler runs, and what the client has received
    once the handler has returned: a handler that wrote nothing leaves a
    response of status 200. *)
Definition new_response : response :=
  {| header := ∅; wroteHeader := false; status := 0; sent := ∅; body := EmptyString |}.

Definition finish (w : response) : response := response_WriteHeader 200 w.

End server.

(* ===================================================================== *)
(** * encoding/json, as the handlers use it                                *)
(* ===================================================================== *)

Module json.

(** [HealthResponse] of the health handler; the timestamp is a time in
    nanoseconds. *)
Record HealthResponse := {
  Health_Status : string;
  Timestamp : Z;
  Uptime : string;
  Version : string;
  Service : string
}.

(** The Go values that the program hands to the encoder. A map of strings
    is given by its entries; the two maps of the readiness and liveness
    handlers by their members. *)
Inductive value :=
| Map (entries : list (string * string))
| Detection (r : models.FaceDetectionResponse)
| Validation (r : models.SelfieValidationResponse)
| Visual (r : models.VisualDetectionResponse)
| Health (r : HealthResponse)
| Readiness (status : string) (timestamp : Z) (checks : list (string * string))
| Liveness (status : string) (timestamp : Z).

(** [json.Marshal] on these values, and [Decode] of a request body into
    each of the three request types. *)
Class JsonLib := {
  Marshal : value -> result string string;
  Decode_detection : string -> option models.FaceDetectionRequest;
  Decode_validation : string -> option models.SelfieValidationRequest;
  Decode_visual : string -> option models.VisualDetectionRequest
}.

Definition newline : string := String "010" EmptyString.

(** [json.NewEncoder(w).Encode(v)], its error dropped as the handlers do:
    one [Write] of the encoding and a newline, and no call at all when the
    value cannot be encoded. *)
Definition Encode `{JsonLib} (v : value) : server.prog unit :=
  match Marshal v with
  | Ok b => server.CallWrite (b ++ newline) (fun _ _ => server.Done tt)
  | Err _ => server.Done tt
  end.

End json.

(* ===================================================================== *)
(** * golang.org/x/time/rate, as the rate limiter uses it                  *)
(* ===================================================================== *)

Module rate.

(** A limiter of the library: how a new one starts from a rate and a
    burst, and whether it lets an event at a given time pass, which
    changes its state. *)
Class RateLib (Limiter : Type) := {
  NewLimiter : GoFloat.float64 -> Z -> Limiter;
  Allow : Z -> Limiter -> bool * Limiter
}.

End rate.

(* ===================================================================== *)
(** * Package middleware                                                   *)
(* ===================================================================== *)

Module middleware.

Import server.

(** ** logging.go *)

(** [responseWriter]: the wrapped writer, the status code and the size. *)
Record responseWriter (W : Type) := {
  inner : W;
  statusCode : Z;
  size : Z
}.

Arguments inner {W} r.
Arguments statusCode {W} r.
Arguments size {W} r.

(** The methods of [responseWriter]: [WriteHeader] and [Write] as the file
    defines them, [Header] promoted from the embedded writer. *)
#[global] Instance responseWriter_writer {W : Type} `{ResponseWriter W}
  : ResponseWriter (responseWriter W) := {|
  Header_Set key value rw :=
    {| inner := Header_Set key value (inner rw);
       statusCode := statusCode rw; size := size rw |};
  WriteHeader code rw :=
    {| inner := WriteHeader code (inner rw); statusCode := code; size := size rw |};
  Write b rw :=
    let '(n, err, w) := Write b (inner rw) in
    (n, err, {| inner := w; statusCode := statusCode rw; size := GoInt.add (size rw) n |})
|}.

(** The run of [next] on the wrapper around the writer of the caller, as a
    run on the caller's writer: each call of [next] reaches that writer
    through the method of the wrapper, which keeps the status code and the
    size; the run ends with their last values. *)
Fixpoint wrapped {A : Type} (p : prog A) (statusCode size : Z) : prog (A * (Z * Z)) :=
  match p with
  | Done a => Done (a, (statusCode, size))
  | Panic v => Panic v
  | CallHeaderSet key value next => CallHeaderSet key value (wrapped next statusCode size)
  | CallWriteHeader code next => CallWriteHeader code (wrapped next code size)
  | CallWrite b next =>
      CallWrite b (fun n err => wrapped (next n err) statusCode (GoInt.add size n))
  | CallLog e next => CallLog e (wrapped next statusCode size)
  end.

(** The entry that [LoggingMiddleware] logs. *)
Definition requestEntry (r : Request) (statusCode size duration_ms : Z) : Entry :=
  {| Level := "info";
     Message := "HTTP request processed";
     Fields := [ ("method", Str (Method r));
                 ("path", Str (Path r));
                 ("query", Str (RawQuery r));
                 ("status", Int statusCode);
                 ("size", Int size);
                 ("duration_ms", Int duration_ms);
                 ("user_agent", Str (UserAgent r));
                 ("remote_addr", Str (RemoteAddr r)) ] |}.

(** [LoggingMiddleware]: [duration_ms] is the time measured around the
    call of [next]. *)
Definition LoggingMiddleware (duration_ms : Z) (next : Handler) : Handler :=
  fun r =>
    bind (wrapped (next r) http.StatusOK 0) (fun '(_, (statusCode, size)) =>
      CallLog (requestEntry r statusCode size duration_ms) (Done tt)).

(** ** recovery.go *)

(** The entry that [RecoveryMiddleware] logs for a recovered panic;
    [stack] is the stack trace. *)
Definition panicEntry (r : Request) (err stack : string) : Entry :=
  {| Level := "error";
     Message := "Panic recovered";
     Fields := [ ("error", Str err);
                 ("method", Str (Method r));
                 ("path", Str (Path r));
                 ("stack", Str stack);
                 ("user_agent", Str (UserAgent r));
                 ("remote_addr", Str (RemoteAddr r)) ] |}.

(** The deferred function of [RecoveryMiddleware], on a recovered value. *)
Definition recovered `{json.JsonLib} (stack : string) (r : Request) (err : string)
  : prog unit :=
  CallLog (panicEntry r err stack)
    (CallHeaderSet "Content-Type" "application/json"
       (CallWriteHeader http.StatusInternalServerError
          (let errorResponse :=
             json.Map [ ("error", "Internal server error"); ("code", "INTERNAL_ERROR") ] in
           json.Encode errorResponse))).

(** [RecoveryMiddleware]. *)
Definition RecoveryMiddleware `{json.JsonLib} (stack : string) (next : Handler) : Handler :=
  fun r => recover (next r) (recovered stack r).

(** ** ratelimit.go *)

(** [RateLimiter]: the map holds pointers to limiters. *)
Record RateLimiter := {
  limiters : gmap string positive;
  rate : GoFloat.float64;
  burst : Z
}.

(** [NewRateLimiter]. *)
Definition NewRateLimiter (r : GoFloat.float64) (b : Z) : RateLimiter :=
  {| limiters := ∅; rate := r; burst := b |}.

Section Limiters.

Context {Limiter : Type} `{rate.RateLib Limiter}.

(** The rate limiter and the limiters that its pointers refer to. The
    lock of the rate limiter makes each call of [getLimiter] one step, and
    so does the lock of a limiter for [Allow]. *)
Record State := {
  rl : RateLimiter;
  heap : gmap positive Limiter
}.

(** [getLimiter]: the pointer for the key, and the state after the call. *)
Definition getLimiter (key : string) (st : State) : positive * State :=
  match limiters (rl st) !! key with
  | Some limiter => (limiter, st)
  | None =>
      let limiter := fresh (dom (heap st)) in
      (limiter,
       {| rl := {| limiters := <[key := limiter]> (limiters (rl st));
                   rate := rate (rl st); burst := burst (rl st) |};
          heap := <[limiter := rate.NewLimiter (rate (rl st)) (burst (rl st))]> (heap st) |})
  end.

(** [limiter.Allow()] through the pointer, at time [now]: [None] when the
    pointer refers to no limiter. *)
Definition Allow (limiter : positive) (now : Z) (st : State) : option (bool * State) :=
  match heap st !! limiter with
  | Some l =>
      let '(ok, l') := rate.Allow now l in
      Some (ok, {| rl := rl st; heap := <[limiter := l']> (heap st) |})
  | None => None
  end.

(** [getClientIP]. *)
Definition getClientIP (r : Request) : string :=
  let xff := Header r "X-Forwarded-For" in
  if negb (String.eqb xff EmptyString) then xff
  else
    let xri := Header r "X-Real-IP" in
    if negb (String.eqb xri EmptyString) then xri
    else RemoteAddr r.

(** The answer of the middleware to a request over the limit. *)
Definition tooManyRequests `{json.JsonLib} : prog unit :=
  CallHeaderSet "Content-Type" "application/json"
    (CallWriteHeader StatusTooManyRequests
       (let errorResponse :=
          json.Map [ ("error", "Too many requests"); ("code", "RATE_LIMIT_EXCEEDED") ] in
        json.Encode errorResponse)).

(** [Middleware], for a request that arrives at time [now]: the run of the
    handler and the state it leaves. *)
Definition Middleware `{json.JsonLib} (next : Handler) (r : Request) (now : Z) (st : State)
  : prog unit * State :=
  let key := getClientIP r in
  let '(limiter, st) := getLimiter key st in
  match Allow limiter now st with
  | None => (Panic "invalid memory address or nil pointer dereference", st)
  | Some (allowed, st) =>
      if negb allowed then (tooManyRequests, st)
      else (next r, st)
  end.

End Limiters.

End middleware.

(* ===================================================================== *)
(** * Package handlers: what the handlers write                            *)
(* ===================================================================== *)

(** The handlers as runs on the response writer. The entries that the
    handlers and the services log themselves are left out: they change
    nothing of the response. *)

Module endpoints.

Import server.

(** [writeErrorResponse], as calls on the response writer. *)
Definition writeErrorResponse `{json.JsonLib} (status : Z) (code message : string)
  : prog unit :=
  CallHeaderSet "Content-Type" "application/json"
    (CallWriteHeader status
       (let errorResp := json.Map [ ("error", message); ("code", code) ] in
        json.Encode errorResp)).

(** The last lines of a handler that succeeds: the content type, and the
    encoding of the response. *)
Definition writeResponse `{json.JsonLib} (response : json.value) : prog unit :=
  CallHeaderSet "Content-Type" "application/json" (json.Encode response).

(** The calls by which a handler writes its response. *)
Definition write `{json.JsonLib} (w : handlers.Written) : prog unit :=
  match w with
  | handlers.ErrorResponse status code message => writeErrorResponse status code message
  | handlers.DetectionResponse r => writeResponse (json.Detection r)
  | handlers.ValidationResponse r => writeResponse (json.Validation r)
  | handlers.VisualResponse r => writeResponse (json.Visual r)
  end.

(** [DetectHandler] on a request. *)
Definition DetectHandler `{GoLibs} `{json.JsonLib} (h : handlers.FaceHandler)
    (processingTime : GoFloat.float64) : Handler :=
  fun r => write (handlers.DetectHandler h (json.Decode_detection (Body r)) processingTime).

(** [ValidateHandler] on a request. *)
Definition ValidateHandler `{GoLibs} `{json.JsonLib} (h : handlers.FaceHandler) : Handler :=
  fun r => write (handlers.ValidateHandler h (json.Decode_validation (Body r))).

(** [DetectVisualHandler] on a request: the buffers of the request live in
    a store of their own. A dereference of a missing buffer is a panic,
    and so is a loop that does not end within its fuel. *)
Definition DetectVisualHandler `{GoLibs} `{json.JsonLib} (h : handlers.FaceHandler)
    (processingTime : GoFloat.float64) : Handler :=
  fun r =>
    match handlers.DetectVisualHandler h (json.Decode_visual (Body r)) processingTime ∅ with
    | store.Returns w _ => write w
    | store.Panics => Panic "invalid memory address or nil pointer dereference"
    | store.OutOfFuel => Panic "out of fuel"
    end.

(** ** health.go *)

Record HealthHandler := { startTime : Z }.

(** [HealthHandler]: [uptime] is what [time.Since(h.startTime)] gives,
    [now] the time of the timestamp, and [format] is [Duration.String]. *)
Definition Health `{json.JsonLib} (h : HealthHandler) (uptime now : Z) (format : Z -> string)
  : Handler :=
  fun r =>
    let response :=
      {| json.Health_Status := "healthy";
         json.Timestamp := now;
         json.Uptime := format uptime;
         json.Version := "1.0.0";
         json.Service := "face-recognition-api" |} in
    CallHeaderSet "Content-Type" "application/json"
      (CallWriteHeader http.StatusOK (json.Encode (json.Health response))).

(** [ReadinessHandler]. *)
Definition Readiness `{json.JsonLib} (h : HealthHandler) (now : Z) : Handler :=
  fun r =>
    let response :=
      json.Readiness "ready" now [ ("pigo", "ok"); ("memory", "ok"); ("disk", "ok") ] in
    CallHeaderSet "Content-Type" "application/json"
      (CallWriteHeader http.StatusOK (json.Encode response)).

(** [LivenessHandler]. *)
Definition Liveness `{json.JsonLib} (h : HealthHandler) (now : Z) : Handler :=
  fun r =>
    let response := json.Liveness "alive" now in
    CallHeaderSet "Content-Type" "application/json"
      (CallWriteHeader http.StatusOK (json.Encode response)).

End endpoints.

(* ===================================================================== *)
(** * cmd/api/main.go: the routes and the middleware around them           *)
(* ===================================================================== *)

Module api.

Import server.

(** A JSON object of string members, written out. *)
Definition quote : string := String "034" EmptyString.

Fixpoint members (entries : list (string * string)) : string :=
  match entries with
  | [] => EmptyString
  | [(k, v)] => quote ++ k ++ quote ++ ":" ++ quote ++ v ++ quote
  | (k, v) :: rest =>
      quote ++ k ++ quote ++ ":" ++ quote ++ v ++ quote ++ "," ++ members rest
  end.

Definition object (entries : list (string * string)) : string :=
  "{" ++ members entries ++ "}".

(** The handler of the root endpoint. *)
Definition root : Handler :=
  fun r =>
    CallHeaderSet "Content-Type" "application/json"
      (CallWriteHeader http.StatusOK
         (CallWrite
            (object [ ("service", "face-recognition-api"); ("version", "1.0.0");
                      ("status", "running") ])
            (fun _ _ => Done tt))).

(** What the clocks and the runtime give to the run of one request: the
    uptime and the time read by the health handlers, the processing time
    and the duration that the handlers and the logging middleware measure,
    the stack trace of a panic, and [Duration.String]. *)
Record Clock := {
  uptime : Z;
  now : Z;
  processingTime : GoFloat.float64;
  duration_ms : Z;
  stack : string;
  format : Z -> string
}.

(** The routes of [main], but for /metrics, whose handler belongs to the
    Prometheus client: method, path and handler. *)
Definition routes `{GoLibs} `{json.JsonLib} (faceHandler : handlers.FaceHandler)
    (healthHandler : endpoints.HealthHandler) (c : Clock)
  : list (string * string * Handler) :=
  [ ("POST", "/api/v1/detect", endpoints.DetectHandler faceHandler (processingTime c));
    ("POST", "/api/v1/validate", endpoints.ValidateHandler faceHandler);
    ("POST", "/api/v1/detect-visual",
       endpoints.DetectVisualHandler faceHandler (processingTime c));
    ("GET", "/api/v1/health", endpoints.Health healthHandler (uptime c) (now c) (format c));
    ("GET", "/api/v1/ready", endpoints.Readiness healthHandler (now c));
    ("GET", "/api/v1/live", endpoints.Liveness healthHandler (now c));
    ("GET", "/", root) ].

(** The middleware that [router.Use] puts around the handler of a route:
    the first one added is the outermost. *)
Definition use `{json.JsonLib} (c : Clock) (h : Handler) : Handler :=
  middleware.LoggingMiddleware (duration_ms c) (middleware.RecoveryMiddleware (stack c) h).

End api.

(* ===================================================================== *)
(** * More of the small environment: requests, encoder, limiter            *)
(* ===================================================================== *)

Module fixtures.

(** An encoder that writes the same two bytes for every value, and a
    decoder that reads the whole body as the URL of the image. *)
Definition jsonlib : json.JsonLib := {|
  json.Marshal := fun _ => Ok "{}";
  json.Decode_detection := fun s => Some {| models.ImageURL := s |};
  json.Decode_validation := fun s =>
    Some {| models.Validation_ImageURL := s; models.MinFaces := 0; models.MaxFaces := 0 |};
  json.Decode_visual := fun s =>
    Some {| models.Visual_ImageURL := s; models.CircleColor := EmptyString;
            models.LineWidth := 0 |}
|}.

(** A request without headers from the address 192.0.2.1, and the same
    request with a forwarding header. *)
Definition request (method path body : string) : server.Request :=
  {| server.Method := method; server.Path := path; server.RawQuery := EmptyString;
     server.Header := fun _ => EmptyString; server.RemoteAddr := "192.0.2.1:4711";
     server.Body := body |}.

Definition forwarded (xff : string) (r : server.Request) : server.Request :=
  {| server.Method := server.Method r; server.Path := server.Path r;
     server.RawQuery := server.RawQuery r;
     server.Header := fun key =>
       if String.eqb key "X-Forwarded-For" then xff else server.Header r key;
     server.RemoteAddr := server.RemoteAddr r; server.Body := server.Body r |}.

(** A limiter that lets [burst] events pass and refills nothing. *)
#[global] Instance bucket : rate.RateLib Z := {|
  rate.NewLimiter := fun _ b => b;
  rate.Allow := fun _ tokens => if 0 <? tokens then (true, tokens - 1) else (false, tokens)
|}.

(** Clocks that stand still. *)
Definition clock : api.Clock :=
  {| api.uptime := 0; api.now := 0; api.processingTime := GoFloat.zero;
     api.duration_ms := 0; api.stack := "goroutine 1 [running]";
     api.format := fun _ => "0s" |}.

(** The face handler of the sample environment: a classifier that finds
    the given detections, behind a network that answers with the JPEG
    stand-in. *)
Definition faceHandler (detections : list pigo.Detection) : handlers.FaceHandler :=
  {| handlers.faceDetector := sample.detector detections;
     handlers.imageDownloader :=
       sample.downloader (sample.response "image/jpeg" 4 sample.jpeg_body) |}.

End fixtures.

(* ===================================================================== *)
(** * Further notions used to state the properties                         *)
(* ===================================================================== *)

Module terms.

Import server.

(** ** Content types *)

(** The byte [c] does not occur in [s]. *)
Fixpoint free_of (c : ascii) (s : string) : bool :=
  match s with
  | EmptyString => true
  | String x s' => negb (Ascii.eqb x c) && free_of c s'
  end.

(** The five media types of the pictures that the service takes. *)
Definition imageTypes : list string :=
  ["image/jpeg"; "image/jpg"; "image/png"; "image/gif"; "image/webp"].

(** [t] is the media type of the header value [contentType]: what stands
    before its first semicolon, or all of it when it has none. *)
Definition media_type (contentType t : string) : Prop :=
  free_of ";" t = true
  /\ (contentType = t \/ exists params, contentType = t ++ ";" ++ params).

(** ** Downloads *)

(** The request that [DownloadImage] builds for a URL. *)
Definition download_request (imageURL : string) : http.Request :=
  {| http.Method := "GET";
     http.ReqURL := imageURL;
     http.Header := [ ("User-Agent", "Face-Recognition-API/1.0");
                      ("Accept", "image/jpeg,image/png,image/*") ] |}.

(** A downloader with another client. *)
Definition with_client (id : image_downloader.ImageDownloader) (c : http.Client)
  : image_downloader.ImageDownloader :=
  {| image_downloader.client := c;
     image_downloader.config := image_downloader.config id |}.

(** ** Requests *)

(** The value that a handler uses for an integer field of a request: the
    default when the field is zero (or absent from the JSON body). *)
Definition or_default (value default : Z) : Z := if value =? 0 then default else value.

(** ** Symmetry *)

(** The mirror image of the coordinate [p] about the coordinate [c], as an
    [int]: [2c - p]. *)
Definition mirror (c p : Z) : Z := GoInt.wrap (2 * c - p).

(** The image of a point under the exchange of the two axes about the
    centre [(cx, cy)]: [(cx + (py - cy), cy + (px - cx))]. *)
Definition transpose (cx cy : Z) (p : Z * Z) : Z * Z :=
  (GoInt.wrap (cx + (snd p - cy)), GoInt.wrap (cy + (fst p - cx))).

(** A list of points is symmetric about the centre [(cx, cy)]: with a point
    it holds its mirror images about the vertical and the horizontal axis
    through the centre and its image under the exchange of the axes. *)
Definition symmetric (cx cy : Z) (points : list (Z * Z)) : Prop :=
  forall px py,
    List.In (px, py) points ->
    List.In (mirror cx px, py) points
    /\ List.In (px, mirror cy py) points
    /\ List.In (transpose cx cy (px, py)) points.

(** ** Configuration *)

(** The names of the variables that [Load] reads. *)
Definition variables : list string :=
  [ "PORT"; "READ_TIMEOUT"; "WRITE_TIMEOUT"; "IDLE_TIMEOUT";
    "PIGO_MIN_SIZE"; "PIGO_MAX_SIZE"; "PIGO_SHIFT_FACTOR"; "PIGO_SCALE_FACTOR";
    "PIGO_IOU_THRESHOLD"; "PIGO_MIN_CONFIDENCE";
    "MAX_IMAGE_SIZE"; "MAX_WIDTH"; "MAX_HEIGHT"; "RATE_LIMIT"; "RATE_BURST" ].

(** The variables by the parser that reads them: [time.ParseDuration],
    [strconv.Atoi] and [strconv.ParseFloat]; MAX_IMAGE_SIZE is read by
    [strconv.ParseInt] and PORT is taken as it is. *)
Definition durationVariables : list string :=
  [ "READ_TIMEOUT"; "WRITE_TIMEOUT"; "IDLE_TIMEOUT" ].

Definition intVariables : list string :=
  [ "PIGO_MIN_SIZE"; "PIGO_MAX_SIZE"; "MAX_WIDTH"; "MAX_HEIGHT"; "RATE_LIMIT"; "RATE_BURST" ].

Definition floatVariables : list string :=
  [ "PIGO_SHIFT_FACTOR"; "PIGO_SCALE_FACTOR"; "PIGO_IOU_THRESHOLD"; "PIGO_MIN_CONFIDENCE" ].

(** The parser of the variable [key] rejects [value]. *)
Definition rejected `{settings.ParseLib} (key value : string) : Prop :=
  (List.In key durationVariables /\ settings.ParseDuration value = None)
  \/ (List.In key intVariables /\ settings.Atoi value = None)
  \/ (key = "MAX_IMAGE_SIZE" /\ settings.ParseInt64 value = None)
  \/ (List.In key floatVariables /\ settings.ParseFloat32 value = None).

(** The value of a setting: a text, a number, a fraction, or a duration in
    nanoseconds. *)
Inductive setting :=
| Text (s : string)
| Number (z : Z)
| Fraction (f : GoFloat.float32)
| Span (d : Z).

(** The setting of the configuration that a variable stands for. *)
Definition setting_of (key : string) (c : settings.Config) : option setting :=
  let server := settings.Server c in
  let pigo := settings.Pigo c in
  let limits := settings.Limits c in
  if String.eqb key "PORT" then Some (Text (settings.Port server))
  else if String.eqb key "READ_TIMEOUT" then Some (Span (settings.ReadTimeout server))
  else if String.eqb key "WRITE_TIMEOUT" then Some (Span (settings.WriteTimeout server))
  else if String.eqb key "IDLE_TIMEOUT" then Some (Span (settings.IdleTimeout server))
  else if String.eqb key "PIGO_MIN_SIZE" then Some (Number (config.MinSize pigo))
  else if String.eqb key "PIGO_MAX_SIZE" then Some (Number (config.MaxSize pigo))
  else if String.eqb key "PIGO_SHIFT_FACTOR" then Some (Fraction (config.ShiftFactor pigo))
  else if String.eqb key "PIGO_SCALE_FACTOR" then Some (Fraction (config.ScaleFactor pigo))
  else if String.eqb key "PIGO_IOU_THRESHOLD"
  then Some (Fraction (config.IoUThreshold pigo))
  else if String.eqb key "PIGO_MIN_CONFIDENCE"
  then Some (Fraction (config.MinConfidence pigo))
  else if String.eqb key "MAX_IMAGE_SIZE" then Some (Number (config.MaxImageSize limits))
  else if String.eqb key "MAX_WIDTH" then Some (Number (config.MaxWidth limits))
  else if String.eqb key "MAX_HEIGHT" then Some (Number (config.MaxHeight limits))
  else if String.eqb key "RATE_LIMIT" then Some (Number (config.RateLimit limits))
  else if String.eqb key "RATE_BURST" then Some (Number (config.RateBurst limits))
  else None.

(** The configuration when no variable is set: 30 s, 30 s and 120 s in
    nanoseconds, and the defaults of the detector and of the limits. *)
Definition defaults : settings.Config :=
  {| settings.Server :=
       {| settings.Port := ":8080";
          settings.ReadTimeout := 30000000000;
          settings.WriteTimeout := 30000000000;
          settings.IdleTimeout := 120000000000 |};
     settings.Pigo := sample.pigoConfig;
     settings.Limits := sample.limits |}.

(** ** Runs *)

(** A run never calls [WriteHeader]. *)
Inductive no_WriteHeader {A : Type} : prog A -> Prop :=
| nwh_Done a : no_WriteHeader (Done a)
| nwh_Panic v : no_WriteHeader (Panic v)
| nwh_HeaderSet key value next :
    no_WriteHeader next -> no_WriteHeader (CallHeaderSet key value next)
| nwh_Write b next :
    (forall n err, no_WriteHeader (next n err)) -> no_WriteHeader (CallWrite b next)
| nwh_Log e next : no_WriteHeader next -> no_WriteHeader (CallLog e next).

(** A run calls [WriteHeader] at most once, and not after a [Write]. *)
Inductive orderly {A : Type} : prog A -> Prop :=
| ord_Done a : orderly (Done a)
| ord_Panic v : orderly (Panic v)
| ord_HeaderSet key value next : orderly next -> orderly (CallHeaderSet key value next)
| ord_WriteHeader code next : no_WriteHeader next -> orderly (CallWriteHeader code next)
| ord_Write b next :
    (forall n err, no_WriteHeader (next n err)) -> orderly (CallWrite b next)
| ord_Log e next : orderly next -> orderly (CallLog e next).

(** The status codes that net/http takes as the status of a response with
    a body: those from 200 to 999, but for 204 and 304. *)
Definition carries_body (code : Z) : bool :=
  (200 <=? code) && (code <=? 999) && negb (code =? 204) && negb (code =? 304).

(** A run within the reach of [server.response]: it sets no header but
    Content-Type, and it writes no status code but those of a response with
    a body. *)
Inductive plain {A : Type} : prog A -> Prop :=
| plain_Done a : plain (Done a)
| plain_Panic v : plain (Panic v)
| plain_HeaderSet value next : plain next -> plain (CallHeaderSet "Content-Type" value next)
| plain_WriteHeader code next :
    carries_body code = true -> plain next -> plain (CallWriteHeader code next)
| plain_Write b next : (forall n err, plain (next n err)) -> plain (CallWrite b next)
| plain_Log e next : plain next -> plain (CallLog e next).

(** The wrapper of the logging middleware around a writer, as the
    middleware creates it. *)
Definition wrapper {W : Type} (w : W) : middleware.responseWriter W :=
  {| middleware.inner := w; middleware.statusCode := http.StatusOK; middleware.size := 0 |}.

(** The writer and the log at the end of a run. *)
Definition writer_of {A W : Type} (o : outcome A W) : W :=
  match o with
  | Returned _ w _ | Panicked _ w _ => w
  end.

Definition log_of {A W : Type} (o : outcome A W) : list Entry :=
  match o with
  | Returned _ _ log | Panicked _ _ log => log
  end.

(** The value that the recovery middleware encodes. *)
Definition internalError : json.value :=
  json.Map [ ("error", "Internal server error"); ("code", "INTERNAL_ERROR") ].

(** The bytes that [Encode] writes for a value: none when the value cannot
    be encoded. *)
Definition encoded `{json.JsonLib} (v : json.value) : string :=
  match json.Marshal v with
  | Ok b => b ++ json.newline
  | Err _ => EmptyString
  end.

(** The runs by which the handlers of the program answer: the content
    type, then a status (200 when none is written), then at most one
    [Write]. *)
Inductive reply `{json.JsonLib} : prog unit -> Z -> Prop :=
| reply_value (v : json.value) :
    reply (CallHeaderSet "Content-Type" "application/json" (json.Encode v)) 200
| reply_status (code : Z) (v : json.value) :
    reply (CallHeaderSet "Content-Type" "application/json"
             (CallWriteHeader code (json.Encode v))) code
| reply_bytes (code : Z) (b : string) :
    reply (CallHeaderSet "Content-Type" "application/json"
             (CallWriteHeader code (CallWrite b (fun _ _ => Done tt)))) code.

(** ** Rate limiting *)

Section Limiters.

Context {Limiter : Type} `{rate.RateLib Limiter} `{json.JsonLib}.

(** The limiter that the rate limiter holds for a key. *)
Definition limiter_of (st : middleware.State (Limiter := Limiter)) (key : string)
  : option Limiter :=
  match middleware.limiters (middleware.rl st) !! key with
  | Some l => middleware.heap st !! l
  | None => None
  end.

(** Every pointer of the map refers to a limiter, and no two keys share
    one. *)
Definition consistent (st : middleware.State (Limiter := Limiter)) : Prop :=
  (forall key l,
      middleware.limiters (middleware.rl st) !! key = Some l ->
      is_Some (middleware.heap st !! l))
  /\ (forall k1 k2 l,
         middleware.limiters (middleware.rl st) !! k1 = Some l ->
         middleware.limiters (middleware.rl st) !! k2 = Some l ->
         k1 = k2).

(** The state of a rate limiter that [NewRateLimiter] has just made. *)
Definition initial (r : GoFloat.float64) (b : Z) : middleware.State (Limiter := Limiter) :=
  {| middleware.rl := middleware.NewRateLimiter r b; middleware.heap := ∅ |}.

(** The requests of a list, each with its time of arrival, through the
    middleware one after the other: the state at the end. *)
Fixpoint served (next : Handler) (requests : list (Request * Z))
    (st : middleware.State (Limiter := Limiter)) : middleware.State (Limiter := Limiter) :=
  match requests with
  | [] => st
  | (r, now) :: rest => served next rest (snd (middleware.Middleware next r now st))
  end.

(** The times of the requests of a list that count for a key. *)
Definition times_of (key : string) (requests : list (Request * Z)) : list Z :=
  List.map snd
    (List.filter (fun q => String.eqb (middleware.getClientIP (fst q)) key) requests).

(** A limiter after the events at the given times. *)
Definition after (times : list Z) (l : Limiter) : Limiter :=
  List.fold_left (fun l now => snd (rate.Allow now l)) times l.

End Limiters.

End terms.


(* ===================================================================== *)
(** * Properties                                                           *)
(* ===================================================================== *)

(** ** Integers *)

Lemma wrap_in_range (z : Z) : GoInt.in_range (GoInt.wrap z).
Proof.
  unfold GoInt.in_range, GoInt.wrap, GoInt.MinInt, GoInt.MaxInt.
  pose proof (Z.mod_pos_bound (z + 2 ^ 63) (2 ^ 64)). lia.
Qed.

Lemma wrap_id (z : Z) : GoInt.in_range z -> GoInt.wrap z = z.
Proof.
  unfold GoInt.in_range, GoInt.wrap, GoInt.MinInt, GoInt.MaxInt. intros Hz.
  rewrite Z.mod_small by lia. lia.
Qed.

Lemma wrap_sub_wrap_r (a b : Z) : GoInt.wrap (a - GoInt.wrap b) = GoInt.wrap (a - b).
Proof.
  unfold GoInt.wrap. f_equal.
  replace (a - ((b + 2 ^ 63) mod 2 ^ 64 - 2 ^ 63) + 2 ^ 63)
    with ((a + 2 ^ 64) - (b + 2 ^ 63) mod 2 ^ 64) by lia.
  rewrite Zminus_mod_idemp_r. f_equal. lia.
Qed.

(** ** Detection: from detections to faces *)

Section DetectFaces.

Context `{GoLibs}.
Import models face_detector.

Lemma toFace_X (det : pigo.Detection) :
  X (toFace det) = GoInt.wrap (pigo.Col det - Z.quot (pigo.Scale det) 2).
Proof. cbn. unfold GoInt.sub, GoInt.quot. apply wrap_sub_wrap_r. Qed.

Lemma toFace_Y (det : pigo.Detection) :
  Y (toFace det) = GoInt.wrap (pigo.Row det - Z.quot (pigo.Scale det) 2).
Proof. cbn. unfold GoInt.sub, GoInt.quot. apply wrap_sub_wrap_r. Qed.

Lemma DetectFaces_eq (fd : FaceDetector) (img : image.Image) :
  DetectFaces fd img = (List.map toFace (List.filter (keeps fd) (clustered fd img)), None).
Proof. reflexivity. Qed.

Lemma toFace_matches (det : pigo.Detection) : notions.face_matches det (toFace det).
Proof.
  unfold notions.face_matches. rewrite toFace_X, toFace_Y. cbn. tauto.
Qed.

Lemma keeps_score_at_least (fd : FaceDetector) (det : pigo.Detection) :
  keeps fd det = notions.score_at_least (pigo.Q det) (config.MinConfidence (config fd)).
Proof.
  unfold keeps, GoFloat.geb, notions.score_at_least.
  destruct (SFcompare _ _) as [[]|]; reflexivity.
Qed.

Lemma filter_keeps (fd : FaceDetector) (dets : list pigo.Detection) :
  List.filter (keeps fd) dets
  = List.filter
      (fun det => notions.score_at_least (pigo.Q det) (config.MinConfidence (config fd)))
      dets.
Proof.
  induction dets as [|det dets IH]; [reflexivity|].
  cbn. rewrite keeps_score_at_least, IH. reflexivity.
Qed.

End DetectFaces.

(** C1. Every detection that survives the clustering and the confidence
    filter yields one face, in the same order: the face is a square of side
    [scale], its corner is [col - scale/2] and [row - scale/2] with truncating
    integer division (exactly so whenever the difference is an [int]), and its
    confidence is the detection's score; no error is returned. When the
    cascade finds the one detection (row 200, col 300, scale 80, score 20),
    the clustering leaves it as it is and [MinConfidence] is 12, the faces
    are the one face (x 260, y 160, width 80, height 80, confidence 20). *)
Theorem DetectFaces_faces_of_survivors :
  forall (L : GoLibs) (fd : face_detector.FaceDetector) (img : image.Image),
    let min := config.MinConfidence (face_detector.config fd) in
    let survivors :=
      List.filter (fun det => notions.score_at_least (pigo.Q det) min)
        (face_detector.clustered fd img) in
    let faces := fst (face_detector.DetectFaces fd img) in
    snd (face_detector.DetectFaces fd img) = None
    /\ Forall2 notions.face_matches survivors faces
    /\ Forall2
         (fun det face =>
            (GoInt.in_range (pigo.Col det - Z.quot (pigo.Scale det) 2) ->
             models.X face = pigo.Col det - Z.quot (pigo.Scale det) 2)
            /\ (GoInt.in_range (pigo.Row det - Z.quot (pigo.Scale det) 2) ->
                models.Y face = pigo.Row det - Z.quot (pigo.Scale det) 2))
         survivors faces
    /\ (pigo.RunCascade (face_detector.classifier fd) (face_detector.cascadeParams fd img)
          GoFloat.zero = [notions.example_detection] ->
        pigo.ClusterDetections (face_detector.classifier fd) [notions.example_detection]
          (GoFloat.float64_of_float32 (config.IoUThreshold (face_detector.config fd)))
        = [notions.example_detection] ->
        min = GoFloat.float32_of_int 12 ->
        face_detector.DetectFaces fd img = ([notions.example_face], None)).
Proof.
  intros L fd img min survivors faces.
  subst faces survivors min. rewrite DetectFaces_eq. cbn [fst snd].
  rewrite <- filter_keeps.
  split; [reflexivity|]. split; [|split].
  - induction (List.filter _ _) as [|det dets IH]; cbn; constructor; auto.
    apply toFace_matches.
  - induction (List.filter _ _) as [|det dets IH]; cbn [List.map]; constructor; auto.
    split; intros Hr.
    + rewrite toFace_X. now apply wrap_id.
    + rewrite toFace_Y. now apply wrap_id.
  - intros Hrun Hcluster Hmin.
    unfold face_detector.clustered. rewrite Hrun, Hcluster.
    cbn [List.filter]. rewrite keeps_score_at_least, Hmin. reflexivity.
Qed.

(** The end-to-end example of C1, on a classifier that finds the one
    detection of the example in a 640 by 480 picture. *)
Lemma DetectFaces_faces_of_survivors_witness :
  face_detector.DetectFaces (H := sample.libs)
    (sample.detector [notions.example_detection]) (sample.blank 640 480)
  = ([notions.example_face], None).
Proof.
  apply (DetectFaces_faces_of_survivors sample.libs
           (sample.detector [notions.example_detection]) (sample.blank 640 480));
    reflexivity.
Defined.

(** C4. The confidence filter keeps, in their order, exactly the clustered
    detections whose score is greater than or equal to [MinConfidence] (the
    comparison of IEEE 754): a detection whose score equals [MinConfidence]
    gives a face, one whose score is strictly below (or not comparable)
    gives none, and when no detection passes the result is the empty list
    of faces and no error. *)
Theorem DetectFaces_confidence_filter :
  forall (L : GoLibs) (fd : face_detector.FaceDetector) (img : image.Image),
    let min := config.MinConfidence (face_detector.config fd) in
    let dets := face_detector.clustered fd img in
    let faces := fst (face_detector.DetectFaces fd img) in
    face_detector.DetectFaces fd img
    = (List.map face_detector.toFace
         (List.filter (fun det => notions.score_at_least (pigo.Q det) min) dets), None)
    /\ (forall det, List.In det dets -> SFcompare (pigo.Q det) min = Some Eq ->
        List.In (face_detector.toFace det) faces)
    /\ (forall det, List.In det dets -> SFcompare (pigo.Q det) min = Some Gt ->
        List.In (face_detector.toFace det) faces)
    /\ (forall det, SFcompare (pigo.Q det) min = Some Lt ->
        ~ List.In (face_detector.toFace det) faces)
    /\ (forall det, SFcompare (pigo.Q det) min = None ->
        ~ List.In (face_detector.toFace det) faces)
    /\ ((forall det, List.In det dets -> notions.score_at_least (pigo.Q det) min = false) ->
        face_detector.DetectFaces fd img = ([], None)).
Proof.
  intros L fd img min dets faces.
  assert (Heq : face_detector.DetectFaces fd img
                = (List.map face_detector.toFace
                     (List.filter (fun det => notions.score_at_least (pigo.Q det) min) dets),
                   None)).
  { rewrite DetectFaces_eq, filter_keeps. reflexivity. }
  assert (Hin : forall det, List.In det dets ->
                  notions.score_at_least (pigo.Q det) min = true ->
                  List.In (face_detector.toFace det) faces).
  { intros det Hdet Hs. subst faces. rewrite Heq. cbn [fst].
    apply List.in_map. apply List.filter_In. auto. }
  assert (Hout : forall det, notions.score_at_least (pigo.Q det) min = false ->
                   ~ List.In (face_detector.toFace det) faces).
  { intros det Hs Hface. subst faces. rewrite Heq in Hface. cbn [fst] in Hface.
    apply List.in_map_iff in Hface as (det' & Hsame & Hkept).
    apply List.filter_In in Hkept as [_ Hs'].
    assert (HQ : pigo.Q det' = pigo.Q det)
      by exact (f_equal models.Confidence Hsame).
    rewrite HQ in Hs'. congruence. }
  split; [exact Heq|].
  split; [intros det Hdet Hc; apply Hin; auto; unfold notions.score_at_least; now rewrite Hc|].
  split; [intros det Hdet Hc; apply Hin; auto; unfold notions.score_at_least; now rewrite Hc|].
  split; [intros det Hc; apply Hout; unfold notions.score_at_least; now rewrite Hc|].
  split; [intros det Hc; apply Hout; unfold notions.score_at_least; now rewrite Hc|].
  intros Hnone. rewrite Heq. f_equal.
  replace (List.filter _ dets) with (@nil pigo.Detection); [reflexivity|].
  symmetry. clear -Hnone. induction dets as [|det dets IH]; [reflexivity|].
  cbn. rewrite (Hnone det) by (left; reflexivity).
  apply IH. intros d Hd. apply Hnone. right. exact Hd.
Qed.

(** C4 on two detections, with [MinConfidence] 12: the one of score 12 gives
    a face, the one of score 11 gives none. *)
Lemma DetectFaces_confidence_filter_witness :
  let at_score (q : Z) : pigo.Detection :=
    {| pigo.Row := 50; pigo.Col := 60; pigo.Scale := 40; pigo.Q := GoFloat.float32_of_int q |} in
  let faces :=
    fst (face_detector.DetectFaces (H := sample.libs)
           (sample.detector [at_score 11; at_score 12]) (sample.blank 640 480)) in
  List.In (face_detector.toFace (at_score 12)) faces
  /\ ~ List.In (face_detector.toFace (at_score 11)) faces.
Proof.
  intros at_score faces.
  pose proof (DetectFaces_confidence_filter sample.libs
                (sample.detector [at_score 11; at_score 12]) (sample.blank 640 480))
    as (_ & Heq & _ & Hlt & _).
  split.
  - apply Heq; [right; left; reflexivity | reflexivity].
  - apply Hlt. reflexivity.
Defined.

(** ** Selfie validation *)

Section ValidateSelfie.

Import models face_detector.

Variable fd : FaceDetector.

Lemma totalConfidence_fold (faces : list Face) (start : GoFloat.float32) :
  List.fold_left (fun total face => GoFloat.add32 total (Confidence face)) faces start
  = List.fold_left GoFloat.add32 (List.map Confidence faces) start.
Proof.
  revert start. induction faces as [|face faces IH]; intros start; [reflexivity|].
  cbn. apply IH.
Qed.

Lemma mean32_faces (faces : list Face) :
  GoFloat.div32 (totalConfidence faces)
    (GoFloat.float32_of_int (Z.of_nat (List.length faces)))
  = notions.mean32 (List.map Confidence faces).
Proof.
  unfold notions.mean32, totalConfidence.
  rewrite totalConfidence_fold, List.length_map. reflexivity.
Qed.

Lemma ValidateSelfie_cases (faces : list Face) (minFaces maxFaces : Z) :
  let n := Z.of_nat (List.length faces) in
  let mean := notions.mean32 (List.map Confidence faces) in
  ValidateSelfie fd faces minFaces maxFaces
  = if 0 <? n then
      if GoFloat.ltb mean (GoFloat.float32_of_int 10)
      then {| IsValid := false;
              Issues := (notions.countIssues n minFaces maxFaces ++ [issue_low_confidence])%list;
              Validation_Confidence := mean; FaceCount := n |}
      else {| IsValid := notions.countOk n minFaces maxFaces;
              Issues := notions.countIssues n minFaces maxFaces;
              Validation_Confidence := mean; FaceCount := n |}
    else {| IsValid := notions.countOk n minFaces maxFaces;
            Issues := notions.countIssues n minFaces maxFaces;
            Validation_Confidence := GoFloat.zero; FaceCount := n |}.
Proof.
  intros n mean. subst mean. rewrite <- mean32_faces.
  unfold ValidateSelfie, notions.countIssues, notions.countOk, confidence_threshold. fold n.
  destruct (n <? minFaces); [destruct (n =? 0)|destruct (maxFaces <? n)];
    destruct (0 <? n); try reflexivity;
    destruct (GoFloat.ltb _ _); reflexivity.
Qed.

Lemma adds_exactly_total (values : list GoFloat.float32) :
  forall (acc : GoFloat.float32) (ua : Z),
    notions.units acc = Some ua ->
    notions.adds_exactly acc values ->
    exists total,
      notions.total_units values = Some total
      /\ notions.units (List.fold_left GoFloat.add32 values acc) = Some (ua + total).
Proof.
  induction values as [|v rest IH]; intros acc ua Hacc Hexact.
  - exists 0. split; [reflexivity|]. cbn. now rewrite Z.add_0_r.
  - destruct Hexact as [(ua' & uv & Ha & Hv & Hsum) Hrest].
    rewrite Hacc in Ha. injection Ha as <-.
    destruct (IH (GoFloat.add32 acc v) (ua + uv) Hsum Hrest) as (total & Ht & Hfold).
    exists (uv + total). cbn [notions.total_units List.fold_left].
    rewrite Hv, Ht. split; [reflexivity|]. rewrite Hfold. f_equal. lia.
Qed.

(** Without a rounding, the mean computed in [float32] is the arithmetic
    mean. *)
Lemma mean32_arithmetic (values : list GoFloat.float32) :
  notions.mean32_exact values ->
  notions.arithmetic_mean values (notions.mean32 values).
Proof.
  intros [Hadds (ua & uq & Ha & Hq & Hmul)].
  destruct (adds_exactly_total values GoFloat.zero 0 eq_refl Hadds) as (total & Ht & Hfold).
  rewrite Hfold in Ha. injection Ha as <-.
  exists uq, total. unfold notions.mean32. split; [exact Hq|]. split; [exact Ht|].
  rewrite Hmul. reflexivity.
Qed.

Lemma low_confidence_not_a_count_issue (n minFaces maxFaces : Z) :
  ~ List.In issue_low_confidence (notions.countIssues n minFaces maxFaces).
Proof.
  unfold notions.countIssues, issue_too_few, issue_multiple.
  destruct (n <? minFaces); [destruct (n =? 0)|destruct (maxFaces <? n)];
    cbn; intros Hin; repeat destruct Hin as [Hin|Hin]; try discriminate Hin; exact Hin.
Qed.

End ValidateSelfie.

(** C2, as the code has it. The verdict of [ValidateSelfie] on a list of
    [n] faces.
    - No face and [minFaces >= 1]: invalid, exactly the two issues
      "No faces detected in image" and "Image may be too dark or blurry",
      confidence 0.
    - [0 < n < minFaces]: invalid, and the issues are the one shortfall
      issue, which names the number found and the minimum, followed by the
      low-confidence issue when the confidence is below 10.
    - [n > maxFaces] and [n >= minFaces]: invalid, and the issues are the one
      excess issue, which names the number found and the maximum, followed
      by the low-confidence issue when the confidence is below 10.
    - [n > 0]: the confidence is the mean of the confidences of the faces
      computed in [float32], with a rounding after every addition and after
      the division. It is the arithmetic mean whenever none of these
      operations rounds. It is this value that is compared with 10: when it
      is below 10 the result is invalid and the low-confidence issue is
      added once, as the last issue.
    - One face of confidence 15 with [minFaces = maxFaces = 1]: valid, no
      issue, confidence 15. *)
Theorem ValidateSelfie_verdict :
  forall (fd : face_detector.FaceDetector) (faces : list models.Face) (minFaces maxFaces : Z),
    let n := Z.of_nat (List.length faces) in
    let r := face_detector.ValidateSelfie fd faces minFaces maxFaces in
    let confidences := List.map models.Confidence faces in
    let mean := notions.mean32 confidences in
    let low :=
      if GoFloat.ltb mean (GoFloat.float32_of_int 10)
      then ["Low confidence score for detected face(s)"] else [] in
    models.FaceCount r = n
    /\ (faces = [] -> 1 <= minFaces ->
        r = {| models.IsValid := false;
               models.Issues :=
                 ["No faces detected in image"; "Image may be too dark or blurry"];
               models.Validation_Confidence := GoFloat.zero;
               models.FaceCount := 0 |})
    /\ (0 < n < minFaces ->
        models.IsValid r = false
        /\ models.Issues r
           = ("Too few faces detected (" ++ notions.decimal n
              ++ " found, expected at least " ++ notions.decimal minFaces ++ ")") :: low)
    /\ (minFaces <= n -> maxFaces < n ->
        models.IsValid r = false
        /\ models.Issues r
           = ("Multiple faces detected (" ++ notions.decimal n
              ++ " found, expected " ++ notions.decimal maxFaces ++ ")") :: low)
    /\ (0 < n -> models.Validation_Confidence r = mean)
    /\ (0 < n -> notions.mean32_exact confidences ->
        notions.arithmetic_mean confidences (models.Validation_Confidence r))
    /\ (0 < n -> GoFloat.ltb mean (GoFloat.float32_of_int 10) = true ->
        models.IsValid r = false
        /\ exists others,
             models.Issues r
             = (others ++ ["Low confidence score for detected face(s)"])%list
             /\ ~ List.In "Low confidence score for detected face(s)" others)
    /\ (forall face, faces = [face] ->
        models.Confidence face = GoFloat.float32_of_int 15 ->
        minFaces = 1 -> maxFaces = 1 ->
        r = {| models.IsValid := true;
               models.Issues := [];
               models.Validation_Confidence := GoFloat.float32_of_int 15;
               models.FaceCount := 1 |}).
Proof.
  intros fd faces minFaces maxFaces n r confidences mean low.
  pose proof (ValidateSelfie_cases fd faces minFaces maxFaces) as Hr.
  cbv zeta in Hr. fold n confidences mean r in Hr.
  assert (Hconf : 0 < n -> models.Validation_Confidence r = mean).
  { intros Hn. rewrite Hr. destruct (Z.ltb_spec 0 n); [|lia].
    destruct (GoFloat.ltb _ _); reflexivity. }
  split; [|split; [|split; [|split; [|split; [|split; [|split]]]]]].
  - rewrite Hr. destruct (0 <? n); [destruct (GoFloat.ltb _ _)|]; reflexivity.
  - intros Hnil Hmin. subst r n mean low confidences. clear Hr Hconf. subst faces.
    unfold face_detector.ValidateSelfie. cbn [List.length].
    change (Z.of_nat 0) with 0.
    destruct (Z.ltb_spec 0 minFaces); [reflexivity|lia].
  - intros Hn. rewrite Hr. subst low.
    destruct (Z.ltb_spec 0 n); [|lia].
    unfold notions.countIssues.
    destruct (Z.ltb_spec n minFaces); [|lia].
    destruct (Z.eqb_spec n 0); [lia|].
    destruct (GoFloat.ltb _ _); cbn; split; try reflexivity.
    unfold notions.countOk. destruct (Z.ltb_spec n minFaces); [reflexivity|lia].
  - intros Hmin Hmax. rewrite Hr. subst low.
    assert (H0 : 0 < n \/ n = 0) by lia.
    unfold notions.countIssues, notions.countOk.
    destruct (Z.ltb_spec n minFaces); [lia|].
    destruct (Z.ltb_spec maxFaces n); [|lia].
    destruct (Z.ltb_spec 0 n).
    + destruct (GoFloat.ltb _ _); cbn; split; reflexivity.
    + assert (n = 0) by lia.
      assert (Hnil : faces = []) by (destruct faces; [reflexivity|cbn in *; lia]).
      subst mean confidences. rewrite Hnil. cbn. split; reflexivity.
  - exact Hconf.
  - intros Hn Hexact. rewrite (Hconf Hn). now apply mean32_arithmetic.
  - intros Hn Hlow. rewrite Hr. destruct (Z.ltb_spec 0 n); [|lia].
    rewrite Hlow. cbn. split; [reflexivity|].
    exists (notions.countIssues n minFaces maxFaces). split; [reflexivity|].
    apply low_confidence_not_a_count_issue.
  - intros face Hfaces Hconf15 Hmin Hmax. subst r faces minFaces maxFaces.
    unfold face_detector.ValidateSelfie, face_detector.totalConfidence.
    cbn [List.length List.fold_left]. rewrite Hconf15. reflexivity.
Qed.

(** C2 on the three examples of the specification: no face, two faces of
    confidence 15, one face of confidence 15, with [minFaces = maxFaces = 1].
    The confidence of the two faces is their arithmetic mean: 15 + 15 and
    30 / 2 do not round. *)
Lemma ValidateSelfie_verdict_witness :
  let face15 :=
    {| models.X := 260; models.Y := 160; models.Width := 80; models.Height := 80;
       models.Confidence := GoFloat.float32_of_int 15 |} in
  let fd := sample.detector [] in
  face_detector.ValidateSelfie fd [] 1 1
  = {| models.IsValid := false;
       models.Issues := ["No faces detected in image"; "Image may be too dark or blurry"];
       models.Validation_Confidence := GoFloat.zero;
       models.FaceCount := 0 |}
  /\ (models.IsValid (face_detector.ValidateSelfie fd [face15; face15] 1 1) = false
      /\ models.Issues (face_detector.ValidateSelfie fd [face15; face15] 1 1)
         = ["Multiple faces detected (2 found, expected 1)"])
  /\ face_detector.ValidateSelfie fd [face15] 1 1
     = {| models.IsValid := true;
          models.Issues := [];
          models.Validation_Confidence := GoFloat.float32_of_int 15;
          models.FaceCount := 1 |}
  /\ notions.arithmetic_mean (List.map models.Confidence [face15; face15])
       (models.Validation_Confidence (face_detector.ValidateSelfie fd [face15; face15] 1 1)).
Proof.
  intros face15 fd.
  pose proof (ValidateSelfie_verdict fd [] 1 1) as H0.
  pose proof (ValidateSelfie_verdict fd [face15] 1 1) as H1.
  pose proof (ValidateSelfie_verdict fd [face15; face15] 1 1) as H2.
  cbv zeta in H0, H1, H2.
  split; [|split; [|split]].
  - apply H0; [reflexivity|lia].
  - destruct H2 as (_ & _ & _ & Hmany & _).
    destruct Hmany as [Hinvalid Hissues]; [cbn; lia|cbn; lia|].
    split; [exact Hinvalid|]. rewrite Hissues. vm_compute. reflexivity.
  - destruct H1 as (_ & _ & _ & _ & _ & _ & _ & Hone).
    apply (Hone face15); reflexivity.
  - destruct H2 as (_ & _ & _ & _ & _ & Hexact & _).
    apply Hexact; [cbn; lia|]. split.
    + split; [|split; [|exact I]];
        (do 2 eexists; split; [vm_compute; reflexivity|];
         split; [vm_compute; reflexivity|]; vm_compute; reflexivity).
    + do 2 eexists; split; [vm_compute; reflexivity|];
        split; [vm_compute; reflexivity|]; vm_compute; reflexivity.
Defined.

(** C2 fails as stated: the confidence is not the arithmetic mean when an
    operation rounds, and the threshold is applied to the rounded value. Two
    faces with the confidences 10 and 10 - 2^-20, both values of [float32],
    have an arithmetic mean below 10: their sum is below twice 10. The sum
    rounds to 20 in [float32], so the confidence returned is 10 and the
    result, with [minFaces = 1] and [maxFaces = 2], is valid, without an
    issue. *)
Lemma rounded_mean_passes_threshold :
  let ten := S754_finite false 10485760 (-20) in
  let below := S754_finite false 10485759 (-20) in
  let face (confidence : GoFloat.float32) :=
    {| models.X := 0; models.Y := 0; models.Width := 80; models.Height := 80;
       models.Confidence := confidence |} in
  let r := face_detector.ValidateSelfie (sample.detector []) [face ten; face below] 1 2 in
  ten = GoFloat.float32_of_int 10
  /\ (exists u total,
         notions.units ten = Some u
         /\ notions.total_units [ten; below] = Some total
         /\ total < u * 2)
  /\ r = {| models.IsValid := true;
            models.Issues := [];
            models.Validation_Confidence := GoFloat.float32_of_int 10;
            models.FaceCount := 2 |}
  /\ ~ notions.arithmetic_mean [ten; below] (models.Validation_Confidence r).
Proof.
  intros ten below face r.
  split; [reflexivity|]. split; [|split].
  - do 2 eexists. split; [vm_compute; reflexivity|]. split; [vm_compute; reflexivity|].
    vm_compute. reflexivity.
  - vm_compute. reflexivity.
  - intros (u & total & Hu & Ht & Hmean).
    vm_compute in Hu. vm_compute in Ht. injection Hu as <-. injection Ht as <-.
    vm_compute in Hmean. discriminate Hmean.
Qed.

(** ** Strings *)

Section Strings.

Import strings.

Lemma append_nil_l (s : string) : EmptyString ++ s = s.
Proof. reflexivity. Qed.

Lemma append_cons (c : ascii) (s t : string) : String c s ++ t = String c (s ++ t).
Proof. reflexivity. Qed.

Lemma append_nil_r (s : string) : s ++ EmptyString = s.
Proof.
  induction s as [|c s IH]; [reflexivity|]. now rewrite append_cons, IH.
Qed.

Lemma append_assoc (a b c : string) : (a ++ b) ++ c = a ++ b ++ c.
Proof.
  induction a as [|x a IH]; [reflexivity|]. now rewrite !append_cons, IH.
Qed.

Lemma HasPrefix_spec (s prefix : string) :
  HasPrefix s prefix = true <-> notions.starts_with s prefix.
Proof.
  unfold notions.starts_with. revert s.
  induction prefix as [|p prefix IH]; intros s.
  - destruct s; simpl; split; eauto.
  - destruct s as [|c s]; simpl.
    + split; [discriminate|]. intros [rest Hrest]. discriminate Hrest.
    + rewrite andb_true_iff, IH. split.
      * intros [Hc [rest ->]]. apply Ascii.eqb_eq in Hc. subst.
        exists rest. reflexivity.
      * intros [rest Hrest]. rewrite append_cons in Hrest.
        injection Hrest as -> ->.
        split; [apply Ascii.eqb_refl|eauto].
Qed.

Lemma Contains_spec (s sub : string) :
  Contains s sub = true <-> notions.contains s sub.
Proof.
  unfold notions.contains. induction s as [|c s IH].
  - cbn [Contains]. rewrite orb_false_r, HasPrefix_spec. split.
    + intros [rest Hrest]. exists EmptyString, rest. exact Hrest.
    + intros (a & b & Hab). destruct a; [|discriminate Hab].
      exists b. exact Hab.
  - cbn [Contains]. rewrite orb_true_iff, HasPrefix_spec, IH. split.
    + intros [[rest Hrest]|(a & b & Hab)].
      * exists EmptyString, rest. exact Hrest.
      * exists (String c a), b. simpl. now rewrite Hab.
    + intros (a & b & Hab). destruct a as [|x a].
      * left. exists b. exact Hab.
      * right. simpl in Hab. injection Hab as -> ->. eauto.
Qed.

Lemma map_bytes_append (f : ascii -> ascii) (a b : string) :
  map_bytes f (a ++ b) = map_bytes f a ++ map_bytes f b.
Proof.
  induction a as [|c a IH]; [reflexivity|].
  rewrite append_cons. simpl. now rewrite IH, append_cons.
Qed.

Lemma isASCII_append (a b : string) :
  isASCII (a ++ b) = isASCII a && isASCII b.
Proof.
  induction a as [|c a IH]; [reflexivity|].
  rewrite append_cons. simpl. rewrite IH. apply andb_assoc.
Qed.

Lemma byte_val_of_N (n : N) : (n < 256)%N -> byte_val (ascii_of_N n) = Z.of_N n.
Proof. intros Hn. unfold byte_val. now rewrite N_ascii_embedding. Qed.

Lemma lower_byte_ascii (c : ascii) :
  is_ascii_byte (lower_byte c) = true -> is_ascii_byte c = true.
Proof.
  unfold lower_byte, is_ascii_byte.
  destruct (Z.leb_spec 65 (byte_val c)); destruct (Z.leb_spec (byte_val c) 90);
    cbn [andb]; auto.
  intros _. apply Z.ltb_lt. lia.
Qed.

Lemma lowered_ascii (v : string) :
  isASCII (map_bytes lower_byte v) = true -> isASCII v = true.
Proof.
  induction v as [|c v IH]; simpl; [reflexivity|].
  rewrite !andb_true_iff. intros [Hc Hv]. split; [now apply lower_byte_ascii|auto].
Qed.

Context `{GoLibs}.

(** A run of ASCII bytes of the host is found in lower case in the
    lower-cased host, between the images of what stands before and after. *)
Lemma ToLower_ascii_run (a v b : string) :
  notions.unicode_lower_law _ ->
  v <> EmptyString -> isASCII v = true ->
  exists a' b', ToLower (a ++ v ++ b) = a' ++ map_bytes lower_byte v ++ b'
                /\ (a = EmptyString -> a' = EmptyString).
Proof.
  intros [Hnil Hrun] Hv Hascii. unfold ToLower.
  destruct (isASCII (a ++ v ++ b)).
  - exists (map_bytes lower_byte a), (map_bytes lower_byte b).
    rewrite !map_bytes_append. split; [reflexivity|]. now intros ->.
  - exists (unicode_MapToLower a), (unicode_MapToLower b).
    rewrite Hrun by assumption. split; [reflexivity|]. now intros ->.
Qed.

End Strings.

(** ** URL validation *)

Section ValidateURL.

Context `{GoLibs}.
Import image_downloader.

Variable id : ImageDownloader.

(** The list of [isPrivateIP] holds the four names of the policy. *)
Lemma privateHosts_names : privateHosts = notions.privateNames.
Proof. reflexivity. Qed.

Lemma isPrivateIP_rule (host : string) :
  isPrivateIP id host = true <-> notions.private_rule (strings.ToLower host).
Proof.
  unfold isPrivateIP, notions.private_rule. rewrite <- privateHosts_names.
  set (lowered := strings.ToLower host).
  destruct (List.existsb _ privateHosts) eqn:Hhosts.
  - split; [intros _|reflexivity]. left.
    apply List.existsb_exists in Hhosts as (p & Hp & Hc).
    exists p. split; [exact Hp|]. now apply Contains_spec.
  - assert (Hno : ~ exists p, List.In p privateHosts /\ notions.contains lowered p).
    { intros (p & Hp & Hc).
      assert (List.existsb (fun q => strings.Contains lowered q) privateHosts = true).
      { apply List.existsb_exists. exists p. split; [exact Hp|]. now apply Contains_spec. }
      congruence. }
    destruct (strings.HasPrefix lowered "10.") eqn:H10;
      [|destruct (strings.HasPrefix lowered "192.168.") eqn:H192;
        [|destruct (strings.HasPrefix lowered "172.") eqn:H172]]; cbn [orb].
    + split; [intros _|reflexivity]. right. exists "10.".
      split; [left; reflexivity|now apply HasPrefix_spec].
    + split; [intros _|reflexivity]. right. exists "192.168.".
      split; [right; left; reflexivity|now apply HasPrefix_spec].
    + split; [intros _|reflexivity]. right. exists "172.".
      split; [right; right; left; reflexivity|now apply HasPrefix_spec].
    + split; [discriminate|]. intros [Hc|(p & Hp & Hs)]; [contradiction|].
      apply HasPrefix_spec in Hs.
      cbn in Hp. destruct Hp as [<-|[<-|[<-|[]]]]; congruence.
Qed.

Lemma validateURL_accepts (imageURL : string) :
  validateURL id imageURL = None <->
  imageURL <> EmptyString
  /\ exists u, url_Parse imageURL = Some u
               /\ (url.Scheme u = "http" \/ url.Scheme u = "https")
               /\ url.Host u <> EmptyString
               /\ isPrivateIP id (url.Host u) = false.
Proof.
  unfold validateURL.
  destruct (String.eqb_spec imageURL EmptyString); [split; [discriminate|tauto]|].
  destruct (url_Parse imageURL) as [u|];
    [|split; [discriminate|intros (_ & u & Hu & _); discriminate Hu]].
  destruct (String.eqb_spec (url.Scheme u) "http");
    destruct (String.eqb_spec (url.Scheme u) "https"); cbn [negb andb];
    try (destruct (String.eqb_spec (url.Host u) EmptyString);
         [split; [discriminate|intros (_ & u' & [= <-] & _ & Hh & _); contradiction]|];
         destruct (isPrivateIP id (url.Host u)) eqn:Hp;
         [split; [discriminate|intros (_ & u' & [= <-] & _ & _ & Hp'); congruence]|];
         split; [intros _|reflexivity]; split; [assumption|];
         exists u; tauto).
  split; [discriminate|]. intros (_ & u' & [= <-] & [Hs|Hs] & _); contradiction.
Qed.

Lemma private_host_rejected (imageURL : string) (u : url.URL) :
  url_Parse imageURL = Some u ->
  isPrivateIP id (url.Host u) = true ->
  validateURL id imageURL <> None.
Proof.
  intros Hu Hp Hacc. apply validateURL_accepts in Hacc as (_ & u' & Hu' & _ & _ & Hp').
  congruence.
Qed.

Lemma private_host_variant (host p : string) :
  notions.unicode_lower_law _ ->
  List.In p notions.privateNames ->
  notions.contains_ignoring_case host p ->
  isPrivateIP id host = true.
Proof.
  intros Hlaw Hp (a & v & b & -> & Hv).
  assert (Hp' : p <> EmptyString /\ strings.isASCII p = true).
  { cbn in Hp. destruct Hp as [<-|[<-|[<-|[<-|[]]]]]; split; (discriminate || reflexivity). }
  destruct Hp' as [Hne Hascii].
  assert (Hvne : v <> EmptyString) by (intros ->; cbn in Hv; congruence).
  assert (Hvascii : strings.isASCII v = true) by (apply lowered_ascii; now rewrite Hv).
  destruct (ToLower_ascii_run a v b Hlaw Hvne Hvascii) as (a' & b' & Hlow & _).
  apply isPrivateIP_rule. left. exists p. split; [exact Hp|].
  exists a', b'. now rewrite Hlow, Hv.
Qed.

Lemma private_host_prefix (host p : string) :
  notions.unicode_lower_law _ ->
  List.In p notions.privatePrefixes ->
  notions.starts_with host p ->
  isPrivateIP id host = true.
Proof.
  intros Hlaw Hp (rest & ->).
  assert (Hp' : p <> EmptyString /\ strings.isASCII p = true
                /\ strings.map_bytes strings.lower_byte p = p).
  { cbn in Hp. destruct Hp as [<-|[<-|[<-|[]]]];
      (split; [discriminate|split; reflexivity]). }
  destruct Hp' as (Hne & Hascii & Hlower).
  destruct (ToLower_ascii_run EmptyString p rest Hlaw Hne Hascii) as (a' & b' & Hlow & Ha').
  rewrite (Ha' eq_refl), Hlower in Hlow.
  apply isPrivateIP_rule. right. exists p. split; [exact Hp|].
  exists b'. exact Hlow.
Qed.

End ValidateURL.

(** The case mappings of the sample environment satisfy the law of
    [unicode.ToLower]. *)
Lemma sample_unicode_lower_law : notions.unicode_lower_law sample.libs.
Proof.
  split; [reflexivity|]. intros a v b _ _. cbn.
  now rewrite !map_bytes_append.
Qed.

(** C3. [validateURL] accepts a string exactly when it is not empty, it
    parses, the scheme is http or https, the host is not empty and the host,
    in lower case, matches no private or loopback rule (it contains none of
    localhost, 127.0.0.1, 0.0.0.0, ::1 and starts with none of 10., 192.168.,
    172.). It returns an error for every URL whose scheme is ftp, whose host
    contains one of the four names in any mix of upper and lower case, or
    whose host starts with one of the three prefixes. *)
Theorem validateURL_policy :
  forall (L : GoLibs) (id : image_downloader.ImageDownloader) (imageURL : string),
    notions.unicode_lower_law L ->
    (image_downloader.validateURL id imageURL = None <->
     imageURL <> EmptyString
     /\ exists u, url_Parse imageURL = Some u
                  /\ (url.Scheme u = "http" \/ url.Scheme u = "https")
                  /\ url.Host u <> EmptyString
                  /\ ~ notions.private_rule (strings.ToLower (url.Host u)))
    /\ (forall u, url_Parse imageURL = Some u ->
        (url.Scheme u = "ftp" -> image_downloader.validateURL id imageURL <> None)
        /\ (forall p, List.In p notions.privateNames ->
            notions.contains_ignoring_case (url.Host u) p ->
            image_downloader.validateURL id imageURL <> None)
        /\ (forall p, List.In p notions.privatePrefixes ->
            notions.starts_with (url.Host u) p ->
            image_downloader.validateURL id imageURL <> None)).
Proof.
  intros L id imageURL Hlaw. split.
  - rewrite validateURL_accepts. split.
    + intros (Hne & u & Hu & Hs & Hh & Hp). split; [exact Hne|].
      exists u. repeat split; try assumption.
      intros Hrule. apply (proj2 (isPrivateIP_rule id (url.Host u))) in Hrule. congruence.
    + intros (Hne & u & Hu & Hs & Hh & Hp). split; [exact Hne|].
      exists u. repeat split; try assumption.
      destruct (image_downloader.isPrivateIP id (url.Host u)) eqn:Hpriv; [|reflexivity].
      exfalso. apply Hp. exact (proj1 (isPrivateIP_rule id (url.Host u)) Hpriv).
  - intros u Hu. split; [|split].
    + intros Hftp Hacc.
      apply validateURL_accepts in Hacc as (_ & u' & Hu' & [Hs|Hs] & _);
        rewrite Hu in Hu'; injection Hu' as <-; rewrite Hftp in Hs; discriminate Hs.
    + intros p Hp Hc. apply (private_host_rejected id imageURL u Hu).
      now apply (private_host_variant id (url.Host u) p).
    + intros p Hp Hs. apply (private_host_rejected id imageURL u Hu).
      now apply (private_host_prefix id (url.Host u) p).
Qed.

(** C3 on seven URLs: an ftp URL and the hosts LocalHost:8080, 127.0.0.1,
    0.0.0.0, [::1]:8080 and 192.168.1.5 are refused;
    https://example.com/a.jpg is accepted. *)
Lemma validateURL_policy_witness :
  let id := sample.downloader (sample.response "image/jpeg" 4 sample.jpeg_body) in
  let validate := image_downloader.validateURL (H := sample.libs) id in
  validate "ftp://example.com/a.jpg" <> None
  /\ validate "http://LocalHost:8080/a.jpg" <> None
  /\ validate "http://127.0.0.1/a.jpg" <> None
  /\ validate "http://0.0.0.0/a.jpg" <> None
  /\ validate "http://[::1]:8080/a.jpg" <> None
  /\ validate "http://192.168.1.5/a.jpg" <> None
  /\ validate "https://example.com/a.jpg" = None.
Proof.
  intros id validate.
  pose proof (fun imageURL =>
                validateURL_policy sample.libs id imageURL sample_unicode_lower_law)
    as Hpolicy.
  split; [|split; [|split; [|split; [|split; [|split]]]]].
  - destruct (Hpolicy "ftp://example.com/a.jpg") as [_ Hrej].
    destruct (Hrej {| url.Scheme := "ftp"; url.Host := "example.com" |} eq_refl)
      as (Hftp & _ & _).
    apply Hftp. reflexivity.
  - destruct (Hpolicy "http://LocalHost:8080/a.jpg") as [_ Hrej].
    destruct (Hrej {| url.Scheme := "http"; url.Host := "LocalHost:8080" |} eq_refl)
      as (_ & Hhost & _).
    apply (Hhost "localhost"); [left; reflexivity|].
    exists EmptyString, "LocalHost", ":8080". split; reflexivity.
  - destruct (Hpolicy "http://127.0.0.1/a.jpg") as [_ Hrej].
    destruct (Hrej {| url.Scheme := "http"; url.Host := "127.0.0.1" |} eq_refl)
      as (_ & Hhost & _).
    apply (Hhost "127.0.0.1"); [right; left; reflexivity|].
    exists EmptyString, "127.0.0.1", EmptyString. split; reflexivity.
  - destruct (Hpolicy "http://0.0.0.0/a.jpg") as [_ Hrej].
    destruct (Hrej {| url.Scheme := "http"; url.Host := "0.0.0.0" |} eq_refl)
      as (_ & Hhost & _).
    apply (Hhost "0.0.0.0"); [right; right; left; reflexivity|].
    exists EmptyString, "0.0.0.0", EmptyString. split; reflexivity.
  - destruct (Hpolicy "http://[::1]:8080/a.jpg") as [_ Hrej].
    destruct (Hrej {| url.Scheme := "http"; url.Host := "[::1]:8080" |} eq_refl)
      as (_ & Hhost & _).
    apply (Hhost "::1"); [right; right; right; left; reflexivity|].
    exists "[", "::1", "]:8080". split; reflexivity.
  - destruct (Hpolicy "http://192.168.1.5/a.jpg") as [_ Hrej].
    destruct (Hrej {| url.Scheme := "http"; url.Host := "192.168.1.5" |} eq_refl)
      as (_ & _ & Hprefix).
    apply (Hprefix "192.168."); [right; left; reflexivity|].
    exists "1.5". reflexivity.
  - apply (Hpolicy "https://example.com/a.jpg"). split; [discriminate|].
    exists {| url.Scheme := "https"; url.Host := "example.com" |}.
    split; [reflexivity|]. split; [right; reflexivity|]. split; [discriminate|].
    intros Hrule. apply (proj2 (isPrivateIP_rule (H := sample.libs) id _)) in Hrule.
    discriminate Hrule.
Defined.

(** ** The format registry *)

Section Sniff.

Import imagefmt.

Lemma Peek_spec (n : nat) (s b : string) :
  Peek n s = Some b -> notions.starts_with s b.
Proof.
  revert s b. induction n as [|n IH]; intros s b.
  - cbn. intros [= <-]. exists s. reflexivity.
  - destruct s as [|c s]; cbn; [discriminate|].
    destruct (Peek n s) as [p|] eqn:Hp; [|discriminate].
    intros [= <-]. destruct (IH s p Hp) as [rest ->].
    exists rest. reflexivity.
Qed.

Lemma Peek_prefix (magic rest : string) :
  Peek (String.length magic) (magic ++ rest) = Some magic.
Proof.
  induction magic as [|m magic IH]; [reflexivity|].
  rewrite append_cons. cbn. now rewrite IH.
Qed.

Lemma match_magic_exact (magic b : string) :
  notions.no_wildcard magic = true -> match_magic magic b = true -> b = magic.
Proof.
  revert b. induction magic as [|m magic IH]; intros b Hw Hm.
  - destruct b; [reflexivity|discriminate Hm].
  - destruct b as [|c b]; [discriminate Hm|]. cbn in Hw, Hm.
    apply andb_true_iff in Hw as [Hq Hw]. apply andb_true_iff in Hm as [Hc Hm].
    apply negb_true_iff in Hq. rewrite Hq, orb_false_r in Hc.
    apply Ascii.eqb_eq in Hc. subst c. f_equal. now apply IH.
Qed.

Lemma match_magic_refl (magic : string) : match_magic magic magic = true.
Proof.
  induction magic as [|m magic IH]; [reflexivity|].
  cbn. now rewrite Ascii.eqb_refl, IH.
Qed.

(** Whether a format without question marks in its magic is sniffed. *)
Lemma sniffs_iff (magic body : string) :
  notions.no_wildcard magic = true ->
  match Peek (String.length magic) body with
  | Some b => match_magic magic b
  | None => false
  end = true <-> notions.starts_with body magic.
Proof.
  intros Hw. split.
  - destruct (Peek _ body) as [b|] eqn:Hp; [|discriminate].
    intros Hm. apply (match_magic_exact _ _ Hw) in Hm. subst b.
    now apply Peek_spec in Hp.
  - intros [rest ->]. rewrite Peek_prefix. apply match_magic_refl.
Qed.

Context `{GoLibs}.

(** The three outcomes of [image.Decode] with the two registered
    formats. *)
Lemma Decode_registered (body : string) :
  (notions.starts_with body jpeg_magic
   /\ Decode image_downloader.registered_formats body
      = match jpeg_Decode body with
        | Some m => Ok (m, "jpeg")
        | None => Err (ErrDecoder "jpeg")
        end)
  \/ (~ notions.starts_with body jpeg_magic
      /\ notions.starts_with body png_magic
      /\ Decode image_downloader.registered_formats body
         = match png_Decode body with
           | Some m => Ok (m, "png")
           | None => Err (ErrDecoder "png")
           end)
  \/ (~ notions.starts_with body jpeg_magic
      /\ ~ notions.starts_with body png_magic
      /\ Decode image_downloader.registered_formats body = Err ErrFormat).
Proof.
  unfold Decode, sniff, image_downloader.registered_formats.
  cbn [List.find magic].
  pose proof (sniffs_iff jpeg_magic body eq_refl) as Hj.
  pose proof (sniffs_iff png_magic body eq_refl) as Hp.
  destruct (match Peek (String.length jpeg_magic) body with
            | Some b => match_magic jpeg_magic b
            | None => false
            end) eqn:Ej.
  - left. split; [now apply Hj|]. reflexivity.
  - right.
    assert (Hnj : ~ notions.starts_with body jpeg_magic)
      by (intros Hs; apply Hj in Hs; discriminate Hs).
    destruct (match Peek (String.length png_magic) body with
              | Some b => match_magic png_magic b
              | None => false
              end) eqn:Ep.
    + left. split; [exact Hnj|]. split; [now apply Hp|]. reflexivity.
    + right. split; [exact Hnj|]. split; [|reflexivity].
      intros Hs. apply Hp in Hs. discriminate Hs.
Qed.

End Sniff.

(** ** Downloading *)

Section DownloadImage.

Context `{GoLibs}.
Import models image_downloader.

Variable id : ImageDownloader.

(** What [DownloadImage] does with a decoded image. *)
Lemma DownloadImage_fetched (imageURL : string) (resp : http.Response) :
  validateURL id imageURL = None ->
  (forall req, client id req = Ok resp) ->
  http.StatusCode resp = http.StatusOK ->
  isValidImageType id (http.ContentType resp) = true ->
  DownloadImage id imageURL
  = if config.MaxImageSize (config id) <? http.ContentLength resp
    then Err (ErrImageTooLarge (http.ContentLength resp) (config.MaxImageSize (config id)))
    else
      match imagefmt.Decode registered_formats (http.Body resp) with
      | Err err => Err (ErrDecodeImage err)
      | Ok (img, format) =>
          let width := image.Dx (image.Rect img) in
          let height := image.Dy (image.Rect img) in
          if (config.MaxWidth (config id) <? width) || (config.MaxHeight (config id) <? height)
          then Err (ErrDimensions width height
                      (config.MaxWidth (config id)) (config.MaxHeight (config id)))
          else Ok (img, {| Metadata_Width := width;
                           Metadata_Height := height;
                           Format := strings.ToUpper format;
                           SizeBytes := http.ContentLength resp;
                           URL := imageURL |})
      end.
Proof.
  intros Hvalid Hclient Hstatus Htype.
  unfold DownloadImage. rewrite Hvalid.
  apply validateURL_accepts in Hvalid as (_ & u & Hu & _).
  unfold http.NewRequest. rewrite Hu, Hclient, Hstatus, Htype.
  rewrite Z.eqb_refl. cbn [negb].
  destruct (_ <? _); [reflexivity|].
  destruct (imagefmt.Decode _ _) as [[img format]|err]; reflexivity.
Qed.

(** A successful download went through every check. *)
Lemma DownloadImage_Ok (imageURL : string) (img : image.Image) (md : ImageMetadata) :
  DownloadImage id imageURL = Ok (img, md) ->
  exists req resp format,
    client id req = Ok resp
    /\ http.StatusCode resp = http.StatusOK
    /\ isValidImageType id (http.ContentType resp) = true
    /\ http.ContentLength resp <= config.MaxImageSize (config id)
    /\ imagefmt.Decode registered_formats (http.Body resp) = Ok (img, format)
    /\ Format md = strings.ToUpper format.
Proof.
  unfold DownloadImage.
  destruct (validateURL id imageURL); [discriminate|].
  destruct (http.NewRequest "GET" imageURL) as [req|]; [|discriminate].
  set (req' := http.HeaderSet _ _ _).
  destruct (client id req') as [resp|err] eqn:Hclient; [|discriminate].
  destruct (Z.eqb_spec (http.StatusCode resp) http.StatusOK) as [Hstatus|];
    [|discriminate]. cbn [negb].
  destruct (isValidImageType id (http.ContentType resp)) eqn:Htype; [|discriminate].
  cbn [negb].
  destruct (Z.ltb_spec (config.MaxImageSize (config id)) (http.ContentLength resp));
    [discriminate|].
  destruct (imagefmt.Decode _ _) as [[img' format]|err] eqn:Hdecode; [|discriminate].
  destruct (_ || _); [discriminate|].
  intros [= <- <-]. exists req', resp, format. cbn. tauto.
Qed.

(** The size check is the only origin of the "image too large" error. *)
Lemma DownloadImage_too_large (imageURL : string) (length limit : Z) :
  DownloadImage id imageURL = Err (ErrImageTooLarge length limit) ->
  exists req resp,
    client id req = Ok resp
    /\ length = http.ContentLength resp
    /\ limit = config.MaxImageSize (config id)
    /\ config.MaxImageSize (config id) < length.
Proof.
  unfold DownloadImage.
  destruct (validateURL id imageURL); [discriminate|].
  destruct (http.NewRequest "GET" imageURL) as [req|]; [|discriminate].
  set (req' := http.HeaderSet _ _ _).
  destruct (client id req') as [resp|err] eqn:Hclient; [|discriminate].
  destruct (negb _); [discriminate|].
  destruct (negb _); [discriminate|].
  destruct (Z.ltb_spec (config.MaxImageSize (config id)) (http.ContentLength resp)).
  - intros [= <- <-]. exists req', resp. auto.
  - destruct (imagefmt.Decode _ _) as [[img format]|err]; [|discriminate].
    destruct (_ || _); discriminate.
Qed.

Lemma Decode_format (body : string) (img : image.Image) (format : string) :
  imagefmt.Decode registered_formats body = Ok (img, format) ->
  (format = "jpeg" /\ notions.starts_with body imagefmt.jpeg_magic)
  \/ (format = "png" /\ notions.starts_with body imagefmt.png_magic).
Proof.
  intros Hd.
  destruct (Decode_registered body) as [[Hj He]|[(Hnj & Hp & He)|(_ & _ & He)]];
    rewrite He in Hd.
  - destruct (jpeg_Decode body); [|discriminate]. injection Hd as _ <-. now left.
  - destruct (png_Decode body); [|discriminate]. injection Hd as _ <-. now right.
  - discriminate.
Qed.

End DownloadImage.

(** C9, as the code has it. [DownloadImage] returns the "image too large"
    error of the size check only for a response whose declared
    [Content-Length] is strictly greater than [MaxImageSize]; for a response
    that reaches the check (valid URL, status 200, accepted content type) it
    returns it exactly then, so also for an unknown length (-1) under a limit
    below -1. With an unknown length and a limit that is not below -1, that
    error is never returned and the result is decided by decoding the body,
    all of it and of whatever length: a decoding error, a dimensions error,
    or the image with [SizeBytes] -1. *)
Theorem DownloadImage_unknown_length :
  forall (L : GoLibs) (id : image_downloader.ImageDownloader) (imageURL : string),
    let max := config.MaxImageSize (image_downloader.config id) in
    let maxWidth := config.MaxWidth (image_downloader.config id) in
    let maxHeight := config.MaxHeight (image_downloader.config id) in
    (forall length limit,
        image_downloader.DownloadImage id imageURL
        = Err (image_downloader.ErrImageTooLarge length limit) ->
        exists req resp,
          image_downloader.client id req = Ok resp
          /\ length = http.ContentLength resp /\ limit = max /\ max < length)
    /\ (forall resp,
           image_downloader.validateURL id imageURL = None ->
           (forall req, image_downloader.client id req = Ok resp) ->
           http.StatusCode resp = http.StatusOK ->
           image_downloader.isValidImageType id (http.ContentType resp) = true ->
           ((exists length limit,
                image_downloader.DownloadImage id imageURL
                = Err (image_downloader.ErrImageTooLarge length limit))
            <-> max < http.ContentLength resp)
           /\ (http.ContentLength resp = -1 -> -1 <= max ->
               (forall length limit,
                   image_downloader.DownloadImage id imageURL
                   <> Err (image_downloader.ErrImageTooLarge length limit))
               /\ match imagefmt.Decode image_downloader.registered_formats
                          (http.Body resp) with
                  | Err err =>
                      image_downloader.DownloadImage id imageURL
                      = Err (image_downloader.ErrDecodeImage err)
                  | Ok (img, format) =>
                      let width := image.Dx (image.Rect img) in
                      let height := image.Dy (image.Rect img) in
                      if (maxWidth <? width) || (maxHeight <? height)
                      then image_downloader.DownloadImage id imageURL
                           = Err (image_downloader.ErrDimensions width height
                                    maxWidth maxHeight)
                      else image_downloader.DownloadImage id imageURL
                           = Ok (img, {| models.Metadata_Width := width;
                                         models.Metadata_Height := height;
                                         models.Format := strings.ToUpper format;
                                         models.SizeBytes := -1;
                                         models.URL := imageURL |})
                  end)).
Proof.
  intros L id imageURL max maxWidth maxHeight. split.
  { intros length limit He. exact (DownloadImage_too_large id imageURL length limit He). }
  intros resp Hvalid Hclient Hstatus Htype.
  pose proof (DownloadImage_fetched id imageURL resp Hvalid Hclient Hstatus Htype) as Hd.
  fold max maxWidth maxHeight in Hd.
  assert (Hiff : (exists length limit,
                     image_downloader.DownloadImage id imageURL
                     = Err (image_downloader.ErrImageTooLarge length limit))
                 <-> max < http.ContentLength resp).
  { rewrite Hd. destruct (Z.ltb_spec max (http.ContentLength resp)) as [Hlt|Hge].
    - split; [intros _; exact Hlt|]. intros _. eauto.
    - split; [|lia]. intros (length & limit & He).
      destruct (imagefmt.Decode _ _) as [[img format]|err]; [|discriminate He].
      cbv zeta in He. destruct (_ || _); discriminate He. }
  split; [exact Hiff|].
  intros Hlen Hmax. split.
  - intros length limit He.
    assert (max < http.ContentLength resp) by (apply Hiff; eauto). lia.
  - rewrite Hd, Hlen. destruct (Z.ltb_spec max (-1)); [lia|].
    destruct (imagefmt.Decode _ _) as [[img format]|err]; [|reflexivity].
    cbv zeta. destruct (_ || _); reflexivity.
Qed.

(** C9 on a response of unknown length whose body has more bytes than
    [MaxImageSize] allows (4 bytes against a limit of 3): the download
    succeeds. *)
Lemma DownloadImage_unknown_length_witness :
  let resp := sample.response "image/jpeg" (-1) sample.jpeg_body in
  let id :=
    {| image_downloader.client := fun _ => Ok resp;
       image_downloader.config :=
         {| config.MaxImageSize := 3; config.MaxWidth := 2000; config.MaxHeight := 2000;
            config.RateLimit := 100; config.RateBurst := 10 |} |} in
  Z.of_nat (String.length (http.Body resp)) = 4
  /\ image_downloader.DownloadImage (H := sample.libs) id "https://example.com/a.jpg"
     = Ok (sample.blank 64 48,
           {| models.Metadata_Width := 64; models.Metadata_Height := 48; models.Format := "JPEG";
              models.SizeBytes := -1; models.URL := "https://example.com/a.jpg" |}).
Proof.
  intros resp id. split; [reflexivity|].
  destruct (DownloadImage_unknown_length sample.libs id "https://example.com/a.jpg")
    as [_ Hresp].
  destruct (Hresp resp eq_refl (fun _ => eq_refl) eq_refl eq_refl) as [_ Hunknown].
  destruct (Hunknown eq_refl) as [_ Hdecoded]; [cbn; lia|].
  exact Hdecoded.
Defined.

(** C9 fails as stated: the limit is compared as it is, and nothing keeps it
    from being negative. Under a limit of -2 a response of unknown length is
    refused as too large, before its body is decoded. *)
Lemma unknown_length_is_too_large :
  let resp := sample.response "image/jpeg" (-1) sample.jpeg_body in
  let id :=
    {| image_downloader.client := fun _ => Ok resp;
       image_downloader.config :=
         {| config.MaxImageSize := -2; config.MaxWidth := 2000; config.MaxHeight := 2000;
            config.RateLimit := 100; config.RateBurst := 10 |} |} in
  http.ContentLength resp = -1
  /\ image_downloader.DownloadImage (H := sample.libs) id "https://example.com/a.jpg"
     = Err (image_downloader.ErrImageTooLarge (-1) (-2)).
Proof. split; reflexivity. Qed.

(** C10, as the code has it. The content-type check accepts image/gif and
    image/webp, but the decoder is chosen by the first bytes of the body among
    the two registered formats, whatever the content type says. A response
    that passes the checks before decoding and whose body starts with neither
    the JPEG nor the PNG signature (every GIF or WebP file) gets the decoding
    error "unknown format". A successful download has format JPEG or PNG, and
    its body starts with the signature of that format. A response with an
    accepted content type, image/gif and image/webp included, whose body is
    a JPEG or a PNG picture that the decoder of its format accepts, within
    the limits, is downloaded with format JPEG or PNG. *)
Theorem DownloadImage_registered_formats :
  forall (L : GoLibs) (id : image_downloader.ImageDownloader) (imageURL : string),
    image_downloader.isValidImageType id "image/gif" = true
    /\ image_downloader.isValidImageType id "image/webp" = true
    /\ (forall img md,
           image_downloader.DownloadImage id imageURL = Ok (img, md) ->
           models.Format md = "JPEG" \/ models.Format md = "PNG")
    /\ (forall resp,
           image_downloader.validateURL id imageURL = None ->
           (forall req, image_downloader.client id req = Ok resp) ->
           http.StatusCode resp = http.StatusOK ->
           image_downloader.isValidImageType id (http.ContentType resp) = true ->
           http.ContentLength resp <= config.MaxImageSize (image_downloader.config id) ->
           (~ notions.starts_with (http.Body resp) imagefmt.jpeg_magic ->
            ~ notions.starts_with (http.Body resp) imagefmt.png_magic ->
            image_downloader.DownloadImage id imageURL
            = Err (image_downloader.ErrDecodeImage imagefmt.ErrFormat))
           /\ (forall img md,
                  image_downloader.DownloadImage id imageURL = Ok (img, md) ->
                  (models.Format md = "JPEG"
                   /\ notions.starts_with (http.Body resp) imagefmt.jpeg_magic)
                  \/ (models.Format md = "PNG"
                      /\ notions.starts_with (http.Body resp) imagefmt.png_magic))
           /\ (forall img,
                  notions.starts_with (http.Body resp) imagefmt.jpeg_magic ->
                  jpeg_Decode (http.Body resp) = Some img ->
                  image.Dx (image.Rect img) <= config.MaxWidth (image_downloader.config id) ->
                  image.Dy (image.Rect img) <= config.MaxHeight (image_downloader.config id) ->
                  exists md,
                    image_downloader.DownloadImage id imageURL = Ok (img, md)
                    /\ models.Format md = "JPEG")
           /\ (forall img,
                  notions.starts_with (http.Body resp) imagefmt.png_magic ->
                  png_Decode (http.Body resp) = Some img ->
                  image.Dx (image.Rect img) <= config.MaxWidth (image_downloader.config id) ->
                  image.Dy (image.Rect img) <= config.MaxHeight (image_downloader.config id) ->
                  exists md,
                    image_downloader.DownloadImage id imageURL = Ok (img, md)
                    /\ models.Format md = "PNG")).
Proof.
  intros L id imageURL.
  split; [reflexivity|]. split; [reflexivity|]. split.
  - intros img md Hok.
    apply DownloadImage_Ok in Hok as (req & resp & format & _ & _ & _ & _ & Hd & Hf).
    apply Decode_format in Hd as [[-> _]|[-> _]]; rewrite Hf; [left|right]; reflexivity.
  - intros resp Hvalid Hclient Hstatus Htype Hlen.
    pose proof (DownloadImage_fetched id imageURL resp Hvalid Hclient Hstatus Htype) as Hd.
    destruct (Z.ltb_spec (config.MaxImageSize (image_downloader.config id))
                (http.ContentLength resp)); [lia|].
    split; [|split; [|split]].
    + intros Hnj Hnp. rewrite Hd.
      destruct (Decode_registered (http.Body resp)) as [[Hj _]|[(_ & Hp & _)|(_ & _ & ->)]];
        [contradiction|contradiction|reflexivity].
    + intros img md Hok. rewrite Hd in Hok.
      destruct (imagefmt.Decode _ _) as [[img' format]|err] eqn:Hdec; [|discriminate Hok].
      cbv zeta in Hok. destruct (_ || _); [discriminate Hok|].
      injection Hok as _ <-. cbn [models.Format].
      apply Decode_format in Hdec as [[-> Hs]|[-> Hs]]; [left|right];
        (split; [reflexivity|exact Hs]).
    + intros img Hj Hdec Hw Hh. rewrite Hd.
      destruct (Decode_registered (http.Body resp)) as [[_ ->]|[(Hnj & _)|(Hnj & _)]];
        [|contradiction|contradiction].
      rewrite Hdec. cbv zeta.
      destruct (Z.ltb_spec (config.MaxWidth (image_downloader.config id))
                  (image.Dx (image.Rect img))); [lia|].
      destruct (Z.ltb_spec (config.MaxHeight (image_downloader.config id))
                  (image.Dy (image.Rect img))); [lia|].
      cbn [orb]. eexists. split; reflexivity.
    + intros img Hp Hdec Hw Hh. rewrite Hd.
      destruct (Decode_registered (http.Body resp)) as [[Hj _]|[(_ & _ & ->)|(_ & Hnp & _)]];
        [|rewrite Hdec|contradiction].
      * exfalso. destruct Hj as [rest1 Hj], Hp as [rest2 Hp].
        rewrite Hj in Hp. discriminate Hp.
      * cbv zeta.
        destruct (Z.ltb_spec (config.MaxWidth (image_downloader.config id))
                    (image.Dx (image.Rect img))); [lia|].
        destruct (Z.ltb_spec (config.MaxHeight (image_downloader.config id))
                    (image.Dy (image.Rect img))); [lia|].
        cbn [orb]. eexists. split; reflexivity.
Qed.

(** C10 on two responses labelled image/gif: the one that carries the first
    bytes of a GIF file fails with "unknown format". *)
Lemma DownloadImage_registered_formats_witness :
  image_downloader.DownloadImage (H := sample.libs)
    (sample.downloader (sample.response "image/gif" 8 sample.gif_body))
    "https://example.com/a.gif"
  = Err (image_downloader.ErrDecodeImage imagefmt.ErrFormat).
Proof.
  pose proof (DownloadImage_registered_formats sample.libs
                (sample.downloader (sample.response "image/gif" 8 sample.gif_body))
                "https://example.com/a.gif") as (_ & _ & _ & Hresp).
  destruct (Hresp (sample.response "image/gif" 8 sample.gif_body)
              eq_refl (fun _ => eq_refl) eq_refl eq_refl) as (Hunknown & _); [cbn; lia|].
  apply Hunknown; intros [rest Hrest]; discriminate Hrest.
Defined.

(** C10 fails as stated, in two ways. A response labelled image/gif that
    declares 6000000 bytes is refused by the size check, with the "image too
    large" error and not a decoding error. A response labelled image/gif
    whose body is a picture that the JPEG decoder accepts is downloaded, with
    format JPEG, and so is, with format PNG, a response labelled image/webp
    whose body is a picture that the PNG decoder accepts: here the pictures
    are those of the sample decoders, and by the last two parts of the
    theorem above the same holds for the decoders of image/jpeg and
    image/png and every JPEG or PNG file within the limits. *)
Lemma gif_labelled_jpeg_is_downloaded :
  let download (resp : http.Response) :=
    image_downloader.DownloadImage (H := sample.libs) (sample.downloader resp)
      "https://example.com/a.gif" in
  download (sample.response "image/gif" 6000000 sample.gif_body)
  = Err (image_downloader.ErrImageTooLarge 6000000 5242880)
  /\ download (sample.response "image/gif" 4 sample.jpeg_body)
     = Ok (sample.blank 64 48,
           {| models.Metadata_Width := 64; models.Metadata_Height := 48;
              models.Format := "JPEG"; models.SizeBytes := 4;
              models.URL := "https://example.com/a.gif" |})
  /\ download (sample.response "image/webp" 10
                 (imagefmt.png_magic ++ String "032" (String "024" EmptyString)))
     = Ok (sample.blank 32 24,
           {| models.Metadata_Width := 32; models.Metadata_Height := 24;
              models.Format := "PNG"; models.SizeBytes := 10;
              models.URL := "https://example.com/a.gif" |}).
Proof. split; [|split]; reflexivity. Qed.

(** ** Drawing *)

Section Painting.

Import image store imageops image_processor.

Implicit Types (h : gmap positive Image) (img : positive) (col : RGBA).

Lemma painted_nil h img col (m : Image) :
  h !! img = Some m -> notions.painted h img [] col h.
Proof.
  intros Hm. exists m, m. split; [exact Hm|]. split; [now rewrite insert_id|].
  split; [reflexivity|]. intros x y. cbn. now rewrite andb_false_r.
Qed.

Lemma mem_point_app (x y : Z) (p1 p2 : list (Z * Z)) :
  notions.mem_point x y (p1 ++ p2) = notions.mem_point x y p1 || notions.mem_point x y p2.
Proof. unfold notions.mem_point. apply List.existsb_app. Qed.

Lemma painted_app h h1 h2 img col (p1 p2 : list (Z * Z)) :
  notions.painted h img p1 col h1 ->
  notions.painted h1 img p2 col h2 ->
  notions.painted h img (p1 ++ p2) col h2.
Proof.
  intros (m & m1 & Hm & -> & Hr1 & Hp1) (m1' & m2 & Hm1 & -> & Hr2 & Hp2).
  rewrite lookup_insert_eq in Hm1. injection Hm1 as <-.
  exists m, m2. split; [exact Hm|]. split; [now rewrite insert_insert_eq|].
  split; [congruence|]. intros x y.
  rewrite Hp2, Hp1, Hr1, mem_point_app.
  destruct (In x y (Rect m)), (notions.mem_point x y p1), (notions.mem_point x y p2);
    reflexivity.
Qed.

Lemma painted_lookup h h' img col (pts : list (Z * Z)) :
  notions.painted h img pts col h' -> exists m', h' !! img = Some m'.
Proof.
  intros (m & m' & _ & -> & _). exists m'. apply lookup_insert_eq.
Qed.

Lemma setPixelSafe_painted h img col (m : Image) (x y : Z) :
  h !! img = Some m ->
  exists h', setPixelSafe img x y col h = Returns tt h'
             /\ notions.painted h img [(x, y)] col h'.
Proof.
  intros Hm. unfold setPixelSafe, Bounds, RGBA_Set, bind, load, ret, store.store.
  rewrite Hm. fold (In x y (Rect m)).
  destruct (In x y (Rect m)) eqn:Hin.
  - rewrite Hm, Hin, Hm. eexists. split; [reflexivity|].
    exists m. eexists. split; [exact Hm|]. split; [reflexivity|].
    split; [reflexivity|]. intros x' y'. cbn.
    rewrite orb_false_r, (Z.eqb_sym x x'), (Z.eqb_sym y y').
    destruct (Z.eqb_spec x' x) as [->|]; destruct (Z.eqb_spec y' y) as [->|];
      cbn; rewrite ?Z.eqb_refl, ?Hin, ?andb_false_r; reflexivity.
  - exists h. split; [reflexivity|].
    exists m, m. split; [exact Hm|]. split; [now rewrite insert_id|].
    split; [reflexivity|]. intros x' y'. cbn.
    rewrite orb_false_r, (Z.eqb_sym x x'), (Z.eqb_sym y y').
    destruct (Z.eqb_spec x' x) as [->|]; destruct (Z.eqb_spec y' y) as [->|];
      cbn; rewrite ?Z.eqb_refl, ?Hin, ?andb_false_r; reflexivity.
Qed.

(** A write outside the bounds changes nothing and returns normally. *)
Lemma setPixelSafe_outside h img col (m : Image) (x y : Z) :
  h !! img = Some m -> In x y (Rect m) = false ->
  setPixelSafe img x y col h = Returns tt h.
Proof.
  intros Hm Hin. unfold setPixelSafe, Bounds, bind, load, ret.
  rewrite Hm. fold (In x y (Rect m)). now rewrite Hin.
Qed.

(** A write within the bounds sets that pixel and no other. *)
Lemma setPixelSafe_inside h img col (m : Image) (x y : Z) :
  h !! img = Some m -> In x y (Rect m) = true ->
  setPixelSafe img x y col h
  = Returns tt
      (<[img := {| Rect := Rect m;
                   Pix := fun x' y' => if (x' =? x) && (y' =? y) then col else Pix m x' y' |}]> h).
Proof.
  intros Hm Hin. unfold setPixelSafe, Bounds, RGBA_Set, bind, load, ret, store.store.
  rewrite Hm. fold (In x y (Rect m)). now rewrite Hin, Hm, Hin, Hm.
Qed.

Lemma bind_painted h img col (pts1 pts2 : list (Z * Z)) (c1 c2 : M unit) :
  (exists h1, c1 h = Returns tt h1 /\ notions.painted h img pts1 col h1) ->
  (forall h1 m1, h1 !! img = Some m1 ->
     exists h2, c2 h1 = Returns tt h2 /\ notions.painted h1 img pts2 col h2) ->
  exists h2, (run c1 ;;; c2) h = Returns tt h2
             /\ notions.painted h img (pts1 ++ pts2) col h2.
Proof.
  intros (h1 & Hc1 & Hp1) Hc2.
  destruct (painted_lookup _ _ _ _ _ Hp1) as [m1 Hm1].
  destruct (Hc2 h1 m1 Hm1) as (h2 & Hc2' & Hp2).
  exists h2. unfold bind. rewrite Hc1. split; [exact Hc2'|].
  eapply painted_app; eassumption.
Qed.

Lemma drawEight_painted h img col (m : Image) (cx cy x y : Z) :
  h !! img = Some m ->
  exists h', drawEight img cx cy x y col h = Returns tt h'
             /\ notions.painted h img (notions.eightPoints cx cy x y) col h'.
Proof.
  intros Hm. unfold drawEight, notions.eightPoints.
  repeat (apply (bind_painted h img col [_] _);
          [now apply (setPixelSafe_painted h img col m)|clear h m Hm; intros h m Hm]).
  now apply (setPixelSafe_painted h img col m).
Qed.

Lemma add_exact (a b : Z) : GoInt.in_range (a + b) -> GoInt.add a b = a + b.
Proof. apply wrap_id. Qed.

Lemma sub_exact (a b : Z) : GoInt.in_range (a - b) -> GoInt.sub a b = a - b.
Proof. apply wrap_id. Qed.

(** The inner loop returns within its fuel, and paints the points of the
    outline from its step on. *)
Lemma circleLoop_painted img col (cx cy : Z) (fuel : nat) :
  forall h (m : Image) (x y d : Z),
    h !! img = Some m ->
    0 <= x ->
    y < GoInt.MaxInt \/ (x < y /\ y <= GoInt.MaxInt /\ 0 <= d) ->
    y - x < Z.of_nat fuel ->
    exists h', circleLoop fuel img cx cy col x y d h = Returns tt h'
               /\ notions.painted h img (notions.circlePoints fuel cx cy x y d) col h'.
Proof.
  induction fuel as [|fuel IH]; intros h m x y d Hm Hx Hy Hfuel.
  - cbn [circleLoop notions.circlePoints].
    destruct (Z.leb_spec x y); [lia|].
    exists h. split; [reflexivity|]. now apply (painted_nil h img col m).
  - cbn [circleLoop notions.circlePoints].
    destruct (Z.leb_spec x y) as [Hxy|Hxy].
    + apply bind_painted; [now apply (drawEight_painted h img col m)|].
      clear h m Hm. intros h m Hm.
      assert (Hx1 : GoInt.add x 1 = x + 1).
      { apply add_exact. unfold GoInt.in_range, GoInt.MinInt, GoInt.MaxInt in *. lia. }
      destruct (Z.ltb_spec d 0) as [Hd|Hd].
      * rewrite Hx1. apply (IH h m); [exact Hm|lia|left; lia|lia].
      * assert (Hy1 : GoInt.sub y 1 = y - 1).
        { apply sub_exact. unfold GoInt.in_range, GoInt.MinInt, GoInt.MaxInt in *. lia. }
        rewrite Hx1, Hy1. apply (IH h m); [exact Hm|lia|left; lia|lia].
    + exists h. split; [reflexivity|]. now apply (painted_nil h img col m).
Qed.

Lemma strokeRadius_in_range (radius w lineWidth : Z) :
  GoInt.in_range (strokeRadius radius w lineWidth).
Proof. apply wrap_in_range. Qed.

(** One stroke returns, and paints the outline of its radius. *)
Lemma drawStroke_painted h img col (m : Image) (cx cy radius lineWidth w : Z) :
  h !! img = Some m ->
  exists h', drawStroke img cx cy radius col lineWidth w h = Returns tt h'
             /\ notions.painted h img
                  (notions.outlinePoints cx cy (strokeRadius radius w lineWidth)) col h'.
Proof.
  intros Hm. unfold drawStroke, notions.outlinePoints.
  pose proof (strokeRadius_in_range radius w lineWidth) as Hr.
  set (r := strokeRadius radius w lineWidth) in *.
  destruct (Z.leb_spec r 0) as [Hneg|Hpos].
  - exists h. split; [reflexivity|]. now apply (painted_nil h img col m).
  - apply (circleLoop_painted img col cx cy _ h m); [exact Hm|lia| |lia].
    destruct (Z.eq_dec r GoInt.MaxInt) as [->|Hne].
    + right. vm_compute. repeat split; discriminate.
    + left. unfold GoInt.in_range in Hr. lia.
Qed.

Lemma strokeLoop_painted img col (cx cy radius lineWidth : Z) (remaining : nat) :
  forall h (m : Image) (w : Z),
    h !! img = Some m ->
    exists h', strokeLoop remaining img cx cy radius col lineWidth w h = Returns tt h'
               /\ notions.painted h img
                    (notions.strokesPoints remaining cx cy radius lineWidth w) col h'.
Proof.
  induction remaining as [|n IH]; intros h m w Hm.
  - exists h. split; [reflexivity|]. now apply (painted_nil h img col m).
  - cbn [strokeLoop notions.strokesPoints].
    apply bind_painted; [now apply (drawStroke_painted h img col m)|].
    intros h1 m1 Hm1. now apply (IH h1 m1).
Qed.

Lemma drawFace_painted h img (m : Image) (opts : CircleOptions) (face : models.Face) :
  h !! img = Some m ->
  exists h', drawFace img opts face h = Returns tt h'
             /\ notions.painted h img (notions.faceOutline opts face) (Color opts) h'.
Proof.
  intros Hm. unfold drawFace, drawCircle, notions.faceOutline.
  now apply (strokeLoop_painted _ _ _ _ _ _ _ h m).
Qed.

Lemma drawFaces_painted img (opts : CircleOptions) (faces : list models.Face) :
  forall h (m : Image),
    h !! img = Some m ->
    exists h', drawFaces img opts faces h = Returns tt h'
               /\ notions.painted h img (notions.outlines opts faces) (Color opts) h'.
Proof.
  induction faces as [|face faces IH]; intros h m Hm.
  - exists h. split; [reflexivity|]. now apply (painted_nil h img _ m).
  - cbn [drawFaces notions.outlines List.flat_map].
    apply bind_painted; [now apply (drawFace_painted h img m)|].
    intros h1 m1 Hm1. now apply (IH h1 m1).
Qed.

End Painting.

Section Rendering.

Import image store imageops image_processor.

Lemma wrap_add_wrap_r (a b : Z) : GoInt.wrap (a + GoInt.wrap b) = GoInt.wrap (a + b).
Proof.
  unfold GoInt.wrap. f_equal.
  replace (a + ((b + 2 ^ 63) mod 2 ^ 64 - 2 ^ 63) + 2 ^ 63)
    with (a + (b + 2 ^ 63) mod 2 ^ 64) by lia.
  rewrite Zplus_mod_idemp_r. f_equal. lia.
Qed.

Lemma add_sub_back (a x : Z) : GoInt.in_range x -> GoInt.add a (GoInt.sub x a) = x.
Proof.
  intros Hx. unfold GoInt.add, GoInt.sub. rewrite wrap_add_wrap_r.
  replace (a + (x - a)) with x by lia. now apply wrap_id.
Qed.

Lemma In_in_range (x y : Z) (r : Rectangle) :
  notions.rect_in_range r -> In x y r = true -> GoInt.in_range x /\ GoInt.in_range y.
Proof.
  unfold notions.rect_in_range, In, GoInt.in_range. intros (Hx0 & Hy0 & Hx1 & Hy1) Hin.
  repeat (apply andb_true_iff in Hin as [Hin ?]). lia.
Qed.

(** The strokes of a circle are all skipped when their radii are not
    positive. *)
Lemma strokeLoop_skipped img col (cx cy radius lineWidth : Z) (remaining : nat) :
  forall h (w : Z),
    0 <= w -> w + Z.of_nat remaining <= GoInt.MaxInt ->
    (forall k, 0 <= k < Z.of_nat remaining ->
       strokeRadius radius (w + k) lineWidth <= 0) ->
    strokeLoop remaining img cx cy radius col lineWidth w h = Returns tt h.
Proof.
  induction remaining as [|n IH]; intros h w Hw Hmax Hskip; [reflexivity|].
  cbn [strokeLoop]. unfold bind, drawStroke.
  pose proof (Hskip 0 ltac:(lia)) as H0. rewrite Z.add_0_r in H0.
  destruct (Z.leb_spec (strokeRadius radius w lineWidth) 0); [|lia].
  cbn [ret]. rewrite add_exact
    by (unfold GoInt.in_range, GoInt.MinInt, GoInt.MaxInt in *; lia).
  apply IH; [lia|lia|]. intros k Hk.
  replace (w + 1 + k) with (w + (k + 1)) by lia. apply Hskip. lia.
Qed.

Lemma strokeRadius_exact (radius w lineWidth : Z) :
  - 2 ^ 62 <= radius <= 0 -> 0 <= w < lineWidth -> lineWidth <= GoInt.MaxInt ->
  strokeRadius radius w lineWidth = radius + w - Z.quot lineWidth 2.
Proof.
  intros Hr Hw Hl. unfold strokeRadius, GoInt.quot.
  assert (Hq : 0 <= Z.quot lineWidth 2 <= 2 ^ 62).
  { rewrite Z.quot_div_nonneg by lia. unfold GoInt.MaxInt in Hl. split.
    - apply Z.div_pos; lia.
    - apply Z.div_le_upper_bound; lia. }
  rewrite (wrap_id (Z.quot lineWidth 2))
    by (unfold GoInt.in_range, GoInt.MinInt, GoInt.MaxInt; lia).
  rewrite add_exact by (unfold GoInt.in_range, GoInt.MinInt, GoInt.MaxInt in *; lia).
  apply sub_exact. unfold GoInt.in_range, GoInt.MinInt, GoInt.MaxInt in *. lia.
Qed.

Lemma drawCircle_skipped h img col (cx cy radius lineWidth : Z) :
  - 2 ^ 62 <= radius <= 0 -> lineWidth <= GoInt.MaxInt ->
  radius + (lineWidth - 1) - Z.quot lineWidth 2 <= 0 ->
  drawCircle img cx cy radius col lineWidth h = Returns tt h.
Proof.
  intros Hr Hl Hlast. unfold drawCircle.
  destruct (Z.le_gt_cases lineWidth 0) as [Hle|Hgt].
  - replace (Z.to_nat lineWidth) with O by lia. reflexivity.
  - apply strokeLoop_skipped; [lia|lia|].
    intros k Hk. rewrite Z.add_0_l, strokeRadius_exact by lia. lia.
Qed.

Context `{GoLibs}.

(** [DrawFaceCircles] returns; the store it leaves is the one it was given
    with one more buffer, the copy, which holds the picture with the
    outlines painted over it. *)
Lemma DrawFaceCircles_returns h (src : positive) (m : Image)
    (faces : list models.Face) (opts : CircleOptions) :
  h !! src = Some m ->
  notions.rect_in_range (Rect m) ->
  exists (rgba : positive) (copy : Image),
    h !! rgba = None
    /\ DrawFaceCircles src faces opts h
       = Returns
           match jpeg_Encode copy 90 with
           | Err err => Err err
           | Ok buf => Ok ("data:image/jpeg;base64," ++ base64_EncodeToString buf)
           end
           (<[rgba := copy]> h)
    /\ Rect copy = Rect m
    /\ forall x y,
         At copy x y
         = if In x y (Rect m) && notions.mem_point x y (notions.outlines opts faces)
           then Color opts else At m x y.
Proof.
  intros Hm Hrange.
  set (rgba := fresh (dom h)).
  assert (Hfresh : h !! rgba = None).
  { apply not_elem_of_dom. apply is_fresh. }
  assert (Hne : src <> rgba) by (intros ->; congruence).
  set (zero := {| Rect := Rect m; Pix := fun _ _ => transparent |}).
  set (drawn :=
         {| Rect := Rect zero;
            Pix := fun x y =>
              let sx := GoInt.add (PX (Min (Rect m))) (GoInt.sub x (PX (Min (Rect m)))) in
              let sy := GoInt.add (PY (Min (Rect m))) (GoInt.sub y (PY (Min (Rect m)))) in
              if In x y (Rect m) && In x y (Rect zero) && In sx sy (Rect m)
              then Pix m sx sy else Pix zero x y |}).
  set (h1 := <[rgba := drawn]> h).
  assert (Hdrawn : h1 !! rgba = Some drawn) by apply lookup_insert_eq.
  destruct (drawFaces_painted rgba opts faces h1 drawn Hdrawn)
    as (h2 & Hfaces & (m1 & copy & Hm1 & Hh2 & Hrect & Hpix)).
  rewrite Hdrawn in Hm1. injection Hm1 as <-.
  assert (Hh2' : h2 = <[rgba := copy]> h).
  { rewrite Hh2. unfold h1. apply insert_insert_eq. }
  exists rgba, copy. split; [exact Hfresh|]. split; [|split].
  - unfold DrawFaceCircles, Bounds, NewRGBA, draw_Draw, encodeToBase64,
      bind, load, alloc, ret, store.store.
    rewrite Hm. fold rgba. fold zero.
    rewrite lookup_insert_eq, (lookup_insert_ne _ rgba src) by congruence.
    rewrite Hm, lookup_insert_eq, insert_insert_eq.
    fold drawn. fold h1. rewrite Hfaces, Hh2'.
    rewrite lookup_insert_eq.
    destruct (jpeg_Encode copy 90); reflexivity.
  - exact Hrect.
  - intros x y. unfold At. rewrite Hrect. cbn [Rect drawn zero].
    destruct (In x y (Rect m)) eqn:Hin; [|reflexivity].
    rewrite Hpix. cbn [Rect Pix drawn zero]. rewrite Hin. cbn [andb].
    destruct (In_in_range x y (Rect m) Hrange Hin) as [Hx Hy].
    rewrite !add_sub_back, Hin by assumption.
    destruct (notions.mem_point x y _); reflexivity.
Qed.

End Rendering.

(** ** The outlines are circles *)

Section Geometry.

Variables cx cy r : Z.
Hypothesis Hr : 0 < r <= 2 ^ 30.
Hypothesis Hcx : - 2 ^ 31 <= cx <= 2 ^ 31.
Hypothesis Hcy : - 2 ^ 31 <= cy <= 2 ^ 31.

Lemma small_exact (z : Z) : - 2 ^ 62 <= z <= 2 ^ 62 -> GoInt.wrap z = z.
Proof.
  intros Hz. apply wrap_id. unfold GoInt.in_range, GoInt.MinInt, GoInt.MaxInt. lia.
Qed.

Lemma eightPoints_on_circle (x y px py : Z) :
  0 <= x <= y -> y <= r -> notions.near_circle r x y ->
  List.In (px, py) (notions.eightPoints cx cy x y) -> notions.on_circle cx cy r px py.
Proof.
  intros Hxy Hy Hnear Hin. exists x, y.
  split; [exact Hxy|]. split; [exact Hy|]. split; [exact Hnear|].
  unfold notions.eightPoints, GoInt.add, GoInt.sub in Hin.
  rewrite !small_exact in Hin by lia.
  cbn in Hin.
  repeat (destruct Hin as [[= <- <-]|Hin]; [tauto|]). destruct Hin.
Qed.

Lemma square_bound (z : Z) : 0 <= z <= 2 ^ 30 + 1 -> 0 <= z * z <= 2 ^ 61.
Proof. intros Hz. nia. Qed.

(** The invariant of the loop: [d] is the sum of the values of
    [x^2 + y^2 - r^2] at the two candidates for the next point, [(x+1, y)]
    and [(x+1, y-1)], and [(x, y)] is within one pixel of the circle. *)
Lemma circlePoints_on_circle (fuel : nat) :
  forall x y d px py,
    0 <= x -> y <= r ->
    d = 2 * ((x + 1) * (x + 1)) + y * y + (y - 1) * (y - 1) - 2 * (r * r) ->
    r * r < x * x + (y + 1) * (y + 1) ->
    (x <= y -> x * x + (y - 1) * (y - 1) < r * r) ->
    List.In (px, py) (notions.circlePoints fuel cx cy x y d) ->
    notions.on_circle cx cy r px py.
Proof.
  induction fuel as [|fuel IH]; intros x y d px py Hx Hy Hd Hup Hlow Hin.
  - cbn in Hin. destruct (x <=? y); destruct Hin.
  - cbn [notions.circlePoints] in Hin.
    destruct (Z.leb_spec x y) as [Hxy|Hxy]; [|destruct Hin].
    specialize (Hlow Hxy).
    apply List.in_app_or in Hin as [Hin|Hin].
    { apply (eightPoints_on_circle x y); try assumption; try lia.
      split; assumption. }
    assert (Hy1 : 1 <= y) by nia.
    pose proof (square_bound (x + 1) ltac:(lia)) as Bx.
    pose proof (square_bound y ltac:(lia)) as By.
    pose proof (square_bound (y - 1) ltac:(lia)) as By1.
    pose proof (square_bound r ltac:(lia)) as Br.
    unfold GoInt.add, GoInt.sub, GoInt.mul in Hin.
    rewrite (small_exact (x + 1)) in Hin by lia.
    rewrite (small_exact (y - 1)) in Hin by lia.
    rewrite (small_exact (4 * x)) in Hin by lia.
    rewrite (small_exact (x - y)) in Hin by lia.
    rewrite (small_exact (4 * (x - y))) in Hin by lia.
    rewrite (small_exact (d + 4 * x)) in Hin by lia.
    rewrite (small_exact (d + 4 * x + 6)) in Hin by lia.
    rewrite (small_exact (d + 4 * (x - y))) in Hin by lia.
    rewrite (small_exact (d + 4 * (x - y) + 10)) in Hin by lia.
    destruct (Z.ltb_spec d 0) as [Hneg|Hpos].
    + apply (IH (x + 1) y (d + 4 * x + 6)); try assumption; try lia; try nia.
    + apply (IH (x + 1) (y - 1) (d + 4 * (x - y) + 10)); try assumption; try lia; try nia.
Qed.

(** Every point of the outline of radius [r] is within one pixel of the
    circle of radius [r] around the centre. *)
Lemma outlinePoints_on_circle (px py : Z) :
  List.In (px, py) (notions.outlinePoints cx cy r) -> notions.on_circle cx cy r px py.
Proof.
  unfold notions.outlinePoints. destruct (Z.leb_spec r 0); [lia|].
  unfold GoInt.sub, GoInt.mul.
  rewrite (small_exact (2 * r)), (small_exact (3 - 2 * r)) by lia.
  apply circlePoints_on_circle; lia.
Qed.

End Geometry.

Section Outlines.

Import image_processor.

Lemma mem_point_In (x y : Z) (points : list (Z * Z)) :
  notions.mem_point x y points = true <-> List.In (x, y) points.
Proof.
  unfold notions.mem_point. rewrite List.existsb_exists. split.
  - intros ([px py] & Hin & Heq). cbn in Heq.
    apply andb_true_iff in Heq as [Hx Hy].
    apply Z.eqb_eq in Hx, Hy. now subst.
  - intros Hin. exists (x, y). split; [exact Hin|]. cbn. now rewrite !Z.eqb_refl.
Qed.

(** A point of the strokes of a circle is on the stroke of one offset. *)
Lemma strokesPoints_offset (cx cy radius lineWidth : Z) (p : Z * Z) (remaining : nat) :
  forall w,
    0 <= w -> w + Z.of_nat remaining <= GoInt.MaxInt + 1 ->
    List.In p (notions.strokesPoints remaining cx cy radius lineWidth w) ->
    exists k, w <= k < w + Z.of_nat remaining
              /\ List.In p (notions.outlinePoints cx cy (strokeRadius radius k lineWidth)).
Proof.
  induction remaining as [|n IH]; intros w Hw Hmax Hin; [destruct Hin|].
  cbn [notions.strokesPoints] in Hin. apply List.in_app_or in Hin as [Hin|Hin].
  - exists w. split; [lia|exact Hin].
  - destruct n as [|n]; [destruct Hin|].
    rewrite add_exact in Hin
      by (unfold GoInt.in_range, GoInt.MinInt, GoInt.MaxInt in *; lia).
    destruct (IH (w + 1) ltac:(lia) ltac:(lia) Hin) as (k & Hk & Hpk).
    exists k. split; [lia|exact Hpk].
Qed.

(** A point of the outlines is on the stroke of one offset of the circle of
    one face. *)
Lemma outlines_stroke (opts : CircleOptions) (faces : list models.Face) (x y : Z) :
  LineWidth opts <= GoInt.MaxInt ->
  notions.mem_point x y (notions.outlines opts faces) = true ->
  exists face w,
    List.In face faces
    /\ 0 <= w < LineWidth opts
    /\ List.In (x, y)
         (notions.outlinePoints (notions.faceCenterX face) (notions.faceCenterY face)
            (strokeRadius (faceRadius face) w (LineWidth opts))).
Proof.
  intros Hl Hmem. apply mem_point_In in Hmem.
  unfold notions.outlines in Hmem. apply List.in_flat_map in Hmem as (face & Hface & Hin).
  unfold notions.faceOutline in Hin.
  destruct (Z.le_gt_cases (LineWidth opts) 0) as [Hle|Hgt].
  - replace (Z.to_nat (LineWidth opts)) with O in Hin by lia. destruct Hin.
  - apply strokesPoints_offset in Hin as (k & Hk & Hpk); [|lia|lia].
    exists face, k. split; [exact Hface|]. split; [lia|exact Hpk].
Qed.

End Outlines.

(** C7. [DrawFaceCircles] draws on a copy of its own: the store it leaves is
    the store it was given plus the new buffer, so the source image, like
    every other buffer, is as it was. The copy has the bounds of the source
    and shows the source, except that the points of the circle outlines that
    lie within the bounds have the stroke colour: a point off the outlines,
    or out of the bounds, reads the same in the copy and in the source. A
    point that reads differently is on the outline of one stroke of the
    circle of one face, hence, for a radius up to 2^30 and a centre within
    2^31 of the origin, within one pixel of the circle of that radius. A
    write through [setPixelSafe] at a point out of the bounds of a buffer
    returns normally and leaves the store as it is. *)
Theorem DrawFaceCircles_frame :
  forall (L : GoLibs) (h : gmap positive image.Image) (src : positive) (m : image.Image)
         (faces : list models.Face) (opts : image_processor.CircleOptions),
    h !! src = Some m ->
    notions.rect_in_range (image.Rect m) ->
    (exists (rgba : positive) (copy : image.Image) (encoded : result string string),
        image_processor.DrawFaceCircles src faces opts h
        = store.Returns encoded (<[rgba := copy]> h)
        /\ h !! rgba = None
        /\ (<[rgba := copy]> h) !! src = Some m
        /\ (forall l, l <> rgba -> (<[rgba := copy]> h) !! l = h !! l)
        /\ image.Rect copy = image.Rect m
        /\ (forall x y,
               image.At copy x y
               = if image.In x y (image.Rect m)
                    && notions.mem_point x y (notions.outlines opts faces)
                 then image_processor.Color opts else image.At m x y)
        /\ (forall x y,
               notions.mem_point x y (notions.outlines opts faces) = false ->
               image.At copy x y = image.At m x y)
        /\ (forall x y,
               image.In x y (image.Rect m) = false ->
               image.At copy x y = image.At m x y)
        /\ (image_processor.LineWidth opts <= GoInt.MaxInt ->
            forall x y,
              image.At copy x y <> image.At m x y ->
              exists face w,
                List.In face faces
                /\ 0 <= w < image_processor.LineWidth opts
                /\ let centerX := notions.faceCenterX face in
                   let centerY := notions.faceCenterY face in
                   let r :=
                     image_processor.strokeRadius (image_processor.faceRadius face) w
                       (image_processor.LineWidth opts) in
                   List.In (x, y) (notions.outlinePoints centerX centerY r)
                   /\ (r <= 2 ^ 30 ->
                       - 2 ^ 31 <= centerX <= 2 ^ 31 ->
                       - 2 ^ 31 <= centerY <= 2 ^ 31 ->
                       notions.on_circle centerX centerY r x y)))
    /\ (forall (h1 : gmap positive image.Image) (img : positive) (m1 : image.Image)
               (x y : Z) (col : image.RGBA),
           h1 !! img = Some m1 ->
           image.In x y (image.Rect m1) = false ->
           image_processor.setPixelSafe img x y col h1 = store.Returns tt h1).
Proof.
  intros L h src m faces opts Hm Hrange. split.
  - destruct (DrawFaceCircles_returns h src m faces opts Hm Hrange)
      as (rgba & copy & Hfresh & Hrun & Hrect & Hat).
    assert (Hne : src <> rgba) by (intros ->; congruence).
    exists rgba, copy. eexists. split; [exact Hrun|]. split; [exact Hfresh|].
    split; [now rewrite lookup_insert_ne by congruence|].
    split; [intros l Hl; now rewrite lookup_insert_ne by congruence|].
    split; [exact Hrect|]. split; [exact Hat|]. split; [|split].
    + intros x y Hoff. rewrite Hat, Hoff, andb_false_r. reflexivity.
    + intros x y Hout. rewrite Hat, Hout. reflexivity.
    + intros Hwidth x y Hchanged.
      assert (Hmem : notions.mem_point x y (notions.outlines opts faces) = true).
      { destruct (notions.mem_point x y _) eqn:Hmem; [reflexivity|].
        exfalso. apply Hchanged. rewrite Hat, Hmem, andb_false_r. reflexivity. }
      destruct (outlines_stroke opts faces x y Hwidth Hmem) as (face & w & Hface & Hw & Hin).
      exists face, w. split; [exact Hface|]. split; [exact Hw|].
      cbv zeta. split; [exact Hin|].
      intros Hr Hcx Hcy. apply outlinePoints_on_circle; try assumption.
      split; [|exact Hr].
      unfold notions.outlinePoints in Hin.
      destruct (Z.leb_spec (image_processor.strokeRadius (image_processor.faceRadius face) w
                              (image_processor.LineWidth opts)) 0);
        [destruct Hin|assumption].
  - intros h1 img m1 x y col Hm1 Hout. now apply (setPixelSafe_outside h1 img col m1).
Qed.

(** C7 on a 10 by 10 picture and a face of 6 by 6 pixels near its corner,
    whose circle is partly out of the bounds. *)
Lemma DrawFaceCircles_frame_witness :
  let face :=
    {| models.X := 6; models.Y := 6; models.Width := 6; models.Height := 6;
       models.Confidence := GoFloat.float32_of_int 20 |} in
  let opts :=
    {| image_processor.Color := image_processor.ParseColor "red";
       image_processor.LineWidth := 3 |} in
  let m := sample.blank 10 10 in
  let h : gmap positive image.Image := <[1%positive := m]> ∅ in
  exists (rgba : positive) (copy : image.Image) (encoded : result string string),
    image_processor.DrawFaceCircles (H := sample.libs) 1%positive [face] opts h
    = store.Returns encoded (<[rgba := copy]> h)
    /\ (<[rgba := copy]> h) !! 1%positive = Some m
    /\ image.At copy 0 0 = image.At m 0 0.
Proof.
  intros face opts m h.
  destruct (DrawFaceCircles_frame sample.libs h 1%positive m [face] opts) as [Hcopy _].
  - reflexivity.
  - unfold notions.rect_in_range, GoInt.in_range, GoInt.MinInt, GoInt.MaxInt. cbn. lia.
  - destruct Hcopy as (rgba & copy & encoded & Hrun & _ & Hsrc & _ & _ & _ & Hoff & _).
    exists rgba, copy, encoded. split; [exact Hrun|]. split; [exact Hsrc|].
    apply Hoff. vm_compute. reflexivity.
Defined.




(** ** Handlers *)

Section Handlers.

Context `{GoLibs}.
Import models handlers.

Variable h : FaceHandler.

Lemma handlers_on_download_error (imageURL : string)
    (err : image_downloader.DownloadError) :
  imageURL <> EmptyString ->
  image_downloader.DownloadImage (imageDownloader h) imageURL = Err err ->
  (forall t, DetectHandler h (Some {| ImageURL := imageURL |}) t = notions.downloadFailed)
  /\ (forall minFaces maxFaces,
         ValidateHandler h
           (Some {| Validation_ImageURL := imageURL; MinFaces := minFaces; MaxFaces := maxFaces |})
         = notions.downloadFailed)
  /\ (forall color lineWidth t store,
         DetectVisualHandler h
           (Some {| Visual_ImageURL := imageURL; CircleColor := color; LineWidth := lineWidth |})
           t store
         = store.Returns notions.downloadFailed store).
Proof.
  intros Hne Herr.
  assert (Hneq : String.eqb imageURL EmptyString = false) by now apply String.eqb_neq.
  split; [|split]; intros;
    unfold DetectHandler, ValidateHandler, DetectVisualHandler;
    cbn [ImageURL Validation_ImageURL Visual_ImageURL]; rewrite Hneq, Herr; reflexivity.
Qed.

(** [DetectFaces] never returns an error, so the branch of the handlers
    that reports a detection failure with status 500 is never taken: with
    a downloaded image, [DetectHandler] answers with the faces. *)
Lemma DetectHandler_on_image (imageURL : string) (img : image.Image)
    (metadata : ImageMetadata) (t : GoFloat.float64) :
  imageURL <> EmptyString ->
  image_downloader.DownloadImage (imageDownloader h) imageURL = Ok (img, metadata) ->
  DetectHandler h (Some {| ImageURL := imageURL |}) t
  = let faces := fst (face_detector.DetectFaces (faceDetector h) img) in
    DetectionResponse
      {| Faces := faces;
         Count := Z.of_nat (List.length faces);
         Detection_ImageMetadata := metadata;
         ProcessingTimeMs := t |}.
Proof.
  intros Hne Hok.
  assert (Hneq : String.eqb imageURL EmptyString = false) by now apply String.eqb_neq.
  unfold DetectHandler. cbn [ImageURL]. rewrite Hneq, Hok. reflexivity.
Qed.

(** The error responses that the handlers send before the download. *)
Lemma request_errors (s : Z) (c m : string) :
  ErrorResponse s c m = ErrorResponse 400 "INVALID_REQUEST" "Invalid JSON request"
  \/ ErrorResponse s c m = ErrorResponse 400 "MISSING_IMAGE_URL" "Image URL is required"
  \/ ErrorResponse s c m = notions.downloadFailed ->
  s = 400 /\ List.In (c, m) notions.requestErrors.
Proof.
  unfold notions.downloadFailed, notions.requestErrors.
  intros [[= -> -> ->]|[[= -> -> ->]|[= -> -> ->]]]; cbn; auto.
Qed.

Lemma DetectHandler_errors (body : option FaceDetectionRequest) (t : GoFloat.float64)
    (s : Z) (c m : string) :
  DetectHandler h body t = ErrorResponse s c m ->
  s = 400 /\ List.In (c, m) notions.requestErrors.
Proof.
  unfold DetectHandler, writeErrorResponse. intros Hresp. apply request_errors.
  destruct body as [req|]; [|now left].
  destruct (String.eqb _ _); [now right; left|].
  destruct (image_downloader.DownloadImage _ _) as [[img metadata]|err]; [|now right; right].
  rewrite DetectFaces_eq in Hresp. discriminate Hresp.
Qed.

Lemma ValidateHandler_errors (body : option SelfieValidationRequest) (s : Z) (c m : string) :
  ValidateHandler h body = ErrorResponse s c m ->
  s = 400 /\ List.In (c, m) notions.requestErrors.
Proof.
  unfold ValidateHandler, writeErrorResponse. intros Hresp. apply request_errors.
  destruct body as [req|]; [|now left].
  destruct (String.eqb _ _); [now right; left|].
  destruct (image_downloader.DownloadImage _ _) as [[img metadata]|err]; [|now right; right].
  rewrite DetectFaces_eq in Hresp. discriminate Hresp.
Qed.

Lemma DetectVisualHandler_errors (body : option VisualDetectionRequest)
    (t : GoFloat.float64) (store store' : gmap positive image.Image)
    (s : Z) (c m : string) :
  DetectVisualHandler h body t store = store.Returns (ErrorResponse s c m) store' ->
  (s = 400 /\ List.In (c, m) notions.requestErrors)
  \/ (s = 500 /\ c = "IMAGE_PROCESSING_FAILED" /\ m = "Failed to process image").
Proof.
  unfold DetectVisualHandler, writeErrorResponse, store.ret. intros Hresp.
  destruct body as [req|].
  2:{ inversion Hresp; subst. left. split; [reflexivity|cbn; auto]. }
  destruct (String.eqb _ _).
  { inversion Hresp; subst. left. split; [reflexivity|cbn; auto]. }
  destruct (image_downloader.DownloadImage _ _) as [[img metadata]|err].
  2:{ inversion Hresp; subst. left. split; [reflexivity|cbn; auto]. }
  unfold store.bind, store.alloc in Hresp. rewrite DetectFaces_eq in Hresp.
  destruct (image_processor.DrawFaceCircles _ _ _ _) as [[encoded|err] store2| |];
    try discriminate Hresp.
  inversion Hresp; subst. right. auto.
Qed.

(** With a downloaded image, [DetectVisualHandler] returns: it answers with
    the annotated picture, or with the one error of the rendering when the
    encoder fails on the annotated copy. *)
Lemma DetectVisualHandler_on_image (imageURL color : string) (lineWidth : Z)
    (t : GoFloat.float64) (store : gmap positive image.Image)
    (img : image.Image) (metadata : ImageMetadata) :
  imageURL <> EmptyString ->
  image_downloader.DownloadImage (imageDownloader h) imageURL = Ok (img, metadata) ->
  notions.rect_in_range (image.Rect img) ->
  exists (copy : image.Image) (store' : gmap positive image.Image),
    DetectVisualHandler h
      (Some {| Visual_ImageURL := imageURL; CircleColor := color; LineWidth := lineWidth |})
      t store
    = store.Returns
        match jpeg_Encode copy 90 with
        | Err _ => ErrorResponse 500 "IMAGE_PROCESSING_FAILED" "Failed to process image"
        | Ok buf =>
            let faces := fst (face_detector.DetectFaces (faceDetector h) img) in
            VisualResponse
              {| ImageBase64 := "data:image/jpeg;base64," ++ base64_EncodeToString buf;
                 Visual_Faces := faces;
                 Visual_Count := Z.of_nat (List.length faces);
                 Visual_ImageMetadata := metadata;
                 Visual_ProcessingTimeMs := t |}
        end
        store'.
Proof.
  intros Hne Hok Hrange.
  assert (Hneq : String.eqb imageURL EmptyString = false) by now apply String.eqb_neq.
  unfold DetectVisualHandler. cbn [Visual_ImageURL CircleColor LineWidth].
  rewrite Hneq, Hok. unfold store.bind, store.alloc. rewrite DetectFaces_eq.
  set (src := fresh (dom store)).
  set (faces := List.map _ _).
  set (opts := {| image_processor.Color := _; image_processor.LineWidth := _ |}).
  destruct (DrawFaceCircles_returns (<[src := img]> store) src img faces opts
              (lookup_insert_eq _ _ _) Hrange)
    as (rgba & copy & _ & Hrun & _).
  rewrite Hrun. exists copy. eexists.
  destruct (jpeg_Encode copy 90); reflexivity.
Qed.

End Handlers.

(** C8, as the code has it. A request whose download fails, whatever the
    error of the acquirer (invalid URL, failed download, unsupported content
    type, too large, decoding failure), is answered by each of the three
    handlers with status 400, code IMAGE_DOWNLOAD_FAILED and message "Failed
    to download image", and nothing else. An error response of [DetectHandler]
    or [ValidateHandler] always has status 400 and one of three codes;
    [DetectFaces] returns no error, so the response for a detection failure
    is never sent. [DetectVisualHandler] has one more error response, status
    500 with code IMAGE_PROCESSING_FAILED, sent when the encoding of the
    annotated copy fails. *)
Theorem handlers_error_responses :
  forall (L : GoLibs) (h : handlers.FaceHandler),
    (forall imageURL err,
        imageURL <> EmptyString ->
        image_downloader.DownloadImage (handlers.imageDownloader h) imageURL = Err err ->
        (forall t,
            handlers.DetectHandler h (Some {| models.ImageURL := imageURL |}) t
            = handlers.ErrorResponse 400 "IMAGE_DOWNLOAD_FAILED" "Failed to download image")
        /\ (forall minFaces maxFaces,
               handlers.ValidateHandler h
                 (Some {| models.Validation_ImageURL := imageURL;
                          models.MinFaces := minFaces; models.MaxFaces := maxFaces |})
               = handlers.ErrorResponse 400 "IMAGE_DOWNLOAD_FAILED" "Failed to download image")
        /\ (forall color lineWidth t store,
               handlers.DetectVisualHandler h
                 (Some {| models.Visual_ImageURL := imageURL;
                          models.CircleColor := color; models.LineWidth := lineWidth |})
                 t store
               = store.Returns
                   (handlers.ErrorResponse 400 "IMAGE_DOWNLOAD_FAILED"
                      "Failed to download image")
                   store))
    /\ (forall body t s c m,
           handlers.DetectHandler h body t = handlers.ErrorResponse s c m ->
           s = 400 /\ List.In (c, m) notions.requestErrors)
    /\ (forall body s c m,
           handlers.ValidateHandler h body = handlers.ErrorResponse s c m ->
           s = 400 /\ List.In (c, m) notions.requestErrors)
    /\ (forall body t store store' s c m,
           handlers.DetectVisualHandler h body t store
           = store.Returns (handlers.ErrorResponse s c m) store' ->
           (s = 400 /\ List.In (c, m) notions.requestErrors)
           \/ (s = 500 /\ c = "IMAGE_PROCESSING_FAILED" /\ m = "Failed to process image"))
    /\ (forall imageURL color lineWidth t store img metadata,
           imageURL <> EmptyString ->
           image_downloader.DownloadImage (handlers.imageDownloader h) imageURL
           = Ok (img, metadata) ->
           notions.rect_in_range (image.Rect img) ->
           exists copy store',
             handlers.DetectVisualHandler h
               (Some {| models.Visual_ImageURL := imageURL;
                        models.CircleColor := color; models.LineWidth := lineWidth |})
               t store
             = store.Returns
                 match jpeg_Encode copy 90 with
                 | Err _ =>
                     handlers.ErrorResponse 500 "IMAGE_PROCESSING_FAILED"
                       "Failed to process image"
                 | Ok buf =>
                     let faces :=
                       fst (face_detector.DetectFaces (handlers.faceDetector h) img) in
                     handlers.VisualResponse
                       {| models.ImageBase64 :=
                            "data:image/jpeg;base64," ++ base64_EncodeToString buf;
                          models.Visual_Faces := faces;
                          models.Visual_Count := Z.of_nat (List.length faces);
                          models.Visual_ImageMetadata := metadata;
                          models.Visual_ProcessingTimeMs := t |}
                 end
                 store').
Proof.
  intros L h. split; [|split; [|split; [|split]]].
  - intros imageURL err Hne Herr. now apply handlers_on_download_error with (err := err).
  - apply DetectHandler_errors.
  - apply ValidateHandler_errors.
  - apply DetectVisualHandler_errors.
  - intros. now apply DetectVisualHandler_on_image.
Qed.

(** C8 on a request for an ftp URL: the three handlers answer with the
    download error. *)
Lemma handlers_error_responses_witness :
  let h :=
    {| handlers.faceDetector := sample.detector [];
       handlers.imageDownloader :=
         sample.downloader (sample.response "image/jpeg" 4 sample.jpeg_body) |} in
  handlers.DetectHandler (H := sample.libs) h
    (Some {| models.ImageURL := "ftp://example.com/a.jpg" |}) GoFloat.zero
  = handlers.ErrorResponse 400 "IMAGE_DOWNLOAD_FAILED" "Failed to download image".
Proof.
  intros h.
  destruct (handlers_error_responses sample.libs h) as [Hdownload _].
  destruct (Hdownload "ftp://example.com/a.jpg"
              (image_downloader.ErrInvalidURL (image_downloader.ErrScheme "ftp")))
    as [Hdetect _]; [discriminate|reflexivity|].
  apply Hdetect.
Defined.

(** C8 fails as stated: two different errors of the taxonomy get the same
    response. The URL ftp://example.com/a.jpg is refused by the URL
    validation; the picture at https://example.com/a.jpg declares 6000000
    bytes, above the limit. [DownloadImage] tells the two errors apart, and
    the models declare the codes INVALID_URL and IMAGE_TOO_LARGE for them,
    but [DetectHandler] answers both requests with the same status, code and
    message. *)
Lemma download_errors_share_one_response :
  let downloader := sample.downloader (sample.response "image/jpeg" 6000000 sample.jpeg_body) in
  let h :=
    {| handlers.faceDetector := sample.detector [];
       handlers.imageDownloader := downloader |} in
  let request (imageURL : string) := Some {| models.ImageURL := imageURL |} in
  image_downloader.DownloadImage (H := sample.libs) downloader "ftp://example.com/a.jpg"
  = Err (image_downloader.ErrInvalidURL (image_downloader.ErrScheme "ftp"))
  /\ image_downloader.DownloadImage (H := sample.libs) downloader "https://example.com/a.jpg"
     = Err (image_downloader.ErrImageTooLarge 6000000 5242880)
  /\ handlers.DetectHandler (H := sample.libs) h (request "ftp://example.com/a.jpg")
       GoFloat.zero
     = handlers.ErrorResponse 400 "IMAGE_DOWNLOAD_FAILED" "Failed to download image"
  /\ handlers.DetectHandler (H := sample.libs) h (request "https://example.com/a.jpg")
       GoFloat.zero
     = handlers.ErrorResponse 400 "IMAGE_DOWNLOAD_FAILED" "Failed to download image"
  /\ models.Code models.ErrInvalidURL <> models.Code models.ErrImageTooLarge.
Proof.
  intros downloader h request.
  split; [reflexivity|]. split; [reflexivity|]. split; [reflexivity|].
  split; [reflexivity|]. discriminate.
Qed.

(** ** Worked examples *)

Section Examples.

Import models.

Example fmt_d_negative : GoInt.fmt_d (-12) = "-12".
Proof. reflexivity. Qed.

Example wrap_overflow : GoInt.add GoInt.MaxInt 1 = GoInt.MinInt.
Proof. reflexivity. Qed.

Example quot_truncates : GoInt.quot (-81) 2 = -40 /\ GoInt.quot 81 2 = 40.
Proof. split; reflexivity. Qed.

Example Split_content_type :
  strings.Split "image/PNG; charset=binary" ";" = ["image/PNG"; " charset=binary"].
Proof. reflexivity. Qed.

Example Contains_loopback : strings.Contains "[::1]:8080" "::1" = true.
Proof. reflexivity. Qed.

Example content_type_with_parameter (L : GoLibs) (id : image_downloader.ImageDownloader) :
  image_downloader.isValidImageType id "Image/PNG; charset=binary" = true
  /\ image_downloader.isValidImageType id "text/html" = false
  /\ image_downloader.isValidImageType id " image/png" = false.
Proof. repeat split; reflexivity. Qed.

Example odd_scale_face :
  face_detector.toFace
    {| pigo.Row := 200; pigo.Col := 300; pigo.Scale := 81; pigo.Q := GoFloat.float32_of_int 20 |}
  = {| X := 260; Y := 160; Width := 81; Height := 81;
       Confidence := GoFloat.float32_of_int 20 |}.
Proof. reflexivity. Qed.

Example faceRadius_values :
  let face (w h : Z) :=
    {| X := 0; Y := 0; Width := w; Height := h; Confidence := GoFloat.zero |} in
  image_processor.faceRadius (face 80 80) = 40
  /\ image_processor.faceRadius (face 81 3) = 40
  /\ image_processor.faceRadius (face 1 1) = 0
  /\ image_processor.faceRadius (face 0 0) = 0
  /\ image_processor.faceRadius (face (-3) (-81)) = -1.
Proof. repeat split; reflexivity. Qed.

Example mean_of_two :
  notions.mean32 [GoFloat.float32_of_int 9; GoFloat.float32_of_int 12]
  = S754_finite false 11010048 (-20).
Proof. reflexivity. Qed.

Example outline_radius_2 :
  notions.outlinePoints 10 10 2
  = [ (10, 12); (10, 12); (10, 8); (10, 8); (12, 10); (8, 10); (12, 10); (8, 10);
      (11, 12); (9, 12); (11, 8); (9, 8); (12, 11); (8, 11); (12, 9); (8, 9) ].
Proof. reflexivity. Qed.

Example ParseColor_default :
  image_processor.ParseColor "Red" = image_processor.rgba 255 0 0 255
  /\ image_processor.ParseColor "cyan" = image_processor.rgba 0 255 255 255.
Proof. split; reflexivity. Qed.

End Examples.

(* ===================================================================== *)
(** * Further properties of the code                                       *)
(* ===================================================================== *)

(** ** Content types *)

Section ContentType.

Import strings.

Lemma split_from_free (c : ascii) (t cur : string) :
  terms.free_of c t = true ->
  split_from (String c EmptyString) t cur O = [cur ++ t].
Proof.
  revert cur. induction t as [|x t IH]; intros cur Hfree.
  - cbn. now rewrite append_nil_r.
  - cbn in Hfree. apply andb_true_iff in Hfree as [Hx Hfree]. apply negb_true_iff in Hx.
    cbn [split_from HasPrefix]. rewrite Hx. cbn [andb].
    rewrite IH by exact Hfree. now rewrite append_assoc.
Qed.

Lemma split_from_first (c : ascii) (t rest cur : string) :
  terms.free_of c t = true ->
  split_from (String c EmptyString) (t ++ String c rest) cur O
  = (cur ++ t) :: split_from (String c EmptyString) rest EmptyString O.
Proof.
  revert cur. induction t as [|x t IH]; intros cur Hfree.
  - rewrite append_nil_l, append_nil_r. cbn [split_from HasPrefix].
    rewrite Ascii.eqb_refl. cbn [andb].
    replace (HasPrefix rest EmptyString) with true by (now destruct rest).
    reflexivity.
  - cbn in Hfree. apply andb_true_iff in Hfree as [Hx Hfree]. apply negb_true_iff in Hx.
    rewrite append_cons. cbn [split_from HasPrefix]. rewrite Hx. cbn [andb].
    rewrite IH by exact Hfree. now rewrite append_assoc.
Qed.

Lemma first_occurrence (c : ascii) (s : string) :
  terms.free_of c s = true
  \/ exists t rest, s = t ++ String c rest /\ terms.free_of c t = true.
Proof.
  induction s as [|x s IH]; [now left|].
  destruct (Ascii.eqb_spec x c) as [->|Hne].
  - right. exists EmptyString, s. split; reflexivity.
  - destruct IH as [Hfree|(t & rest & -> & Hfree)].
    + left. cbn. rewrite Hfree. now destruct (Ascii.eqb_spec x c).
    + right. exists (String x t), rest. split; [reflexivity|].
      cbn. rewrite Hfree. now destruct (Ascii.eqb_spec x c).
Qed.

(** The media type is the first piece of the split at semicolons: the
    index expression [strings.Split(contentType, ";")[0]] is never out of
    range. *)
Lemma Split_media_type (contentType t : string) :
  terms.media_type contentType t ->
  exists pieces, Split contentType ";" = t :: pieces.
Proof.
  intros [Hfree [->|[params ->]]]; unfold Split.
  - rewrite split_from_free by exact Hfree. eauto.
  - change (";" ++ params) with (String ";"%char params).
    rewrite split_from_first by exact Hfree. eauto.
Qed.

Lemma media_type_exists (contentType : string) :
  exists t, terms.media_type contentType t.
Proof.
  destruct (first_occurrence ";" contentType) as [Hfree|(t & rest & -> & Hfree)].
  - exists contentType. split; [exact Hfree|now left].
  - exists t. split; [exact Hfree|]. right. now exists rest.
Qed.

Lemma lower_byte_semicolon (c : ascii) :
  Ascii.eqb (lower_byte c) ";" = Ascii.eqb c ";".
Proof.
  unfold lower_byte.
  destruct (Z.leb_spec 65 (byte_val c)); destruct (Z.leb_spec (byte_val c) 90);
    cbn [andb]; try reflexivity.
  destruct (Ascii.eqb_spec c ";") as [->|Hne];
    [change (byte_val ";") with 59 in *; lia|].
  destruct (Ascii.eqb_spec (ascii_of_N (N_of_ascii c + 32)) ";") as [He|]; [|reflexivity].
  exfalso. apply (f_equal byte_val) in He.
  rewrite byte_val_of_N in He by (unfold byte_val in *; lia).
  change (byte_val ";") with 59 in He. unfold byte_val in *. lia.
Qed.

Lemma free_of_lowered (v : string) :
  terms.free_of ";" (map_bytes lower_byte v) = terms.free_of ";" v.
Proof.
  induction v as [|c v IH]; [reflexivity|].
  cbn. now rewrite lower_byte_semicolon, IH.
Qed.

End ContentType.

(** X1. [isValidImageType] accepts a Content-Type value exactly when its
    media type (what stands before the first semicolon, nothing trimmed), in
    lower case, is one of image/jpeg, image/jpg, image/png, image/gif and
    image/webp. A value that differs from one of the five by the case of
    ASCII letters is accepted, alone or followed by parameters; the empty
    value is refused. *)
Theorem isValidImageType_media_type :
  forall (L : GoLibs) (id : image_downloader.ImageDownloader) (contentType : string),
    (image_downloader.isValidImageType id contentType = true <->
     exists t, terms.media_type contentType t
               /\ List.In (strings.ToLower t) terms.imageTypes)
    /\ (forall t params,
           List.In (strings.map_bytes strings.lower_byte t) terms.imageTypes ->
           image_downloader.isValidImageType id t = true
           /\ image_downloader.isValidImageType id (t ++ ";" ++ params) = true)
    /\ image_downloader.isValidImageType id EmptyString = false.
Proof.
  intros L id contentType.
  assert (Htypes : image_downloader.validTypes = terms.imageTypes) by reflexivity.
  assert (Hchar : forall ct,
             image_downloader.isValidImageType id ct = true <->
             exists t, terms.media_type ct t
                       /\ List.In (strings.ToLower t) terms.imageTypes).
  { intros ct. unfold image_downloader.isValidImageType. rewrite Htypes.
    rewrite List.existsb_exists. split.
    - intros (v & Hv & Heq). apply String.eqb_eq in Heq.
      destruct (media_type_exists ct) as [t Ht]. exists t. split; [exact Ht|].
      destruct (Split_media_type ct t Ht) as [pieces Hsplit].
      rewrite Hsplit in Heq. cbn [List.nth] in Heq. now rewrite Heq.
    - intros (t & Ht & Hin). destruct (Split_media_type ct t Ht) as [pieces Hsplit].
      rewrite Hsplit. cbn [List.nth].
      exists (strings.ToLower t). split; [exact Hin|]. apply String.eqb_refl. }
  split; [apply Hchar|]. split; [|reflexivity].
  intros t params Hin.
  assert (Hascii : strings.isASCII t = true).
  { apply lowered_ascii.
    cbn in Hin. destruct Hin as [<-|[<-|[<-|[<-|[<-|[]]]]]]; reflexivity. }
  assert (Hfree : terms.free_of ";" t = true).
  { rewrite <- free_of_lowered.
    cbn in Hin. destruct Hin as [<-|[<-|[<-|[<-|[<-|[]]]]]]; reflexivity. }
  assert (Hlow : strings.ToLower t = strings.map_bytes strings.lower_byte t).
  { unfold strings.ToLower. now rewrite Hascii. }
  split; apply Hchar; exists t; (split; [|now rewrite Hlow]); split; try exact Hfree.
  - now left.
  - right. now exists params.
Qed.

(** ** The request of a download *)

Section Requests.

Context `{GoLibs}.
Import models image_downloader.

Lemma validateURL_any_client (id id' : ImageDownloader) (imageURL : string) :
  validateURL id imageURL = validateURL id' imageURL.
Proof. reflexivity. Qed.

(** A download consults the network once, with one request, and only for
    a URL that passed the validation. *)
Lemma DownloadImage_one_request (id : ImageDownloader) (imageURL : string) :
  DownloadImage id imageURL
  = match validateURL id imageURL with
    | Some err => Err (ErrInvalidURL err)
    | None =>
        match client id (terms.download_request imageURL) with
        | Err err => Err (ErrDownload err)
        | Ok resp =>
            DownloadImage (terms.with_client id (fun _ => Ok resp)) imageURL
        end
    end.
Proof.
  unfold DownloadImage at 1.
  destruct (validateURL id imageURL) as [err|] eqn:Hvalid; [reflexivity|].
  pose proof Hvalid as Hacc.
  apply validateURL_accepts in Hacc as (_ & u & Hu & _).
  unfold http.NewRequest. rewrite Hu.
  change (http.HeaderSet (http.HeaderSet _ _ _) _ _) with (terms.download_request imageURL).
  destruct (client id (terms.download_request imageURL)) as [resp|err]; [|reflexivity].
  unfold DownloadImage.
  rewrite (validateURL_any_client _ id), Hvalid.
  unfold http.NewRequest. rewrite Hu. reflexivity.
Qed.

(** What a successful download guarantees. *)
Lemma DownloadImage_checked (id : ImageDownloader) (imageURL : string)
    (img : image.Image) (md : ImageMetadata) :
  DownloadImage id imageURL = Ok (img, md) ->
  validateURL id imageURL = None
  /\ URL md = imageURL
  /\ Metadata_Width md = image.Dx (image.Rect img)
  /\ Metadata_Height md = image.Dy (image.Rect img)
  /\ Metadata_Width md <= config.MaxWidth (config id)
  /\ Metadata_Height md <= config.MaxHeight (config id)
  /\ SizeBytes md <= config.MaxImageSize (config id)
  /\ exists resp,
       client id (terms.download_request imageURL) = Ok resp
       /\ http.StatusCode resp = 200
       /\ SizeBytes md = http.ContentLength resp.
Proof.
  intros Hok. rewrite DownloadImage_one_request in Hok.
  destruct (validateURL id imageURL) as [err|] eqn:Hvalid; [discriminate Hok|].
  split; [reflexivity|].
  destruct (client id (terms.download_request imageURL)) as [resp|err] eqn:Hc;
    [|discriminate Hok].
  unfold DownloadImage in Hok.
  rewrite (validateURL_any_client _ id), Hvalid in Hok.
  apply validateURL_accepts in Hvalid as (_ & u & Hu & _).
  unfold http.NewRequest in Hok. rewrite Hu in Hok.
  cbn [client config terms.with_client] in Hok.
  destruct (Z.eqb_spec (http.StatusCode resp) http.StatusOK) as [Hstatus|];
    [|discriminate Hok]. cbn [negb] in Hok.
  destruct (isValidImageType _ _); [|discriminate Hok]. cbn [negb] in Hok.
  destruct (Z.ltb_spec (config.MaxImageSize (config id)) (http.ContentLength resp))
    as [|Hsize]; [discriminate Hok|].
  destruct (imagefmt.Decode _ _) as [[img' format]|err]; [|discriminate Hok].
  destruct (Z.ltb_spec (config.MaxWidth (config id)) (image.Dx (image.Rect img')))
    as [|Hw]; [discriminate Hok|].
  destruct (Z.ltb_spec (config.MaxHeight (config id)) (image.Dy (image.Rect img')))
    as [|Hh]; [discriminate Hok|].
  cbn [orb] in Hok. injection Hok as <- <-. cbn.
  repeat split; try assumption; try reflexivity.
  exists resp. auto.
Qed.

End Requests.

(** X2. [DownloadImage] sends nothing to a URL that fails the validation:
    whatever the client, the result is the validation error. For a valid
    URL the client is asked once, for the request GET [imageURL] with the
    headers User-Agent and Accept and no other: two clients that answer this
    request alike give the same result. An error of the client is the
    result of the download, and so is a status other than 200, whatever the
    content type and the body of the response. *)
Theorem DownloadImage_request :
  forall (L : GoLibs) (id : image_downloader.ImageDownloader) (imageURL : string),
    (forall err (c : http.Client),
        image_downloader.validateURL id imageURL = Some err ->
        image_downloader.DownloadImage (terms.with_client id c) imageURL
        = Err (image_downloader.ErrInvalidURL err))
    /\ (forall c1 c2 : http.Client,
           c1 (terms.download_request imageURL) = c2 (terms.download_request imageURL) ->
           image_downloader.DownloadImage (terms.with_client id c1) imageURL
           = image_downloader.DownloadImage (terms.with_client id c2) imageURL)
    /\ (forall (c : http.Client) err,
           image_downloader.validateURL id imageURL = None ->
           c (terms.download_request imageURL) = Err err ->
           image_downloader.DownloadImage (terms.with_client id c) imageURL
           = Err (image_downloader.ErrDownload err))
    /\ (forall (c : http.Client) resp,
           image_downloader.validateURL id imageURL = None ->
           c (terms.download_request imageURL) = Ok resp ->
           http.StatusCode resp <> 200 ->
           image_downloader.DownloadImage (terms.with_client id c) imageURL
           = Err (image_downloader.ErrHTTPStatus (http.StatusCode resp) (http.Status resp))).
Proof.
  intros L id imageURL. split; [|split; [|split]].
  - intros err c Hbad. rewrite DownloadImage_one_request.
    now rewrite (validateURL_any_client _ id), Hbad.
  - intros c1 c2 Hsame.
    rewrite (DownloadImage_one_request (terms.with_client id c1)),
      (DownloadImage_one_request (terms.with_client id c2)).
    rewrite !(validateURL_any_client _ id). cbn [image_downloader.client terms.with_client].
    rewrite Hsame. reflexivity.
  - intros c err Hvalid Hc. rewrite DownloadImage_one_request.
    rewrite (validateURL_any_client _ id), Hvalid.
    cbn [image_downloader.client terms.with_client]. now rewrite Hc.
  - intros c resp Hvalid Hc Hstatus. rewrite DownloadImage_one_request.
    rewrite (validateURL_any_client _ id), Hvalid.
    cbn [image_downloader.client terms.with_client]. rewrite Hc.
    unfold image_downloader.DownloadImage.
    rewrite (validateURL_any_client _ id), Hvalid.
    apply validateURL_accepts in Hvalid as (_ & u & Hu & _).
    unfold http.NewRequest. rewrite Hu. cbn [image_downloader.client terms.with_client].
    destruct (Z.eqb_spec (http.StatusCode resp) http.StatusOK) as [He|]; [contradiction|].
    reflexivity.
Qed.

(** X3. A successful download went through every check: the URL passed the
    validation, the response to the one request had status 200, the
    metadata carry the URL, the declared length, which is at most
    [MaxImageSize], and the width and height of the bounds of the picture,
    which are at most [MaxWidth] and [MaxHeight]. *)
Theorem DownloadImage_within_limits :
  forall (L : GoLibs) (id : image_downloader.ImageDownloader) (imageURL : string)
         (img : image.Image) (md : models.ImageMetadata),
    image_downloader.DownloadImage id imageURL = Ok (img, md) ->
    let limits := image_downloader.config id in
    image_downloader.validateURL id imageURL = None
    /\ models.URL md = imageURL
    /\ models.Metadata_Width md = image.Dx (image.Rect img)
    /\ models.Metadata_Height md = image.Dy (image.Rect img)
    /\ models.Metadata_Width md <= config.MaxWidth limits
    /\ models.Metadata_Height md <= config.MaxHeight limits
    /\ models.SizeBytes md <= config.MaxImageSize limits
    /\ exists resp,
         image_downloader.client id (terms.download_request imageURL) = Ok resp
         /\ http.StatusCode resp = 200
         /\ models.SizeBytes md = http.ContentLength resp.
Proof. intros L id imageURL img md Hok. now apply DownloadImage_checked. Qed.

(** X3 on the JPEG stand-in of 64 by 48 pixels behind the default limits. *)
Lemma DownloadImage_within_limits_witness :
  let id := sample.downloader (sample.response "image/png" 4 sample.jpeg_body) in
  let md :=
    {| models.Metadata_Width := 64; models.Metadata_Height := 48; models.Format := "JPEG";
       models.SizeBytes := 4; models.URL := "https://example.com/a.jpg" |} in
  image_downloader.DownloadImage (H := sample.libs) id "https://example.com/a.jpg"
  = Ok (sample.blank 64 48, md)
  /\ models.Metadata_Width md <= 2000
  /\ models.SizeBytes md <= 5242880.
Proof.
  intros id md. split; [reflexivity|].
  destruct (DownloadImage_within_limits sample.libs id "https://example.com/a.jpg"
              (sample.blank 64 48) md eq_refl)
    as (_ & _ & _ & _ & Hw & _ & Hs & _).
  split; [exact Hw|exact Hs].
Defined.

(** ** Validation, once more *)

(** X4. The result of [ValidateSelfie] is valid exactly when it lists no
    issue, and exactly when the number of faces is within the two bounds
    and, for a picture with faces, the mean confidence is not below 10. It
    never lists more than three issues, and without faces the confidence is
    zero. *)
Theorem ValidateSelfie_valid_iff :
  forall (fd : face_detector.FaceDetector) (faces : list models.Face) (minFaces maxFaces : Z),
    let n := Z.of_nat (List.length faces) in
    let r := face_detector.ValidateSelfie fd faces minFaces maxFaces in
    let mean := notions.mean32 (List.map models.Confidence faces) in
    (models.IsValid r = true <-> models.Issues r = [])
    /\ (models.IsValid r = true <->
        minFaces <= n <= maxFaces
        /\ (n = 0 \/ GoFloat.ltb mean (GoFloat.float32_of_int 10) = false))
    /\ (List.length (models.Issues r) <= 3)%nat
    /\ (n = 0 -> models.Validation_Confidence r = GoFloat.zero).
Proof.
  intros fd faces minFaces maxFaces n r mean.
  pose proof (ValidateSelfie_cases fd faces minFaces maxFaces) as Hr.
  cbv zeta in Hr. fold n mean r in Hr. rewrite Hr. clear Hr.
  unfold notions.countOk, notions.countIssues.
  assert (Hn : 0 <= n) by (subst n; lia).
  destruct (Z.ltb_spec 0 n) as [Hpos|Hzero];
    [destruct (GoFloat.ltb mean (GoFloat.float32_of_int 10)) eqn:Hlow|];
    destruct (Z.ltb_spec n minFaces); destruct (Z.eqb_spec n 0);
    destruct (Z.ltb_spec maxFaces n);
    cbn; repeat split; try discriminate; try lia; try (intros; lia);
    try (intros [? [?|?]]; (lia || discriminate)); try (intros [? ?]; lia);
    try (right; reflexivity); try (left; lia); try reflexivity.
Qed.

(** X5. [ValidateHandler] replaces a bound of zero by one: a request with
    [min_faces] or [max_faces] zero, or absent, is answered as the request
    with one in its place. So a picture in which no face is found is
    invalid, with the two issues of the empty picture, for every request
    whose [min_faces] is not negative; it is valid, with confidence zero,
    when [min_faces] is negative and [max_faces] is not. *)
Theorem ValidateHandler_face_bounds :
  forall (L : GoLibs) (h : handlers.FaceHandler) (imageURL : string) (minFaces maxFaces : Z),
    let request (lo hi : Z) :=
      Some {| models.Validation_ImageURL := imageURL;
              models.MinFaces := lo; models.MaxFaces := hi |} in
    handlers.ValidateHandler h (request minFaces maxFaces)
    = handlers.ValidateHandler h
        (request (terms.or_default minFaces 1) (terms.or_default maxFaces 1))
    /\ (forall img md,
           imageURL <> EmptyString ->
           image_downloader.DownloadImage (handlers.imageDownloader h) imageURL
           = Ok (img, md) ->
           fst (face_detector.DetectFaces (handlers.faceDetector h) img) = [] ->
           (0 <= minFaces ->
            handlers.ValidateHandler h (request minFaces maxFaces)
            = handlers.ValidationResponse
                {| models.IsValid := false;
                   models.Issues :=
                     ["No faces detected in image"; "Image may be too dark or blurry"];
                   models.Validation_Confidence := GoFloat.zero;
                   models.FaceCount := 0 |})
           /\ (minFaces < 0 -> 0 <= maxFaces ->
               handlers.ValidateHandler h (request minFaces maxFaces)
               = handlers.ValidationResponse
                   {| models.IsValid := true;
                      models.Issues := [];
                      models.Validation_Confidence := GoFloat.zero;
                      models.FaceCount := 0 |})).
Proof.
  intros L h imageURL minFaces maxFaces request. subst request. split.
  - unfold handlers.ValidateHandler, terms.or_default.
    cbn [models.Validation_ImageURL models.MinFaces models.MaxFaces].
    destruct (Z.eqb_spec minFaces 0) as [->|Hmin];
      destruct (Z.eqb_spec maxFaces 0) as [->|Hmax]; cbn;
      rewrite ?(proj2 (Z.eqb_neq _ _) Hmin), ?(proj2 (Z.eqb_neq _ _) Hmax); reflexivity.
  - intros img md Hne Hok Hnone.
    assert (Hneq : String.eqb imageURL EmptyString = false) by now apply String.eqb_neq.
    unfold handlers.ValidateHandler.
    cbn [models.Validation_ImageURL models.MinFaces models.MaxFaces].
    rewrite Hneq, Hok. rewrite DetectFaces_eq in *. cbn [fst] in Hnone. rewrite Hnone.
    unfold face_detector.ValidateSelfie. cbn [List.length]. change (Z.of_nat 0) with 0.
    split.
    + intros Hmin. destruct (Z.eqb_spec minFaces 0) as [->|Hz]; [reflexivity|].
      destruct (Z.ltb_spec 0 minFaces); [reflexivity|lia].
    + intros Hmin Hmax. destruct (Z.eqb_spec minFaces 0) as [->|Hz]; [lia|].
      destruct (Z.ltb_spec 0 minFaces); [lia|].
      destruct (Z.eqb_spec maxFaces 0) as [->|Hz'].
      * reflexivity.
      * destruct (Z.ltb_spec maxFaces 0); [lia|reflexivity].
Qed.

(** X6. [DetectVisualHandler] answers a request without a colour as the
    request for red, and a request with line width zero, or none, as the
    request for width 3. A colour name that is none of the nine names
    green, blue, yellow, white, black, orange, purple, pink and cyan, in
    that exact spelling, is answered as red. Every colour that [ParseColor]
    gives is opaque. *)
Theorem DetectVisualHandler_defaults :
  forall (L : GoLibs) (h : handlers.FaceHandler) (imageURL color : string) (lineWidth : Z)
         (t : GoFloat.float64) (store : gmap positive image.Image),
    let request (c : string) (w : Z) :=
      Some {| models.Visual_ImageURL := imageURL;
              models.CircleColor := c; models.LineWidth := w |} in
    handlers.DetectVisualHandler h (request EmptyString lineWidth) t store
    = handlers.DetectVisualHandler h (request "red" lineWidth) t store
    /\ handlers.DetectVisualHandler h (request color 0) t store
       = handlers.DetectVisualHandler h (request color 3) t store
    /\ (~ List.In color
          ["green"; "blue"; "yellow"; "white"; "black"; "orange"; "purple"; "pink"; "cyan"] ->
        handlers.DetectVisualHandler h (request color lineWidth) t store
        = handlers.DetectVisualHandler h (request "red" lineWidth) t store)
    /\ image.A (image_processor.ParseColor color) = 255.
Proof.
  intros L h imageURL color lineWidth t store request. subst request.
  split; [reflexivity|]. split; [reflexivity|]. split.
  - intros Hnot.
    assert (Hred : image_processor.ParseColor
                     (if String.eqb color EmptyString then "red" else color)
                   = image_processor.ParseColor "red").
    { destruct (String.eqb_spec color EmptyString); [reflexivity|].
      unfold image_processor.ParseColor.
      repeat match goal with
             | |- context [String.eqb color ?s] =>
                 destruct (String.eqb_spec color s) as [->|?];
                 [try reflexivity; exfalso; apply Hnot; cbn; tauto|]
             end.
      reflexivity. }
    unfold handlers.DetectVisualHandler.
    cbn [models.Visual_ImageURL models.CircleColor models.LineWidth].
    rewrite Hred. reflexivity.
  - unfold image_processor.ParseColor.
    repeat match goal with
           | |- context [String.eqb color ?s] => destruct (String.eqb color s)
           end; reflexivity.
Qed.


(** ** Drawing, once more *)

Section Strokes.

Import image store imageops image_processor.

Lemma outlines_none (opts : CircleOptions) (faces : list models.Face) :
  faces = [] \/ LineWidth opts <= 0 -> notions.outlines opts faces = [].
Proof.
  intros [->|Hw]; [reflexivity|].
  unfold notions.outlines. induction faces as [|face faces IH]; [reflexivity|].
  cbn [List.flat_map]. rewrite IH. unfold notions.faceOutline.
  replace (Z.to_nat (LineWidth opts)) with O by lia. reflexivity.
Qed.

Lemma mem_point_outlines (opts : CircleOptions) (faces : list models.Face) (x y : Z) :
  notions.mem_point x y (notions.outlines opts faces) = true
  <-> exists face, List.In face faces /\ List.In (x, y) (notions.faceOutline opts face).
Proof.
  rewrite mem_point_In. unfold notions.outlines. apply List.in_flat_map.
Qed.

Lemma mem_point_same (opts : CircleOptions) (faces1 faces2 : list models.Face) (x y : Z) :
  (forall face, List.In face faces1 <-> List.In face faces2) ->
  notions.mem_point x y (notions.outlines opts faces1)
  = notions.mem_point x y (notions.outlines opts faces2).
Proof.
  intros Hsame. apply eq_true_iff_eq. rewrite !mem_point_outlines.
  split; intros (face & Hface & Hin); exists face; (split; [now apply Hsame|exact Hin]).
Qed.

End Strokes.

(** X7. Without faces, or with a line width that is zero or negative,
    [DrawFaceCircles] draws nothing: it returns, the buffer it allocates is
    not the source, and it holds the source picture pixel for pixel within
    the same bounds. A negative line width is no error. *)
Theorem DrawFaceCircles_no_stroke :
  forall (L : GoLibs) (h : gmap positive image.Image) (src : positive) (m : image.Image)
         (faces : list models.Face) (opts : image_processor.CircleOptions),
    h !! src = Some m ->
    notions.rect_in_range (image.Rect m) ->
    faces = [] \/ image_processor.LineWidth opts <= 0 ->
    exists (rgba : positive) (copy : image.Image) (encoded : result string string),
      image_processor.DrawFaceCircles src faces opts h
      = store.Returns encoded (<[rgba := copy]> h)
      /\ rgba <> src
      /\ image.Rect copy = image.Rect m
      /\ forall x y, image.At copy x y = image.At m x y.
Proof.
  intros L h src m faces opts Hm Hrange Hnone.
  destruct (DrawFaceCircles_returns h src m faces opts Hm Hrange)
    as (rgba & copy & Hfresh & Hrun & Hrect & Hat).
  exists rgba, copy. eexists. split; [exact Hrun|].
  split; [intros ->; congruence|]. split; [exact Hrect|].
  intros x y. rewrite Hat, (outlines_none opts faces Hnone). cbn.
  now rewrite andb_false_r.
Qed.

(** X7 on a face in a picture of 10 by 10 pixels, with line width -1. *)
Lemma DrawFaceCircles_no_stroke_witness :
  let face :=
    {| models.X := 2; models.Y := 2; models.Width := 6; models.Height := 6;
       models.Confidence := GoFloat.float32_of_int 20 |} in
  let opts :=
    {| image_processor.Color := image_processor.ParseColor "red";
       image_processor.LineWidth := -1 |} in
  let m := sample.blank 10 10 in
  let h : gmap positive image.Image := <[1%positive := m]> ∅ in
  exists (rgba : positive) (copy : image.Image) (encoded : result string string),
    image_processor.DrawFaceCircles (H := sample.libs) 1%positive [face] opts h
    = store.Returns encoded (<[rgba := copy]> h)
    /\ forall x y, image.At copy x y = image.At m x y.
Proof.
  intros face opts m h.
  destruct (DrawFaceCircles_no_stroke sample.libs h 1%positive m [face] opts)
    as (rgba & copy & encoded & Hrun & _ & _ & Hat).
  - reflexivity.
  - unfold notions.rect_in_range, GoInt.in_range, GoInt.MinInt, GoInt.MaxInt. cbn. lia.
  - right. cbn. lia.
  - exists rgba, copy, encoded. split; [exact Hrun|exact Hat].
Defined.

(** X8. The picture that [DrawFaceCircles] draws depends on the faces as a
    set only: two lists with the same members, in any order and with any
    repetitions, give buffers with the same bounds and the same colour at
    every point. One colour for all circles makes the order of the strokes
    irrelevant. *)
Theorem DrawFaceCircles_any_order :
  forall (L : GoLibs) (h : gmap positive image.Image) (src : positive) (m : image.Image)
         (faces1 faces2 : list models.Face) (opts : image_processor.CircleOptions),
    h !! src = Some m ->
    notions.rect_in_range (image.Rect m) ->
    (forall face, List.In face faces1 <-> List.In face faces2) ->
    exists (rgba1 rgba2 : positive) (copy1 copy2 : image.Image)
           (encoded1 encoded2 : result string string),
      image_processor.DrawFaceCircles src faces1 opts h
      = store.Returns encoded1 (<[rgba1 := copy1]> h)
      /\ image_processor.DrawFaceCircles src faces2 opts h
         = store.Returns encoded2 (<[rgba2 := copy2]> h)
      /\ image.Rect copy1 = image.Rect copy2
      /\ forall x y, image.At copy1 x y = image.At copy2 x y.
Proof.
  intros L h src m faces1 faces2 opts Hm Hrange Hsame.
  destruct (DrawFaceCircles_returns h src m faces1 opts Hm Hrange)
    as (rgba1 & copy1 & _ & Hrun1 & Hrect1 & Hat1).
  destruct (DrawFaceCircles_returns h src m faces2 opts Hm Hrange)
    as (rgba2 & copy2 & _ & Hrun2 & Hrect2 & Hat2).
  exists rgba1, rgba2, copy1, copy2. do 2 eexists.
  split; [exact Hrun1|]. split; [exact Hrun2|]. split; [congruence|].
  intros x y. rewrite Hat1, Hat2, (mem_point_same opts faces1 faces2 x y Hsame). reflexivity.
Qed.

(** X8 on two faces, listed in one order and, with a repetition, in the
    other. *)
Lemma DrawFaceCircles_any_order_witness :
  let f1 :=
    {| models.X := 1; models.Y := 1; models.Width := 4; models.Height := 4;
       models.Confidence := GoFloat.float32_of_int 20 |} in
  let f2 :=
    {| models.X := 3; models.Y := 4; models.Width := 6; models.Height := 6;
       models.Confidence := GoFloat.float32_of_int 15 |} in
  let opts :=
    {| image_processor.Color := image_processor.ParseColor "blue";
       image_processor.LineWidth := 2 |} in
  let h : gmap positive image.Image := <[1%positive := sample.blank 10 10]> ∅ in
  exists (rgba1 rgba2 : positive) (copy1 copy2 : image.Image)
         (encoded1 encoded2 : result string string),
    image_processor.DrawFaceCircles (H := sample.libs) 1%positive [f1; f2] opts h
    = store.Returns encoded1 (<[rgba1 := copy1]> h)
    /\ image_processor.DrawFaceCircles (H := sample.libs) 1%positive [f2; f1; f2] opts h
       = store.Returns encoded2 (<[rgba2 := copy2]> h)
    /\ image.Rect copy1 = image.Rect copy2
    /\ forall x y, image.At copy1 x y = image.At copy2 x y.
Proof.
  intros f1 f2 opts h.
  apply (DrawFaceCircles_any_order sample.libs h 1%positive (sample.blank 10 10)
           [f1; f2] [f2; f1; f2] opts).
  - reflexivity.
  - unfold notions.rect_in_range, GoInt.in_range, GoInt.MinInt, GoInt.MaxInt. cbn. lia.
  - intros face. cbn. tauto.
Defined.

Section Symmetry.

Import image store imageops image_processor.

Lemma wrap_add_wrap_l (a b : Z) : GoInt.wrap (GoInt.wrap a + b) = GoInt.wrap (a + b).
Proof. rewrite Z.add_comm, wrap_add_wrap_r. f_equal. lia. Qed.

Lemma wrap_shift (a b c : Z) : GoInt.wrap (a + (GoInt.wrap b - c)) = GoInt.wrap (a + (b - c)).
Proof.
  replace (a + (GoInt.wrap b - c)) with ((a - c) + GoInt.wrap b) by lia.
  rewrite wrap_add_wrap_r. f_equal. lia.
Qed.

Lemma mirror_add (c x : Z) : terms.mirror c (GoInt.add c x) = GoInt.sub c x.
Proof.
  unfold terms.mirror, GoInt.add, GoInt.sub. rewrite wrap_sub_wrap_r. f_equal. lia.
Qed.

Lemma mirror_sub (c x : Z) : terms.mirror c (GoInt.sub c x) = GoInt.add c x.
Proof.
  unfold terms.mirror, GoInt.add, GoInt.sub. rewrite wrap_sub_wrap_r. f_equal. lia.
Qed.

Lemma transpose_add (c c' x : Z) : GoInt.wrap (c + (GoInt.add c' x - c')) = GoInt.add c x.
Proof. unfold GoInt.add. rewrite wrap_shift. f_equal. lia. Qed.

Lemma transpose_sub (c c' x : Z) : GoInt.wrap (c + (GoInt.sub c' x - c')) = GoInt.sub c x.
Proof. unfold GoInt.add, GoInt.sub. rewrite wrap_shift. f_equal. lia. Qed.

Lemma eightPoints_symmetric (cx cy x y : Z) :
  terms.symmetric cx cy (notions.eightPoints cx cy x y).
Proof.
  intros px py Hin. unfold notions.eightPoints in *. cbn [List.In] in Hin.
  unfold terms.transpose. cbn [fst snd].
  repeat (destruct Hin as [[= <- <-]|Hin];
          [rewrite ?mirror_add, ?mirror_sub, ?transpose_add, ?transpose_sub;
           cbn [List.In]; tauto|]).
  destruct Hin.
Qed.

Lemma symmetric_app (cx cy : Z) (p1 p2 : list (Z * Z)) :
  terms.symmetric cx cy p1 -> terms.symmetric cx cy p2 -> terms.symmetric cx cy (p1 ++ p2).
Proof.
  intros H1 H2 px py Hin. rewrite !List.in_app_iff.
  apply List.in_app_or in Hin as [Hin|Hin]; [apply H1 in Hin|apply H2 in Hin]; tauto.
Qed.

Lemma symmetric_nil (cx cy : Z) : terms.symmetric cx cy [].
Proof. intros px py []. Qed.

Lemma circlePoints_symmetric (cx cy : Z) (fuel : nat) :
  forall x y d, terms.symmetric cx cy (notions.circlePoints fuel cx cy x y d).
Proof.
  induction fuel as [|fuel IH]; intros x y d; cbn [notions.circlePoints];
    destruct (x <=? y); try apply symmetric_nil.
  apply symmetric_app; [apply eightPoints_symmetric|].
  destruct (d <? 0); apply IH.
Qed.

Lemma strokesPoints_symmetric (cx cy radius lineWidth : Z) (remaining : nat) :
  forall w, terms.symmetric cx cy (notions.strokesPoints remaining cx cy radius lineWidth w).
Proof.
  induction remaining as [|n IH]; intros w; cbn [notions.strokesPoints];
    [apply symmetric_nil|].
  apply symmetric_app; [|apply IH].
  unfold notions.outlinePoints. destruct (_ <=? 0); [apply symmetric_nil|].
  apply circlePoints_symmetric.
Qed.

Lemma add_sub_same (c q : Z) : GoInt.in_range c -> GoInt.add (GoInt.sub c q) q = c.
Proof.
  intros Hc. unfold GoInt.add, GoInt.sub. rewrite wrap_add_wrap_l.
  replace (c - q + q) with c by lia. now apply wrap_id.
Qed.

End Symmetry.

(** X9. [drawCircle] returns on every buffer, and it paints a set of points
    that is symmetric about the centre: with a point it paints, as far as
    they lie within the bounds, the mirror images of the point about the
    vertical and the horizontal axis through the centre and its image under
    the exchange of the two axes. Nothing but the buffer changes in the
    store, and the buffer only at these points. *)
Theorem drawCircle_symmetric :
  forall (h : gmap positive image.Image) (img : positive) (m : image.Image)
         (centerX centerY radius lineWidth : Z) (col : image.RGBA),
    h !! img = Some m ->
    exists (points : list (Z * Z)) (h' : gmap positive image.Image),
      image_processor.drawCircle img centerX centerY radius col lineWidth h
      = store.Returns tt h'
      /\ notions.painted h img points col h'
      /\ terms.symmetric centerX centerY points.
Proof.
  intros h img m cx cy radius lineWidth col Hm.
  destruct (strokeLoop_painted img col cx cy radius lineWidth (Z.to_nat lineWidth) h m 0 Hm)
    as (h' & Hrun & Hpainted).
  eexists. exists h'. split; [exact Hrun|]. split; [exact Hpainted|].
  apply strokesPoints_symmetric.
Qed.

(** X9 on a circle of radius 3 around the point (5, 5) of a picture of 10
    by 10 pixels. *)
Lemma drawCircle_symmetric_witness :
  let h : gmap positive image.Image := <[1%positive := sample.blank 10 10]> ∅ in
  exists (points : list (Z * Z)) (h' : gmap positive image.Image),
    image_processor.drawCircle 1%positive 5 5 3 (image_processor.ParseColor "red") 1 h
    = store.Returns tt h'
    /\ notions.painted h 1%positive points (image_processor.ParseColor "red") h'
    /\ terms.symmetric 5 5 points.
Proof.
  intros h.
  exact (drawCircle_symmetric h 1%positive (sample.blank 10 10) 5 5 3 1
           (image_processor.ParseColor "red") eq_refl).
Defined.

(** ** From a detection to its circle *)

Section Halving.

Lemma digits2_shift (p k : positive) :
  digits2_pos (Pos.iter xO p k) = (digits2_pos p + k)%positive.
Proof.
  induction k as [|k IH] using Pos.peano_ind.
  - cbn. now rewrite Pos.add_1_r.
  - rewrite Pos.iter_succ. cbn [digits2_pos]. rewrite IH. lia.
Qed.

Lemma Zpos_shift (p k : positive) : Zpos (Pos.iter xO p k) = Zpos p * 2 ^ Zpos k.
Proof.
  induction k as [|k IH] using Pos.peano_ind.
  - cbn. lia.
  - rewrite Pos.iter_succ, Pos2Z.inj_xO, IH, Pos2Z.inj_succ, Z.pow_succ_r by lia. lia.
Qed.

Lemma digits2_bound (p : positive) :
  2 ^ (Zpos (digits2_pos p) - 1) <= Zpos p < 2 ^ Zpos (digits2_pos p).
Proof.
  induction p as [p IH|p IH|]; cbn [digits2_pos].
  - pose proof (Pos2Z.is_pos (digits2_pos p)).
    rewrite Pos2Z.inj_succ, (Pos2Z.inj_xI p).
    replace (Z.succ (Zpos (digits2_pos p)) - 1) with (Z.succ (Zpos (digits2_pos p) - 1)) by lia.
    rewrite !Z.pow_succ_r by lia. lia.
  - pose proof (Pos2Z.is_pos (digits2_pos p)).
    rewrite Pos2Z.inj_succ, (Pos2Z.inj_xO p).
    replace (Z.succ (Zpos (digits2_pos p)) - 1) with (Z.succ (Zpos (digits2_pos p) - 1)) by lia.
    rewrite !Z.pow_succ_r by lia. lia.
  - change (1 <= 1 < 2). lia.
Qed.

(** A mantissa of 53 bits is its own rounding. *)
Lemma round_aligned (s : bool) (m : positive) (e : Z) :
  Zpos (digits2_pos m) = 53 -> -1074 <= e <= 971 ->
  binary_round_aux 53 1024 s (Zpos m) e loc_Exact = S754_finite s m e.
Proof.
  intros Hd He. unfold binary_round_aux, shr_fexp, fexp, emin.
  cbn [Zdigits2 shr_record_of_loc]. rewrite Hd.
  replace (Z.max (53 + e - 53) (3 - 1024 - 53) - e) with 0 by lia.
  cbn [shr shr_m loc_of_shr_record round_nearest_even Zdigits2 shr_record_of_loc].
  rewrite Hd.
  replace (Z.max (53 + e - 53) (3 - 1024 - 53) - e) with 0 by lia.
  cbn [shr shr_m]. change (1024 - 53) with 971.
  destruct (Z.leb_spec e 971); [reflexivity|lia].
Qed.

(** The mantissa and the exponent of an integer below 2^53 in binary64:
    the integer, moved up to 53 bits. *)
Lemma float64_of_pos (s : bool) (p : positive) :
  Zpos p < 2 ^ 53 ->
  exists m e,
    binary_round 53 1024 s p 0 = S754_finite s m e
    /\ Zpos (digits2_pos m) = 53
    /\ -52 <= e <= 0
    /\ Zpos m = Zpos p * 2 ^ (- e).
Proof.
  intros Hp. pose proof (digits2_bound p) as [Hlow _].
  assert (Hd : Zpos (digits2_pos p) <= 53).
  { destruct (Z.le_gt_cases (Zpos (digits2_pos p)) 53) as [|Hgt]; [assumption|].
    assert (2 ^ 53 <= 2 ^ (Zpos (digits2_pos p) - 1)) by (apply Z.pow_le_mono_r; lia).
    lia. }
  unfold binary_round, shl_align, fexp, emin.
  replace (Z.max (Zpos (digits2_pos p) + 0 - 53) (3 - 1024 - 53) - 0)
    with (Zpos (digits2_pos p) - 53) by lia.
  replace (Z.max (Zpos (digits2_pos p) + 0 - 53) (3 - 1024 - 53))
    with (Zpos (digits2_pos p) - 53) by lia.
  destruct (Zpos (digits2_pos p) - 53) as [|k|k] eqn:Hk; [|lia|].
  - exists p, 0. rewrite round_aligned by lia.
    split; [reflexivity|]. split; [lia|]. split; [lia|]. cbn. lia.
  - exists (Pos.iter xO p k), (Zneg k).
    assert (Hdk : Zpos (digits2_pos (Pos.iter xO p k)) = 53).
    { rewrite digits2_shift, Pos2Z.inj_add. lia. }
    rewrite round_aligned by (try exact Hdk; lia).
    split; [reflexivity|]. split; [exact Hdk|]. split; [lia|].
    rewrite Zpos_shift. reflexivity.
Qed.

(** Half of a number with a mantissa of 53 bits: the exponent goes down
    by one. *)
Lemma half_aligned (s : bool) (m : positive) (e : Z) :
  Zpos (digits2_pos m) = 53 -> -1000 <= e <= 971 ->
  SFdiv 53 1024 (S754_finite s m e) (GoFloat.float64_of_int 2)
  = S754_finite s m (e - 1).
Proof.
  intros Hd He.
  change (GoFloat.float64_of_int 2) with (S754_finite false 4503599627370496 (-51)).
  unfold SFdiv, SFdiv_core_binary. cbn [Zdigits2]. rewrite Hd.
  change (Zpos (digits2_pos 4503599627370496)) with 53.
  unfold fexp, emin.
  replace (Z.min (Z.max (53 + e - (53 + -51) - 53) (3 - 1024 - 53)) (e - -51))
    with (e - 2) by lia.
  replace (e - -51 - (e - 2)) with 53 by lia.
  rewrite Z.shiftl_mul_pow2 by lia.
  assert (Hdiv : Z.div_eucl (Zpos m * 2 ^ 53) 4503599627370496 = (Zpos (xO m), 0)).
  { pose proof (Z.div_eucl_eq (Zpos m * 2 ^ 53) 4503599627370496 ltac:(lia)) as Heq.
    pose proof (Z.mod_pos_bound (Zpos m * 2 ^ 53) 4503599627370496 ltac:(lia)) as Hb.
    unfold Z.modulo in Hb.
    destruct (Z.div_eucl (Zpos m * 2 ^ 53) 4503599627370496) as [q r].
    change (2 ^ 53) with 9007199254740992 in Heq.
    assert (q = 2 * Zpos m /\ r = 0) as [-> ->] by lia.
    reflexivity. }
  rewrite Hdiv.
  change (new_location 4503599627370496 0) with loc_Exact.
  unfold binary_round_aux, shr_fexp, fexp, emin.
  cbn [Zdigits2 shr_record_of_loc digits2_pos]. rewrite Pos2Z.inj_succ, Hd.
  replace (Z.max (Z.succ 53 + (e - 2) - 53) (3 - 1024 - 53) - (e - 2)) with 1 by lia.
  cbn [shr].
  change (SpecFloat.iter_pos shr_1 1
            {| shr_m := Zpos (xO m); shr_r := false; shr_s := false |})
    with {| shr_m := Zpos m; shr_r := false; shr_s := false |}.
  cbn [shr_m loc_of_shr_record round_nearest_even Zdigits2 shr_record_of_loc].
  rewrite Hd.
  replace (e - 2 + 1) with (e - 1) by lia.
  replace (Z.max (53 + (e - 1) - 53) (3 - 1024 - 53) - (e - 1)) with 0 by lia.
  cbn [shr shr_m]. change (1024 - 53) with 971.
  destruct (Z.leb_spec (e - 1) 971); [|lia].
  now rewrite xorb_false_r.
Qed.

Lemma math_Max_same (s : bool) (m : positive) (e : Z) :
  GoFloat.math_Max (S754_finite s m e) (S754_finite s m e) = S754_finite s m e.
Proof.
  unfold GoFloat.math_Max. cbn [GoFloat.is_pos_inf GoFloat.is_nan orb].
  unfold GoFloat.eqb, GoFloat.zero, SFeqb. cbn [SFcompare].
  destruct s; cbn [andb]; destruct (GoFloat.gtb _ _); reflexivity.
Qed.

(** Half of an integer below 2^53 in absolute value, computed in binary64
    and converted back, is its half in truncating integer division. *)
Lemma half_of_int (z : Z) :
  - 2 ^ 53 < z < 2 ^ 53 ->
  GoFloat.int_of_float64
    (GoFloat.div64 (GoFloat.math_Max (GoFloat.float64_of_int z) (GoFloat.float64_of_int z))
       (GoFloat.float64_of_int 2))
  = Z.quot z 2.
Proof.
  intros Hz.
  assert (Hpos : forall (s : bool) (p : positive),
             Zpos p < 2 ^ 53 ->
             GoFloat.int_of_float64
               (GoFloat.div64
                  (GoFloat.math_Max (binary_round 53 1024 s p 0) (binary_round 53 1024 s p 0))
                  (GoFloat.float64_of_int 2))
             = cond_Zopp s (Zpos p / 2)).
  { intros s p Hp. destruct (float64_of_pos s p Hp) as (m & e & -> & Hd & He & Hm).
    rewrite math_Max_same. unfold GoFloat.div64, GoFloat.emax64, GoFloat.prec64.
    rewrite half_aligned by (try exact Hd; lia).
    unfold GoFloat.int_of_float64.
    destruct (Z.leb_spec 0 (e - 1)); [lia|].
    assert (Hhalf : Zpos m / 2 ^ (- (e - 1)) = Zpos p / 2).
    { rewrite Hm. replace (- (e - 1)) with (- e + 1) by lia.
      rewrite Z.pow_add_r by lia. change (2 ^ 1) with 2.
      rewrite (Z.mul_comm (2 ^ (- e)) 2), Z.div_mul_cancel_r; [reflexivity|lia|].
      apply Z.pow_nonzero; lia. }
    rewrite Hhalf.
    assert (Hb : 0 <= Zpos p / 2 < 2 ^ 53).
    { split; [apply Z.div_pos; lia|]. apply Z.div_lt_upper_bound; lia. }
    unfold GoInt.MinInt, GoInt.MaxInt.
    change (2 ^ 53) with 9007199254740992 in Hb.
    change (- 2 ^ 63) with (-9223372036854775808).
    change (2 ^ 63 - 1) with 9223372036854775807.
    destruct s; cbn [cond_Zopp].
    - destruct (Z.leb_spec (-9223372036854775808) (- (Zpos p / 2))); [|lia].
      destruct (Z.leb_spec (- (Zpos p / 2)) 9223372036854775807); [reflexivity|lia].
    - destruct (Z.leb_spec (-9223372036854775808) (Zpos p / 2)); [|lia].
      destruct (Z.leb_spec (Zpos p / 2) 9223372036854775807); [reflexivity|lia]. }
  destruct z as [|p|p].
  - reflexivity.
  - unfold GoFloat.float64_of_int at 1 2. unfold GoFloat.prec64, GoFloat.emax64.
    cbn [binary_normalize]. rewrite Hpos by lia. cbn [cond_Zopp].
    symmetry. apply Z.quot_div_nonneg; lia.
  - unfold GoFloat.float64_of_int at 1 2. unfold GoFloat.prec64, GoFloat.emax64.
    cbn [binary_normalize]. rewrite Hpos by lia. cbn [cond_Zopp].
    change (Zneg p) with (- Zpos p). rewrite Z.quot_opp_l by lia.
    f_equal. symmetry. apply Z.quot_div_nonneg; lia.
Qed.

End Halving.

(** X10. The circle of a detected face: the face that [DetectFaces] makes
    of a detection at row [Row], column [Col] and of size [Scale] is drawn
    by [DrawFaceCircles] as the circle around the point ([Col], [Row]) of
    radius [Scale] / 2, rounded towards zero, for every size below 2^53 in
    absolute value. The halving of the corner and the float arithmetic of
    the radius lose nothing: the circle is centred on the detection also
    when the size is odd. *)
Theorem detected_face_circle :
  forall (det : pigo.Detection) (rgba : positive) (opts : image_processor.CircleOptions),
    GoInt.in_range (pigo.Col det) ->
    GoInt.in_range (pigo.Row det) ->
    - 2 ^ 53 < pigo.Scale det < 2 ^ 53 ->
    image_processor.faceRadius (face_detector.toFace det) = Z.quot (pigo.Scale det) 2
    /\ image_processor.drawFace rgba opts (face_detector.toFace det)
       = image_processor.drawCircle rgba (pigo.Col det) (pigo.Row det)
           (Z.quot (pigo.Scale det) 2)
           (image_processor.Color opts) (image_processor.LineWidth opts).
Proof.
  intros det rgba opts Hcol Hrow Hscale.
  assert (Hradius : image_processor.faceRadius (face_detector.toFace det)
                    = Z.quot (pigo.Scale det) 2).
  { unfold image_processor.faceRadius, face_detector.toFace.
    cbn [models.Width models.Height]. now apply half_of_int. }
  split; [exact Hradius|].
  unfold image_processor.drawFace. rewrite Hradius.
  unfold face_detector.toFace. cbn [models.X models.Y models.Width models.Height].
  now rewrite !add_sub_same.
Qed.

(** X10 on a detection of size 41 at row 50, column 60: radius 20. *)
Lemma detected_face_circle_witness :
  let det :=
    {| pigo.Row := 50; pigo.Col := 60; pigo.Scale := 41;
       pigo.Q := GoFloat.float32_of_int 20 |} in
  let opts :=
    {| image_processor.Color := image_processor.ParseColor "red";
       image_processor.LineWidth := 3 |} in
  image_processor.faceRadius (face_detector.toFace det) = 20
  /\ image_processor.drawFace 1%positive opts (face_detector.toFace det)
     = image_processor.drawCircle 1%positive 60 50 20
         (image_processor.Color opts) (image_processor.LineWidth opts).
Proof.
  intros det opts.
  apply (detected_face_circle det 1%positive opts);
    unfold GoInt.in_range, GoInt.MinInt, GoInt.MaxInt; cbn; lia.
Defined.

(** ** A successful detection *)

(** X11. A detection response of [DetectHandler] is the answer to a decoded
    request with a URL that is not empty and whose download succeeded. It
    lists the faces of [DetectFaces] on the downloaded picture, and their
    number; every face is a square whose confidence is at least
    [MinConfidence]; the metadata carry the URL of the request and a width
    and a height within the limits. For a picture whose bounds start at the
    origin, the detector ran on exactly as many columns and rows as the
    metadata report. *)
Theorem DetectHandler_success :
  forall (L : GoLibs) (h : handlers.FaceHandler) (body : option models.FaceDetectionRequest)
         (t : GoFloat.float64) (resp : models.FaceDetectionResponse),
    handlers.DetectHandler h body t = handlers.DetectionResponse resp ->
    let limits := image_downloader.config (handlers.imageDownloader h) in
    let min := config.MinConfidence (face_detector.config (handlers.faceDetector h)) in
    let metadata := models.Detection_ImageMetadata resp in
    exists (req : models.FaceDetectionRequest) (img : image.Image),
      body = Some req
      /\ models.ImageURL req <> EmptyString
      /\ image_downloader.DownloadImage (handlers.imageDownloader h) (models.ImageURL req)
         = Ok (img, metadata)
      /\ models.Faces resp = fst (face_detector.DetectFaces (handlers.faceDetector h) img)
      /\ models.Count resp = Z.of_nat (List.length (models.Faces resp))
      /\ models.ProcessingTimeMs resp = t
      /\ List.Forall
           (fun face =>
              models.Width face = models.Height face
              /\ notions.score_at_least (models.Confidence face) min = true)
           (models.Faces resp)
      /\ models.URL metadata = models.ImageURL req
      /\ models.Metadata_Width metadata <= config.MaxWidth limits
      /\ models.Metadata_Height metadata <= config.MaxHeight limits
      /\ (image.Min (image.Rect img) = {| image.PX := 0; image.PY := 0 |} ->
          GoInt.in_range (image.PX (image.Max (image.Rect img))) ->
          GoInt.in_range (image.PY (image.Max (image.Rect img))) ->
          let params := pigo.Cascade_ImageParams
                          (face_detector.cascadeParams (handlers.faceDetector h) img) in
          pigo.Cols params = models.Metadata_Width metadata
          /\ pigo.Rows params = models.Metadata_Height metadata).
Proof.
  intros L h body t resp Hresp limits min metadata. subst limits min metadata.
  unfold handlers.DetectHandler, handlers.writeErrorResponse in Hresp.
  destruct body as [req|]; [|discriminate Hresp].
  destruct (String.eqb_spec (models.ImageURL req) EmptyString) as [|Hne];
    [discriminate Hresp|].
  destruct (image_downloader.DownloadImage _ _) as [[img metadata]|err] eqn:Hok;
    [|discriminate Hresp].
  rewrite DetectFaces_eq in Hresp. injection Hresp as <-.
  cbn [models.Faces models.Count models.Detection_ImageMetadata models.ProcessingTimeMs].
  exists req, img. rewrite DetectFaces_eq. cbn [fst].
  pose proof (DownloadImage_checked _ _ _ _ Hok) as Hlimits.
  destruct Hlimits as (_ & Hurl & Hw & Hh & Hmw & Hmh & _).
  repeat (split; [first [reflexivity|assumption]|]).
  split.
  - apply List.Forall_forall. intros face Hface.
    apply List.in_map_iff in Hface as (det & <- & Hdet).
    apply List.filter_In in Hdet as [_ Hkeep].
    split; [reflexivity|]. cbn [models.Confidence face_detector.toFace].
    now rewrite <- keeps_score_at_least.
  - repeat (split; [assumption|]).
    intros Hmin Hx Hy. cbn. rewrite Hw, Hh. unfold image.Dx, image.Dy, GoInt.sub.
    rewrite Hmin. cbn [image.PX image.PY]. rewrite !Z.sub_0_r.
    split; symmetry; now apply wrap_id.
Qed.

(** X11 on the sample handler: one detection of size 41 and score 20 in
    the JPEG stand-in of 64 by 48 pixels. *)
Lemma DetectHandler_success_witness :
  let det :=
    {| pigo.Row := 24; pigo.Col := 32; pigo.Scale := 41;
       pigo.Q := GoFloat.float32_of_int 20 |} in
  let h := fixtures.faceHandler [det] in
  let body := Some {| models.ImageURL := "https://example.com/a.jpg" |} in
  let resp :=
    {| models.Faces := [face_detector.toFace det];
       models.Count := 1;
       models.Detection_ImageMetadata :=
         {| models.Metadata_Width := 64; models.Metadata_Height := 48;
            models.Format := "JPEG"; models.SizeBytes := 4;
            models.URL := "https://example.com/a.jpg" |};
       models.ProcessingTimeMs := GoFloat.zero |} in
  handlers.DetectHandler (H := sample.libs) h body GoFloat.zero
  = handlers.DetectionResponse resp
  /\ List.Forall
       (fun face =>
          models.Width face = models.Height face
          /\ notions.score_at_least (models.Confidence face)
               (GoFloat.float32_of_int 12) = true)
       (models.Faces resp).
Proof.
  intros det h body resp.
  assert (Hrun : handlers.DetectHandler (H := sample.libs) h body GoFloat.zero
                 = handlers.DetectionResponse resp) by (vm_compute; reflexivity).
  split; [exact Hrun|].
  destruct (DetectHandler_success sample.libs h body GoFloat.zero resp Hrun)
    as (req & img & _ & _ & _ & _ & _ & _ & Hfaces & _).
  exact Hfaces.
Defined.

(** ** Runs on a response writer *)

Section Server.

Import server.

Context {W : Type} `{ResponseWriter W}.

Lemma exec_bind {A B : Type} (p : prog A) (k : A -> prog B) :
  forall (w : W) (log : list Entry),
    exec (bind p k) w log
    = match exec p w log with
      | Returned a w' log' => exec (k a) w' log'
      | Panicked v w' log' => Panicked v w' log'
      end.
Proof.
  induction p as [a|v|key value next IH|code next IH|b next IH|e next IH];
    intros w log; cbn [bind exec]; auto.
  destruct (Write b w) as [[n err] w']. apply IH.
Qed.

Lemma exec_recover {A : Type} (p : prog A) (deferred : string -> prog A) :
  forall (w : W) (log : list Entry),
    exec (recover p deferred) w log
    = match exec p w log with
      | Returned a w' log' => Returned a w' log'
      | Panicked v w' log' => exec (deferred v) w' log'
      end.
Proof.
  induction p as [a|v|key value next IH|code next IH|b next IH|e next IH];
    intros w log; cbn [recover exec]; auto.
  destruct (Write b w) as [[n err] w']. apply IH.
Qed.

(** The transformed run is the run on the wrapper object. *)
Lemma exec_wrapped {A : Type} (p : prog A) :
  forall (statusCode size : Z) (w : W) (log : list Entry),
    let rw := {| middleware.inner := w; middleware.statusCode := statusCode;
                 middleware.size := size |} in
    exec (middleware.wrapped p statusCode size) w log
    = match exec p rw log with
      | Returned a rw' log' =>
          Returned (a, (middleware.statusCode rw', middleware.size rw'))
            (middleware.inner rw') log'
      | Panicked v rw' log' => Panicked v (middleware.inner rw') log'
      end.
Proof.
  induction p as [a|v|key value next IH|code next IH|b next IH|e next IH];
    intros statusCode size w log; cbv zeta; cbn [middleware.wrapped exec].
  - reflexivity.
  - reflexivity.
  - apply IH.
  - apply IH.
  - cbn [Write middleware.responseWriter_writer middleware.inner middleware.statusCode
           middleware.size].
    destruct (Write b w) as [[n err] w']. apply IH.
  - apply IH.
Qed.

(** The wrapper passes every call on: the writer it wraps ends in the
    state in which it ends without the wrapper. *)
Lemma exec_on_wrapper {A : Type} (p : prog A) :
  forall (statusCode size : Z) (w : W) (log : list Entry),
    let rw := {| middleware.inner := w; middleware.statusCode := statusCode;
                 middleware.size := size |} in
    match exec p rw log with
    | Returned a rw' log' => exec p w log = Returned a (middleware.inner rw') log'
    | Panicked v rw' log' => exec p w log = Panicked v (middleware.inner rw') log'
    end.
Proof.
  induction p as [a|v|key value next IH|code next IH|b next IH|e next IH];
    intros statusCode size w log; cbv zeta; cbn [exec].
  - reflexivity.
  - reflexivity.
  - apply IH.
  - apply IH.
  - cbn [Write middleware.responseWriter_writer middleware.inner middleware.statusCode
           middleware.size].
    destruct (Write b w) as [[n err] w']. apply IH.
  - apply IH.
Qed.

(** [LoggingMiddleware] on any writer. *)
Lemma exec_LoggingMiddleware (duration_ms : Z) (next : Handler) (r : Request) (w : W)
    (log : list Entry) :
  match exec (next r) (terms.wrapper w) log with
  | Returned _ rw' log' =>
      exec (next r) w log = Returned tt (middleware.inner rw') log'
      /\ exec (middleware.LoggingMiddleware duration_ms next r) w log
         = Returned tt (middleware.inner rw')
             (log' ++ [middleware.requestEntry r (middleware.statusCode rw')
                         (middleware.size rw') duration_ms])%list
  | Panicked v rw' log' =>
      exec (next r) w log = Panicked v (middleware.inner rw') log'
      /\ exec (middleware.LoggingMiddleware duration_ms next r) w log
         = Panicked v (middleware.inner rw') log'
  end.
Proof.
  pose proof (exec_on_wrapper (next r) http.StatusOK 0 w log) as Hinner.
  pose proof (exec_wrapped (next r) http.StatusOK 0 w log) as Hwrapped.
  cbv zeta in Hinner, Hwrapped. unfold terms.wrapper.
  unfold middleware.LoggingMiddleware. rewrite exec_bind, Hwrapped.
  destruct (exec (next r) _ log) as [[] rw' log'|v rw' log'].
  - split; [exact Hinner|reflexivity].
  - split; [exact Hinner|reflexivity].
Qed.

End Server.

Section NetHTTP.

Import server.

Lemma length_append (a b : string) :
  String.length (a ++ b) = (String.length a + String.length b)%nat.
Proof.
  induction a as [|c a IH]; [reflexivity|]. rewrite append_cons. cbn. now rewrite IH.
Qed.

Context {A : Type}.

(** Once the header is written, a run without [WriteHeader] leaves the
    status as it is, on the response and on the wrapper. *)
Lemma exec_after_header (p : prog A) :
  terms.no_WriteHeader p ->
  forall (statusCode size : Z) (w : response) (log : list Entry),
    wroteHeader w = true ->
    let rw := {| middleware.inner := w; middleware.statusCode := statusCode;
                 middleware.size := size |} in
    let rw' := terms.writer_of (exec p rw log) in
    middleware.statusCode rw' = statusCode
    /\ wroteHeader (middleware.inner rw') = true
    /\ status (middleware.inner rw') = status w
    /\ sent (middleware.inner rw') = sent w.
Proof.
  induction 1 as [a|v|key value next Hn IH|b next Hn IH|e next Hn IH];
    intros statusCode size w log Hw; cbv zeta; cbn [exec terms.writer_of].
  - auto.
  - auto.
  - assert (H1 : wroteHeader (Header_Set key value w) = true) by exact Hw.
    exact (IH statusCode size _ log H1).
  - cbn [Write middleware.responseWriter_writer middleware.inner middleware.statusCode
           middleware.size response_writer].
    unfold response_WriteHeader. rewrite Hw.
    set (w1 := {| header := header w; body := body w ++ b |}).
    assert (H1 : wroteHeader w1 = true) by exact Hw.
    exact (IH (Z.of_nat (String.length b)) None statusCode
             (GoInt.add size (Z.of_nat (String.length b))) w1 log H1).
  - exact (IH statusCode size w (log ++ [e])%list Hw).
Qed.

(** The status that the wrapper holds at the end of an orderly run is
    the status of the response. *)
Lemma exec_orderly (p : prog A) :
  terms.orderly p ->
  forall (size : Z) (w : response) (log : list Entry),
    wroteHeader w = false ->
    let rw := {| middleware.inner := w; middleware.statusCode := http.StatusOK;
                 middleware.size := size |} in
    let rw' := terms.writer_of (exec p rw log) in
    status (finish (middleware.inner rw')) = middleware.statusCode rw'.
Proof.
  induction 1 as [a|v|key value next Ho IH|code next Hn|b next Hn|e next Ho IH];
    intros size w log Hw; cbv zeta; cbn [exec terms.writer_of].
  - cbn. unfold finish, response_WriteHeader. now rewrite Hw.
  - cbn. unfold finish, response_WriteHeader. now rewrite Hw.
  - assert (H1 : wroteHeader (Header_Set key value w) = false) by exact Hw.
    exact (IH size _ log H1).
  - cbn [WriteHeader middleware.responseWriter_writer middleware.inner middleware.statusCode
           middleware.size response_writer].
    destruct (exec_after_header next Hn code size (response_WriteHeader code w) log)
      as (Hs & Hwh & Hst & _).
    { unfold response_WriteHeader. now rewrite Hw. }
    cbv zeta in Hs, Hwh, Hst. rewrite Hs.
    unfold finish. unfold response_WriteHeader at 1. rewrite Hwh, Hst.
    unfold response_WriteHeader. now rewrite Hw.
  - cbn [Write middleware.responseWriter_writer middleware.inner middleware.statusCode
           middleware.size response_writer].
    set (w1 := {| header := header (response_WriteHeader 200 w);
                  body := body (response_WriteHeader 200 w) ++ b |}).
    destruct (exec_after_header (next (Z.of_nat (String.length b)) None)
                (Hn _ _) http.StatusOK (GoInt.add size (Z.of_nat (String.length b)))
                w1 log) as (Hs & Hwh & Hst & _).
    { subst w1. cbn. unfold response_WriteHeader. now rewrite Hw. }
    cbv zeta in Hs, Hwh, Hst. rewrite Hs.
    unfold finish. unfold response_WriteHeader at 1. rewrite Hwh, Hst.
    subst w1. cbn. unfold response_WriteHeader. now rewrite Hw.
  - exact (IH size w (log ++ [e])%list Hw).
Qed.

Lemma body_WriteHeader (code : Z) (w : response) :
  body (response_WriteHeader code w) = body w.
Proof. unfold response_WriteHeader. now destruct (wroteHeader w). Qed.

(** The size that the wrapper holds counts the bytes added to the body. *)
Lemma exec_size (p : prog A) :
  forall (statusCode size : Z) (w : response) (log : list Entry),
    GoInt.in_range size ->
    let rw := {| middleware.inner := w; middleware.statusCode := statusCode;
                 middleware.size := size |} in
    let rw' := terms.writer_of (exec p rw log) in
    exists added : string,
      body (middleware.inner rw') = body w ++ added
      /\ middleware.size rw' = GoInt.wrap (size + Z.of_nat (String.length added)).
Proof.
  induction p as [a|v|key value next IH|code next IH|b next IH|e next IH];
    intros statusCode size w log Hsize; cbv zeta; cbn [exec terms.writer_of].
  - exists EmptyString. cbn. rewrite append_nil_r, Z.add_0_r. split; [reflexivity|].
    symmetry. now apply wrap_id.
  - exists EmptyString. cbn. rewrite append_nil_r, Z.add_0_r. split; [reflexivity|].
    symmetry. now apply wrap_id.
  - exact (IH statusCode size (Header_Set key value w) log Hsize).
  - destruct (IH code size (response_WriteHeader code w) log Hsize) as (added & Hb & Hs).
    cbv zeta in Hb, Hs. rewrite body_WriteHeader in Hb. exists added. split; assumption.
  - cbn [Write middleware.responseWriter_writer middleware.inner middleware.statusCode
           middleware.size response_writer].
    set (w1 := {| header := header (response_WriteHeader 200 w);
                  body := body (response_WriteHeader 200 w) ++ b |}).
    destruct (IH (Z.of_nat (String.length b)) None statusCode
                (GoInt.add size (Z.of_nat (String.length b))) w1 log)
      as (added & Hb & Hs); [apply wrap_in_range|].
    cbv zeta in Hb, Hs. exists (b ++ added). split.
    + rewrite Hb. subst w1. cbn [body]. now rewrite body_WriteHeader, append_assoc.
    + rewrite Hs. unfold GoInt.add. rewrite wrap_add_wrap_l, length_append. f_equal. lia.
  - exact (IH statusCode size w (log ++ [e])%list Hsize).
Qed.

End NetHTTP.




(** ** Recovery *)

Section Recovery.

Import server.

Context `{json.JsonLib}.

Lemma exec_recovered {W : Type} `{ResponseWriter W} (stack : string) (r : Request)
    (v : string) (w : W) (log : list Entry) :
  exists w',
    exec (middleware.recovered stack r v) w log
    = Returned tt w' (log ++ [middleware.panicEntry r v stack])%list.
Proof.
  unfold middleware.recovered, json.Encode. cbn [exec].
  destruct (json.Marshal _) as [b|err]; cbn [exec].
  - destruct (Write _ _) as [[n e] w']. eauto.
  - eauto.
Qed.

Lemma exec_recovered_response (stack : string) (r : Request) (v : string)
    (w : response) (log : list Entry) :
  exists w',
    exec (middleware.recovered stack r v) w log
    = Returned tt w' (log ++ [middleware.panicEntry r v stack])%list
    /\ body w' = body w ++ terms.encoded terms.internalError
    /\ wroteHeader w' = true
    /\ (wroteHeader w = false ->
        status w' = 500
        /\ sent w' = <["Content-Type" := "application/json"]> (header w))
    /\ (wroteHeader w = true -> status w' = status w /\ sent w' = sent w).
Proof.
  unfold middleware.recovered, json.Encode, terms.encoded, terms.internalError.
  cbn [exec]. destruct (json.Marshal _) as [b|err]; cbn [exec].
  - cbn [Write WriteHeader Header_Set response_writer]. eexists. split; [reflexivity|].
    cbn [body header wroteHeader status sent]. unfold response_WriteHeader.
    cbn [body header wroteHeader status sent].
    destruct (wroteHeader w) eqn:Hw; cbn [body header wroteHeader status sent];
      repeat split; try reflexivity; try discriminate; try assumption.
  - cbn [Write WriteHeader Header_Set response_writer]. eexists. split; [reflexivity|].
    unfold response_WriteHeader. cbn [body header wroteHeader status sent].
    destruct (wroteHeader w) eqn:Hw; cbn [body header wroteHeader status sent];
      rewrite ?append_nil_r; repeat split; try reflexivity; try discriminate;
      try assumption.
Qed.

(** The deferred function of the recovery middleware on the wrapper of
    the logging middleware. *)
Lemma exec_recovered_wrapper (stack : string) (r : Request) (v : string)
    (rw : middleware.responseWriter response) (log : list Entry) :
  exists rw',
    exec (middleware.recovered stack r v) rw log
    = Returned tt rw' (log ++ [middleware.panicEntry r v stack])%list
    /\ middleware.statusCode rw' = 500.
Proof.
  unfold middleware.recovered, json.Encode. cbn [exec].
  destruct (json.Marshal _) as [b|err]; cbn [exec].
  - cbn [Write WriteHeader Header_Set middleware.responseWriter_writer response_writer
           middleware.inner middleware.statusCode middleware.size].
    eexists. split; reflexivity.
  - eexists. split; reflexivity.
Qed.

End Recovery.


(** X15. What the client receives after a recovered panic, on the response
    of net/http, for a handler within the reach of the response model.
    When the handler had not written the header, the status is 500 and the
    content type application/json. When the header was already written,
    status and headers stay as the handler sent them: a panic after
    [WriteHeader(200)] is answered with status 200. In both cases the
    encoding of the internal-error object follows whatever the handler had
    written of the body. *)
Theorem RecoveryMiddleware_response :
  forall (J : json.JsonLib) (stack : string) (next : server.Handler) (r : server.Request)
         (w0 w : server.response) (log0 log : list server.Entry) (v : string),
    terms.plain (next r) ->
    server.exec (next r) w0 log0 = server.Panicked v w log ->
    exists w',
      server.exec (middleware.RecoveryMiddleware stack next r) w0 log0
      = server.Returned tt w' (log ++ [middleware.panicEntry r v stack])%list
      /\ server.body w' = server.body w ++ terms.encoded terms.internalError
      /\ (server.wroteHeader w = false ->
          server.status w' = 500
          /\ server.sent w' !! "Content-Type" = Some "application/json")
      /\ (server.wroteHeader w = true ->
          server.status w' = server.status w /\ server.sent w' = server.sent w).
Proof.
  intros J stack next r w0 w log0 log v _ Hpanic.
  unfold middleware.RecoveryMiddleware. rewrite exec_recover, Hpanic.
  destruct (exec_recovered_response stack r v w log)
    as (w' & Hrun & Hbody & _ & Hfresh & Hsent).
  exists w'. split; [exact Hrun|]. split; [exact Hbody|]. split; [|exact Hsent].
  intros Hw. destruct (Hfresh Hw) as (Hstatus & Hheaders).
  split; [exact Hstatus|]. rewrite Hheaders. apply lookup_insert_eq.
Qed.

(** X15 on a handler that panics after [WriteHeader(200)]: the status of
    the response is 200. *)
Lemma RecoveryMiddleware_response_witness :
  let next : server.Handler :=
    fun _ => server.CallWriteHeader 200 (server.Panic "index out of range") in
  let r := fixtures.request "POST" "/api/v1/detect" EmptyString in
  exists w',
    server.exec (middleware.RecoveryMiddleware (H := fixtures.jsonlib) "stack" next r)
      server.new_response []
    = server.Returned tt w' [middleware.panicEntry r "index out of range" "stack"]
    /\ server.status w' = 200.
Proof.
  intros next r.
  assert (Hplain : terms.plain (next r)).
  { apply terms.plain_WriteHeader; [reflexivity|apply terms.plain_Panic]. }
  destruct (RecoveryMiddleware_response fixtures.jsonlib "stack" next r
              server.new_response
              (server.response_WriteHeader 200 server.new_response) [] []
              "index out of range" Hplain eq_refl)
    as (w' & Hrun & _ & _ & Hsent).
  exists w'. split; [exact Hrun|]. now apply Hsent.
Defined.

(** ** The middleware of main around a handler *)

Section Chain.

Import server.

Context `{json.JsonLib}.

Lemma reply_plain (p : prog unit) (code : Z) :
  terms.reply p code -> terms.carries_body code = true -> terms.plain p.
Proof.
  intros Hreply Hcode. destruct Hreply as [v|code v|code b]; unfold json.Encode;
    try destruct (json.Marshal v) as [b|err];
    repeat first [ apply terms.plain_HeaderSet
                 | apply terms.plain_WriteHeader; [exact Hcode|]
                 | apply terms.plain_Write; intros n e
                 | apply terms.plain_Done ].
Qed.

Lemma exec_reply (p : prog unit) (code : Z) (c : api.Clock) (h : Handler) (r : Request) :
  h r = p -> terms.reply p code ->
  exists w size,
    exec (api.use c h r) new_response []
    = Returned tt w [middleware.requestEntry r code size (api.duration_ms c)]
    /\ size = GoInt.wrap (Z.of_nat (String.length (body w)))
    /\ status (finish w) = code
    /\ sent (finish w) !! "Content-Type" = Some "application/json".
Proof.
  intros Hp Hreply. unfold api.use, middleware.LoggingMiddleware, middleware.RecoveryMiddleware.
  rewrite Hp. destruct Hreply as [v|code v|code b]; unfold json.Encode;
    try destruct (json.Marshal v) as [b|err]; cbn;
    do 2 eexists; (split; [reflexivity|]); cbn;
    (split; [unfold GoInt.add; rewrite ?Z.add_0_l, ?append_nil_l; reflexivity|]);
    (split; [reflexivity|apply lookup_insert_eq]).
Qed.

End Chain.

Section Total.

Import image store imageops image_processor.

Context `{GoLibs}.

(** [DrawFaceCircles] returns on every picture. *)
Lemma DrawFaceCircles_total (h : gmap positive Image) (src : positive) (m : Image)
    (faces : list models.Face) (opts : CircleOptions) :
  h !! src = Some m ->
  exists encoded h', DrawFaceCircles src faces opts h = Returns encoded h'.
Proof.
  intros Hm.
  set (rgba := fresh (dom h)).
  assert (Hfresh : h !! rgba = None) by (apply not_elem_of_dom; apply is_fresh).
  assert (Hne : src <> rgba) by (intros ->; congruence).
  unfold DrawFaceCircles, Bounds, NewRGBA, draw_Draw, encodeToBase64,
    bind, load, alloc, ret, store.store.
  rewrite Hm. fold rgba.
  rewrite lookup_insert_eq, (lookup_insert_ne _ rgba src) by congruence.
  rewrite Hm, lookup_insert_eq, insert_insert_eq.
  match goal with
  | |- context [drawFaces rgba opts faces ?h1] =>
      destruct (drawFaces_painted rgba opts faces h1 _ (lookup_insert_eq _ _ _))
        as (h2 & Hfaces & Hpainted)
  end.
  rewrite Hfaces. destruct (painted_lookup _ _ _ _ _ Hpainted) as [copy Hcopy].
  rewrite Hcopy. destruct (jpeg_Encode copy 90); eauto.
Qed.

(** [DetectVisualHandler] returns on every request. *)
Lemma DetectVisualHandler_total (h : handlers.FaceHandler)
    (body : option models.VisualDetectionRequest) (t : GoFloat.float64)
    (st : gmap positive Image) :
  exists w st', handlers.DetectVisualHandler h body t st = Returns w st'.
Proof.
  unfold handlers.DetectVisualHandler.
  destruct body as [req|]; [|cbn; eauto].
  destruct (String.eqb _ _); [cbn; eauto|].
  destruct (image_downloader.DownloadImage _ _) as [[img metadata]|err]; [|cbn; eauto].
  unfold bind, alloc. rewrite DetectFaces_eq.
  match goal with
  | |- context [DrawFaceCircles ?src ?faces ?opts ?h1] =>
      destruct (DrawFaceCircles_total h1 src img faces opts (lookup_insert_eq _ _ _))
        as (encoded & h2 & Hrun)
  end.
  rewrite Hrun. destruct encoded; cbn; eauto.
Qed.

End Total.





(** ** The rate limiter *)

Section RateLimiter.

Import server middleware.

Context {Limiter : Type} `{rate.RateLib Limiter}.

Implicit Types (st : State (Limiter := Limiter)) (key : string).

Lemma initial_consistent (r : GoFloat.float64) (b : Z) :
  terms.consistent (terms.initial (Limiter := Limiter) r b).
Proof.
  split.
  - intros key l Hl. cbn in Hl. rewrite lookup_empty in Hl. discriminate Hl.
  - intros k1 k2 l Hl. cbn in Hl. rewrite lookup_empty in Hl. discriminate Hl.
Qed.

Lemma getLimiter_present st key (l : positive) :
  limiters (rl st) !! key = Some l -> getLimiter key st = (l, st).
Proof. intros Hl. unfold getLimiter. now rewrite Hl. Qed.

Lemma getLimiter_absent st key :
  limiters (rl st) !! key = None ->
  let l := fresh (dom (heap st)) in
  heap st !! l = None
  /\ getLimiter key st
     = (l, {| rl := {| limiters := <[key := l]> (limiters (rl st));
                       rate := rate (rl st); burst := burst (rl st) |};
              heap := <[l := rate.NewLimiter (rate (rl st)) (burst (rl st))]> (heap st) |}).
Proof.
  intros Hl l. split.
  - apply not_elem_of_dom. apply is_fresh.
  - unfold getLimiter. now rewrite Hl.
Qed.

Lemma getLimiter_consistent st key :
  terms.consistent st -> terms.consistent (snd (getLimiter key st)).
Proof.
  intros [Halloc Hinj].
  destruct (limiters (rl st) !! key) as [l|] eqn:Hl.
  - rewrite (getLimiter_present st key l Hl). split; assumption.
  - destruct (getLimiter_absent st key Hl) as [Hfresh ->]. cbn [snd]. split.
    + intros k l' Hk. cbn in Hk |- *.
      destruct (decide (k = key)) as [->|Hne].
      * rewrite lookup_insert_eq in Hk. injection Hk as <-.
        rewrite lookup_insert_eq. eauto.
      * rewrite lookup_insert_ne in Hk by congruence.
        destruct (Halloc k l' Hk) as [x Hx].
        rewrite lookup_insert_ne by (intros <-; congruence). eauto.
    + intros k1 k2 l' H1 H2. cbn in H1, H2.
      destruct (decide (k1 = key)) as [->|Hne1]; destruct (decide (k2 = key)) as [->|Hne2];
        try reflexivity.
      * rewrite lookup_insert_eq in H1. injection H1 as <-.
        rewrite lookup_insert_ne in H2 by congruence.
        destruct (Halloc k2 _ H2) as [x Hx]. congruence.
      * rewrite lookup_insert_eq in H2. injection H2 as <-.
        rewrite lookup_insert_ne in H1 by congruence.
        destruct (Halloc k1 _ H1) as [x Hx]. congruence.
      * rewrite lookup_insert_ne in H1, H2 by congruence. eapply Hinj; eassumption.
Qed.

Lemma getLimiter_others st key (k : string) :
  terms.consistent st -> k <> key ->
  terms.limiter_of (snd (getLimiter key st)) k = terms.limiter_of st k.
Proof.
  intros [Halloc _] Hne.
  destruct (limiters (rl st) !! key) as [l|] eqn:Hl.
  - now rewrite (getLimiter_present st key l Hl).
  - destruct (getLimiter_absent st key Hl) as [Hfresh ->]. cbn [snd].
    unfold terms.limiter_of. cbn. rewrite lookup_insert_ne by congruence.
    destruct (limiters (rl st) !! k) as [l'|] eqn:Hk; [|reflexivity].
    destruct (Halloc k l' Hk) as [x Hx].
    rewrite lookup_insert_ne by (intros <-; congruence). reflexivity.
Qed.

Lemma getLimiter_key st key :
  terms.consistent st ->
  let '(l, st') := getLimiter key st in
  limiters (rl st') !! key = Some l
  /\ heap st' !! l
     = Some (default (rate.NewLimiter (rate (rl st)) (burst (rl st)))
               (terms.limiter_of st key)).
Proof.
  intros [Halloc _]. unfold terms.limiter_of.
  destruct (limiters (rl st) !! key) as [l|] eqn:Hl.
  - rewrite (getLimiter_present st key l Hl). split; [exact Hl|].
    destruct (Halloc key l Hl) as [x Hx]. now rewrite Hx.
  - destruct (getLimiter_absent st key Hl) as [Hfresh ->]. cbn.
    now rewrite !lookup_insert_eq.
Qed.

End RateLimiter.

Section Middleware.

Import server middleware.

Context {Limiter : Type} `{rate.RateLib Limiter} `{json.JsonLib}.

Implicit Types (st : State (Limiter := Limiter)) (key : string).

Lemma Allow_consistent st (l : positive) (now : Z) (ok : bool) st' :
  terms.consistent st -> Allow l now st = Some (ok, st') -> terms.consistent st'.
Proof.
  intros [Halloc Hinj]. unfold Allow.
  destruct (heap st !! l) as [x|] eqn:Hx; [|discriminate].
  destruct (rate.Allow now x) as [ok' x']. intros [= _ <-]. split; cbn.
  - intros key l' Hk. destruct (decide (l' = l)) as [->|Hne].
    + rewrite lookup_insert_eq. eauto.
    + rewrite lookup_insert_ne by congruence. eauto.
  - exact Hinj.
Qed.

(** One request through the middleware. *)
Lemma Middleware_step (next : Handler) (r : Request) (now : Z) st :
  terms.consistent st ->
  let key := getClientIP r in
  let before :=
    default (rate.NewLimiter (rate (rl st)) (burst (rl st))) (terms.limiter_of st key) in
  let st' := snd (Middleware next r now st) in
  terms.consistent st'
  /\ fst (Middleware next r now st)
     = (if fst (rate.Allow now before) then next r else tooManyRequests)
  /\ terms.limiter_of st' key = Some (snd (rate.Allow now before))
  /\ (forall k, k <> key -> terms.limiter_of st' k = terms.limiter_of st k).
Proof.
  intros Hst key before st'. subst st'. unfold Middleware. fold key.
  pose proof (getLimiter_consistent st key Hst) as Hst1.
  pose proof (getLimiter_key st key Hst) as Hkey.
  pose proof (fun k => getLimiter_others st key k Hst) as Hothers.
  destruct (getLimiter key st) as [l st1]. cbn [snd] in Hst1, Hothers.
  destruct Hkey as [Hl Hheap]. fold before in Hheap.
  pose proof (Allow_consistent st1 l now) as Hallow.
  unfold Allow in *. rewrite Hheap in *.
  destruct (rate.Allow now before) as [ok after]. cbn [fst snd].
  assert (Hafter : terms.limiter_of
                     {| rl := rl st1; heap := <[l := after]> (heap st1) |} key = Some after).
  { unfold terms.limiter_of. cbn. rewrite Hl. apply lookup_insert_eq. }
  assert (Hrest : forall k, k <> key ->
            terms.limiter_of {| rl := rl st1; heap := <[l := after]> (heap st1) |} k
            = terms.limiter_of st k).
  { intros k Hne. rewrite <- (Hothers k Hne). unfold terms.limiter_of. cbn.
    destruct (limiters (rl st1) !! k) as [l'|] eqn:Hk; [|reflexivity].
    rewrite lookup_insert_ne; [reflexivity|].
    intros <-. apply Hne. symmetry. exact (proj2 Hst1 key k l Hl Hk). }
  destruct ok; cbn [negb fst snd]; (split; [eapply Hallow; eauto|]); auto.
Qed.

Lemma Middleware_settings (next : Handler) (r : Request) (now : Z) st :
  rate (rl (snd (Middleware next r now st))) = rate (rl st)
  /\ burst (rl (snd (Middleware next r now st))) = burst (rl st).
Proof.
  unfold Middleware, getLimiter.
  destruct (limiters (rl st) !! getClientIP r) as [l|]; unfold Allow; cbn [heap rl].
  - destruct (heap st !! l) as [x|]; [|split; reflexivity].
    destruct (rate.Allow now x) as [[] x']; split; reflexivity.
  - rewrite lookup_insert_eq.
    destruct (rate.Allow now _) as [[] x']; split; reflexivity.
Qed.

End Middleware.

(** X18. [getLimiter] is get-or-create. After the call the map holds the
    returned limiter for the key; a key that was present gets the limiter
    it had, and nothing changes; a key that was absent gets a new limiter,
    distinct from all the others, made from the rate and the burst of the
    rate limiter. The limiters of the other keys are untouched, and a
    second call for the key returns the same limiter and changes nothing.
    No entry is ever removed: the map only grows. *)
Theorem getLimiter_get_or_create :
  forall (Limiter : Type) (R : rate.RateLib Limiter)
         (st : middleware.State (Limiter := Limiter)) (key : string),
    terms.consistent st ->
    let limiter := fst (middleware.getLimiter key st) in
    let st' := snd (middleware.getLimiter key st) in
    terms.consistent st'
    /\ middleware.limiters (middleware.rl st') !! key = Some limiter
    /\ (forall l, middleware.limiters (middleware.rl st) !! key = Some l ->
        limiter = l /\ st' = st)
    /\ (middleware.limiters (middleware.rl st) !! key = None ->
        middleware.heap st !! limiter = None
        /\ terms.limiter_of st' key
           = Some (rate.NewLimiter (middleware.rate (middleware.rl st))
                     (middleware.burst (middleware.rl st))))
    /\ (forall k, k <> key ->
        middleware.limiters (middleware.rl st') !! k
        = middleware.limiters (middleware.rl st) !! k
        /\ terms.limiter_of st' k = terms.limiter_of st k)
    /\ middleware.getLimiter key st' = (limiter, st').
Proof.
  intros Limiter R st key Hst limiter st'. subst limiter st'.
  split; [now apply getLimiter_consistent|].
  pose proof (fun k => getLimiter_others st key k Hst) as Hothers.
  destruct (middleware.limiters (middleware.rl st) !! key) as [l|] eqn:Hl.
  - rewrite (getLimiter_present st key l Hl) in *. cbn [fst snd].
    split; [exact Hl|]. split; [now intros l0 [= <-]|]. split; [discriminate|].
    split; [|now apply getLimiter_present].
    intros k Hne. split; [reflexivity|now apply Hothers].
  - destruct (getLimiter_absent st key Hl) as [Hfresh Heq]. rewrite Heq in *.
    cbn [fst snd]. cbn [middleware.rl middleware.limiters].
    split; [apply lookup_insert_eq|]. split; [discriminate|]. split.
    + intros _. split; [exact Hfresh|]. unfold terms.limiter_of. cbn.
      now rewrite !lookup_insert_eq.
    + split.
      * intros k Hne. split; [now rewrite lookup_insert_ne by congruence|now apply Hothers].
      * apply getLimiter_present. cbn. apply lookup_insert_eq.
Qed.

(** X18 on a new rate limiter of burst 10. *)
Lemma getLimiter_get_or_create_witness :
  let st := terms.initial (Limiter := Z) GoFloat.zero 10 in
  let st' := snd (middleware.getLimiter "192.0.2.1" st) in
  terms.limiter_of st' "192.0.2.1" = Some 10
  /\ middleware.getLimiter "192.0.2.1" st' = (fst (middleware.getLimiter "192.0.2.1" st), st').
Proof.
  intros st st'.
  destruct (getLimiter_get_or_create Z fixtures.bucket st "192.0.2.1"
              (initial_consistent GoFloat.zero 10))
    as (_ & _ & _ & Hnew & _ & Hagain).
  split; [apply Hnew; reflexivity|exact Hagain].
Defined.

(** X19. One request through the rate limiting middleware. The key is the
    client address of [getClientIP]; the limiter of the key, a new one when
    the key is unknown, is asked once. When it allows the event, the run is
    the run of the next handler and nothing else; when it does not, the
    next handler is not called, and the response has status 429, content
    type application/json and the encoding of the too-many-requests object
    as its body. The limiters of all other keys stay as they were. *)
Theorem Middleware_isolation :
  forall (Limiter : Type) (R : rate.RateLib Limiter) (J : json.JsonLib)
         (next : server.Handler) (r : server.Request) (now : Z)
         (st : middleware.State (Limiter := Limiter)),
    terms.consistent st ->
    let key := middleware.getClientIP r in
    let before :=
      default (rate.NewLimiter (middleware.rate (middleware.rl st))
                 (middleware.burst (middleware.rl st)))
        (terms.limiter_of st key) in
    let st' := snd (middleware.Middleware next r now st) in
    terms.consistent st'
    /\ fst (middleware.Middleware next r now st)
       = (if fst (rate.Allow now before) then next r else middleware.tooManyRequests)
    /\ terms.limiter_of st' key = Some (snd (rate.Allow now before))
    /\ (forall k, k <> key -> terms.limiter_of st' k = terms.limiter_of st k)
    /\ exists w,
         server.exec middleware.tooManyRequests server.new_response []
         = server.Returned tt w []
         /\ server.status w = 429
         /\ server.sent w !! "Content-Type" = Some "application/json"
         /\ server.body w
            = terms.encoded
                (json.Map [ ("error", "Too many requests"); ("code", "RATE_LIMIT_EXCEEDED") ]).
Proof.
  intros Limiter R J next r now st Hst key before st'.
  destruct (Middleware_step next r now st Hst) as (H1 & H2 & H3 & H4).
  split; [exact H1|]. split; [exact H2|]. split; [exact H3|]. split; [exact H4|].
  unfold middleware.tooManyRequests, json.Encode, terms.encoded.
  destruct (json.Marshal _) as [b|err]; cbn; eexists;
    (split; [reflexivity|]); cbn; repeat split; try apply lookup_insert_eq.
Qed.

(** X19 on the first request to a rate limiter of burst 0: refused. *)
Lemma Middleware_isolation_witness :
  let r := fixtures.request "POST" "/api/v1/detect" EmptyString in
  let st := terms.initial (Limiter := Z) GoFloat.zero 0 in
  let answer := middleware.Middleware (H0 := fixtures.jsonlib) api.root r 5 st in
  fst answer = middleware.tooManyRequests (H0 := fixtures.jsonlib)
  /\ terms.limiter_of (snd answer) "192.0.2.1:4711" = Some 0
  /\ terms.limiter_of (snd answer) "203.0.113.9" = None.
Proof.
  intros r st answer.
  destruct (Middleware_isolation Z fixtures.bucket fixtures.jsonlib api.root r 5 st
              (initial_consistent GoFloat.zero 0))
    as (_ & Hrun & Hkey & Hothers & _).
  split; [exact Hrun|]. split; [exact Hkey|].
  apply (Hothers "203.0.113.9"). discriminate.
Defined.

(** X20. The key of a request is whatever its X-Forwarded-For header says,
    unchanged, when it says anything: a request with a value of this
    header that the rate limiter has not seen meets a new limiter, and
    passes when a new limiter allows an event, whatever the state of the
    limiter of the address it comes from. *)
Theorem Middleware_fresh_forwarded_for :
  forall (Limiter : Type) (R : rate.RateLib Limiter) (J : json.JsonLib)
         (next : server.Handler) (r : server.Request) (now : Z)
         (st : middleware.State (Limiter := Limiter)),
    terms.consistent st ->
    server.Header r "X-Forwarded-For" <> EmptyString ->
    middleware.limiters (middleware.rl st) !! server.Header r "X-Forwarded-For" = None ->
    fst (rate.Allow now (rate.NewLimiter (middleware.rate (middleware.rl st))
                           (middleware.burst (middleware.rl st)))) = true ->
    middleware.getClientIP r = server.Header r "X-Forwarded-For"
    /\ fst (middleware.Middleware next r now st) = next r.
Proof.
  intros Limiter R J next r now st Hst Hxff Hnew Hallow.
  assert (Hkey : middleware.getClientIP r = server.Header r "X-Forwarded-For").
  { unfold middleware.getClientIP.
    destruct (String.eqb_spec (server.Header r "X-Forwarded-For") EmptyString);
      [contradiction|reflexivity]. }
  split; [exact Hkey|].
  destruct (Middleware_step next r now st Hst) as (_ & Hrun & _).
  rewrite Hrun, Hkey. unfold terms.limiter_of. rewrite Hnew. cbn [default].
  now rewrite Hallow.
Qed.

(** X20 on a client whose limiter is used up: the same client passes with
    a forwarding header. *)
Lemma Middleware_fresh_forwarded_for_witness :
  let r := fixtures.request "POST" "/api/v1/detect" EmptyString in
  let st :=
    snd (middleware.Middleware (H0 := fixtures.jsonlib) api.root r 0
           (terms.initial (Limiter := Z) GoFloat.zero 1)) in
  fst (middleware.Middleware (H0 := fixtures.jsonlib) api.root r 1 st)
  = middleware.tooManyRequests (H0 := fixtures.jsonlib)
  /\ fst (middleware.Middleware (H0 := fixtures.jsonlib) api.root
            (fixtures.forwarded "203.0.113.9" r) 1 st)
     = api.root (fixtures.forwarded "203.0.113.9" r).
Proof.
  intros r st. split; [reflexivity|].
  assert (Hst : terms.consistent st).
  { apply (Middleware_step (H0 := fixtures.jsonlib) api.root r 0
             (terms.initial (Limiter := Z) GoFloat.zero 1)).
    apply initial_consistent. }
  apply (Middleware_fresh_forwarded_for Z fixtures.bucket fixtures.jsonlib api.root
           (fixtures.forwarded "203.0.113.9" r) 1 st Hst).
  - discriminate.
  - reflexivity.
  - reflexivity.
Defined.

(** X21. Requests in any number: after a list of requests through the
    middleware, the limiter of a key is the limiter it was before, or a new
    one, after exactly the events of the requests with this key, at their
    times and in their order. The requests of other keys, however many,
    take nothing from it, and a key without requests has the limiter it
    had, or none. *)
Theorem Middleware_per_key :
  forall (Limiter : Type) (R : rate.RateLib Limiter) (J : json.JsonLib)
         (next : server.Handler) (requests : list (server.Request * Z))
         (st : middleware.State (Limiter := Limiter)) (key : string),
    terms.consistent st ->
    let st' := terms.served next requests st in
    let fresh := rate.NewLimiter (middleware.rate (middleware.rl st))
                   (middleware.burst (middleware.rl st)) in
    terms.consistent st'
    /\ terms.limiter_of st' key
       = match terms.times_of key requests with
         | [] => terms.limiter_of st key
         | times => Some (terms.after times (default fresh (terms.limiter_of st key)))
         end.
Proof.
  intros Limiter R J next requests.
  induction requests as [|[r now] rest IH]; intros st key Hst; cbv zeta.
  - split; [exact Hst|reflexivity].
  - cbn [terms.served].
    destruct (Middleware_step next r now st Hst) as (Hst1 & _ & Hkey & Hothers).
    set (st1 := snd (middleware.Middleware next r now st)) in *.
    pose proof (Middleware_settings next r now st) as Hrate. fold st1 in Hrate.
    destruct Hrate as [Hrate Hburst].
    destruct (IH st1 key Hst1) as [Hst' Hlim]. cbv zeta in Hlim.
    split; [exact Hst'|]. rewrite Hlim, Hrate, Hburst.
    unfold terms.times_of. cbn [List.filter fst].
    destruct (String.eqb_spec (middleware.getClientIP r) key) as [He|Hne].
    + subst key. rewrite Hkey. cbn [List.map snd default].
      destruct (List.map snd (List.filter _ rest)) as [|t times]; reflexivity.
    + rewrite (Hothers key) by congruence. reflexivity.
Qed.

(** X21 on four requests to a rate limiter of burst 2, three of one client
    and one with a forwarding header. *)
Lemma Middleware_per_key_witness :
  let r1 := fixtures.request "POST" "/api/v1/detect" EmptyString in
  let r2 := fixtures.forwarded "203.0.113.9" r1 in
  let st := terms.initial (Limiter := Z) GoFloat.zero 2 in
  let st' := terms.served (H0 := fixtures.jsonlib) (fun _ => server.Done tt)
               [(r1, 0); (r2, 1); (r1, 2); (r1, 3)] st in
  terms.limiter_of st' "192.0.2.1:4711" = Some 0
  /\ terms.limiter_of st' "203.0.113.9" = Some 1.
Proof.
  intros r1 r2 st st'. split.
  - apply (Middleware_per_key Z fixtures.bucket fixtures.jsonlib (fun _ => server.Done tt)
             [(r1, 0); (r2, 1); (r1, 2); (r1, 3)] st "192.0.2.1:4711"
             (initial_consistent GoFloat.zero 2)).
  - apply (Middleware_per_key Z fixtures.bucket fixtures.jsonlib (fun _ => server.Done tt)
             [(r1, 0); (r2, 1); (r1, 2); (r1, 3)] st "203.0.113.9"
             (initial_consistent GoFloat.zero 2)).
Defined.

(** ** The configuration *)

Section Environment.

Import settings.

Context `{ParseLib}.

Lemma Getenv_insert (env : Environ) (key value k : string) :
  Getenv (<[key := value]> env) k = if String.eqb k key then value else Getenv env k.
Proof.
  unfold Getenv, Environ. destruct (String.eqb_spec k key) as [->|Hne].
  - now rewrite lookup_insert_eq.
  - now rewrite lookup_insert_ne by congruence.
Qed.

Lemma Getenv_delete (env : Environ) (key k : string) :
  Getenv (delete key env) k = if String.eqb k key then EmptyString else Getenv env k.
Proof.
  unfold Getenv, Environ. destruct (String.eqb_spec k key) as [->|Hne].
  - now rewrite lookup_delete_eq.
  - now rewrite lookup_delete_ne by congruence.
Qed.

(** [Load] looks at the environment through the values of its fifteen
    variables only. *)
Lemma Load_same (env env' : Environ) :
  (forall key, List.In key terms.variables -> Getenv env key = Getenv env' key) ->
  Load env = Load env'.
Proof.
  intros Hsame.
  unfold Load, getEnv, getIntEnv, getInt64Env, getFloat32Env, getDurationEnv.
  rewrite !Hsame by (cbn; tauto). reflexivity.
Qed.

Lemma Getenv_other (env : Environ) (key value k : string) :
  k <> key -> Getenv (<[key := value]> env) k = Getenv env k.
Proof.
  intros Hne. rewrite Getenv_insert. now destruct (String.eqb_spec k key).
Qed.

Lemma Getenv_at (env : Environ) (key value : string) :
  Getenv (<[key := value]> env) key = value.
Proof. rewrite Getenv_insert. now rewrite String.eqb_refl. Qed.

(** A value that the parser rejects is as good as none, for every
    getter. *)
Lemma getEnv_dropped (env : Environ) (key value k d : string) :
  k <> key -> getEnv (<[key := value]> env) k d = getEnv (delete key env) k d.
Proof.
  intros Hne. unfold getEnv. rewrite Getenv_insert, Getenv_delete.
  now destruct (String.eqb_spec k key).
Qed.

Lemma getIntEnv_dropped (env : Environ) (key value k : string) (d : Z) :
  (k = key -> Atoi value = None) ->
  getIntEnv (<[key := value]> env) k d = getIntEnv (delete key env) k d.
Proof.
  intros Hp. unfold getIntEnv. rewrite Getenv_insert, Getenv_delete.
  destruct (String.eqb_spec k key) as [He|]; [|reflexivity].
  rewrite (Hp He). now destruct (String.eqb value EmptyString).
Qed.

Lemma getInt64Env_dropped (env : Environ) (key value k : string) (d : Z) :
  (k = key -> ParseInt64 value = None) ->
  getInt64Env (<[key := value]> env) k d = getInt64Env (delete key env) k d.
Proof.
  intros Hp. unfold getInt64Env. rewrite Getenv_insert, Getenv_delete.
  destruct (String.eqb_spec k key) as [He|]; [|reflexivity].
  rewrite (Hp He). now destruct (String.eqb value EmptyString).
Qed.

Lemma getFloat32Env_dropped (env : Environ) (key value k : string) (d : GoFloat.float32) :
  (k = key -> ParseFloat32 value = None) ->
  getFloat32Env (<[key := value]> env) k d = getFloat32Env (delete key env) k d.
Proof.
  intros Hp. unfold getFloat32Env. rewrite Getenv_insert, Getenv_delete.
  destruct (String.eqb_spec k key) as [He|]; [|reflexivity].
  rewrite (Hp He). now destruct (String.eqb value EmptyString).
Qed.

Lemma getDurationEnv_dropped (env : Environ) (key value k : string) (d : Z) :
  (k = key -> ParseDuration value = None) ->
  getDurationEnv (<[key := value]> env) k d = getDurationEnv (delete key env) k d.
Proof.
  intros Hp. unfold getDurationEnv. rewrite Getenv_insert, Getenv_delete.
  destruct (String.eqb_spec k key) as [He|]; [|reflexivity].
  rewrite (Hp He). now destruct (String.eqb value EmptyString).
Qed.

(** A variable whose value its parser rejects counts as not set. *)
Lemma Load_rejected (env : Environ) (key value : string) :
  terms.rejected key value -> Load (<[key := value]> env) = Load (delete key env).
Proof.
  intros Hrej. unfold Load.
  assert (Hport : "PORT" <> key).
  { destruct Hrej as [[Hk _]|[[Hk _]|[[Hk _]|[Hk _]]]]; cbn in Hk; intros <-;
      repeat destruct Hk as [Hk|Hk]; discriminate Hk || exact Hk. }
  rewrite (getEnv_dropped env key value "PORT") by exact Hport.
  destruct Hrej as [[Hk Hp]|[[Hk Hp]|[[Hk Hp]|[Hk Hp]]]]; cbn in Hk;
    repeat (destruct Hk as [Hk|Hk]; [subst key|]); try contradiction; try subst key;
    rewrite !(getIntEnv_dropped env _ value)
      by (intros He; first [discriminate He|exact Hp]);
    rewrite !(getInt64Env_dropped env _ value)
      by (intros He; first [discriminate He|exact Hp]);
    rewrite !(getFloat32Env_dropped env _ value)
      by (intros He; first [discriminate He|exact Hp]);
    rewrite !(getDurationEnv_dropped env _ value)
      by (intros He; first [discriminate He|exact Hp]);
    reflexivity.
Qed.

(** A variable whose value is not empty and is taken by its parser sets
    its setting to the value parsed. *)
Lemma Load_parsed (env : Environ) (key value : string) :
  value <> EmptyString ->
  (key = "PORT" ->
   terms.setting_of key (Load (<[key := value]> env)) = Some (terms.Text value))
  /\ (forall d, List.In key terms.durationVariables -> ParseDuration value = Some d ->
      terms.setting_of key (Load (<[key := value]> env)) = Some (terms.Span d))
  /\ (forall z, List.In key terms.intVariables -> Atoi value = Some z ->
      terms.setting_of key (Load (<[key := value]> env)) = Some (terms.Number z))
  /\ (forall z, key = "MAX_IMAGE_SIZE" -> ParseInt64 value = Some z ->
      terms.setting_of key (Load (<[key := value]> env)) = Some (terms.Number z))
  /\ (forall f, List.In key terms.floatVariables -> ParseFloat32 value = Some f ->
      terms.setting_of key (Load (<[key := value]> env)) = Some (terms.Fraction f)).
Proof.
  intros Hne.
  assert (Hvalue : String.eqb value EmptyString = false) by now apply String.eqb_neq.
  split; [|split; [|split; [|split]]].
  - intros ->. cbn. unfold getEnv. now rewrite Getenv_at, Hvalue.
  - intros d Hk Hp. cbn in Hk.
    repeat (destruct Hk as [Hk|Hk]; [subst key|]); try contradiction;
      cbn; unfold getDurationEnv; now rewrite Getenv_at, Hvalue, Hp.
  - intros z Hk Hp. cbn in Hk.
    repeat (destruct Hk as [Hk|Hk]; [subst key|]); try contradiction;
      cbn; unfold getIntEnv; now rewrite Getenv_at, Hvalue, Hp.
  - intros z -> Hp. cbn. unfold getInt64Env. now rewrite Getenv_at, Hvalue, Hp.
  - intros f Hk Hp. cbn in Hk.
    repeat (destruct Hk as [Hk|Hk]; [subst key|]); try contradiction;
      cbn; unfold getFloat32Env; now rewrite Getenv_at, Hvalue, Hp.
Qed.

(** A variable changes no setting but its own. *)
Lemma Load_others (env : Environ) (key value k : string) :
  k <> key ->
  terms.setting_of k (Load (<[key := value]> env)) = terms.setting_of k (Load env).
Proof.
  intros Hne. unfold terms.setting_of.
  repeat match goal with
         | |- context [String.eqb k ?name] =>
             destruct (String.eqb_spec k name) as [->|?];
             [cbn; unfold getEnv, getIntEnv, getInt64Env, getFloat32Env, getDurationEnv;
              now rewrite Getenv_other by exact Hne|]
         end.
  reflexivity.
Qed.

End Environment.

(** X22. [Load] never fails and reads nothing but its fifteen variables:
    two environments that agree on them give the same configuration. A
    variable set to the empty string counts as not set, and so does a
    variable whose value its own parser rejects: the value is dropped
    without an error. A variable whose value is not empty and is taken by
    its parser sets its setting to the value parsed, whatever it is (PORT is
    not parsed and is taken as it is), and it changes no other setting.
    With no variable set, the configuration is the default one: port
    :8080, timeouts of 30, 30 and 120 seconds, and the defaults of the
    detector and of the limits. *)
Theorem Load_reads_its_variables :
  forall (P : settings.ParseLib) (env : settings.Environ),
    (forall env' : settings.Environ,
        (forall key, List.In key terms.variables ->
                     settings.Getenv env key = settings.Getenv env' key) ->
        settings.Load env = settings.Load env')
    /\ (forall key,
           settings.Load (<[key := EmptyString]> env) = settings.Load (delete key env))
    /\ (forall key value,
           terms.rejected key value ->
           settings.Load (<[key := value]> env) = settings.Load (delete key env))
    /\ (forall key value,
           value <> EmptyString ->
           let loaded := settings.Load (<[key := value]> env) in
           (key = "PORT" -> terms.setting_of key loaded = Some (terms.Text value))
           /\ (forall d, List.In key terms.durationVariables ->
                         settings.ParseDuration value = Some d ->
                         terms.setting_of key loaded = Some (terms.Span d))
           /\ (forall z, List.In key terms.intVariables ->
                         settings.Atoi value = Some z ->
                         terms.setting_of key loaded = Some (terms.Number z))
           /\ (forall z, key = "MAX_IMAGE_SIZE" ->
                         settings.ParseInt64 value = Some z ->
                         terms.setting_of key loaded = Some (terms.Number z))
           /\ (forall f, List.In key terms.floatVariables ->
                         settings.ParseFloat32 value = Some f ->
                         terms.setting_of key loaded = Some (terms.Fraction f))
           /\ (forall k, k <> key ->
                         terms.setting_of k loaded
                         = terms.setting_of k (settings.Load env)))
    /\ settings.Load ∅ = terms.defaults.
Proof.
  intros P env. split; [|split; [|split; [|split]]].
  - intros env'. apply Load_same.
  - intros key. apply Load_same. intros k _.
    rewrite Getenv_insert, Getenv_delete. reflexivity.
  - intros key value. apply Load_rejected.
  - intros key value Hne loaded. subst loaded.
    destruct (Load_parsed env key value Hne) as (H1 & H2 & H3 & H4 & H5).
    repeat (split; [assumption|]).
    intros k Hk. now apply Load_others.
  - unfold settings.Load, settings.getEnv, settings.getIntEnv, settings.getInt64Env,
      settings.getFloat32Env, settings.getDurationEnv, settings.Getenv, settings.Environ.
    rewrite !lookup_empty. reflexivity.
Qed.
